(** * DNS client of the DKIM Verifier add-on (chrome/content/dns.js)

    A shallow embedding of the wire codec and of the resolver's
    callback-driven state machine, and the properties of the design
    document checked against it.

    JavaScript values are modelled as the code uses them:
    - a number is an integer or NaN (every number the code computes is an
      integer far below 2^53, or NaN);
    - a string is the list of its UTF-16 code units (the response is built
      with [String.fromCharCode(instream.read8())], so its units are bytes);
    - the 32-bit operators [>>], [<<], [&] go through ToInt32;
    - a call returns or throws ([res]); a call that may recurse without
      end takes the nesting depth it is allowed and returns an [option].

    The resolver works through callbacks of the stream pump.  One lookup
    is a transition system: its state holds the pool of servers (the
    array the entries of which the code marks not alive), the sockets
    opened so far with their listeners, and the log of what happened;
    the environment chooses the socket, the bytes and the status of each
    event.  DNS_readAllFromSocket catches its own exceptions and only
    logs them: a socket that could not be opened is a socket that never
    receives an event.

    The variables of the module that hold the name servers are a
    record; the [{ server, alive }] objects are kept in a store, so
    that the arrays which share an object share what a lookup does to
    it.  What the platform answers (the registry, /etc/resolv.conf,
    which code units are white space) is an argument. *)

From Stdlib Require Import ZArith List String Ascii Lia Bool DecimalString.
From stdpp Require Import base list.
Import ListNotations.

Local Open Scope Z_scope.

(** ** JavaScript numbers and strings *)

Module JS.

Inductive num : Type :=
| Num (z : Z)
| NaN.

Abbreviation jsstring := (list Z).

Definition wrap32 (z : Z) : Z := (z + 2 ^ 31) mod 2 ^ 32 - 2 ^ 31.

Definition ToInt32 (n : num) : Z :=
  match n with Num z => wrap32 z | NaN => 0 end.

Definition ToIntegerOrInfinity (n : num) : Z :=
  match n with Num z => z | NaN => 0 end.

(** [a >> k], [a << k], [a & b] for [0 <= k < 32]. *)
Definition shr (a : num) (k : Z) : num := Num (Z.shiftr (ToInt32 a) k).
Definition shl (a : num) (k : Z) : num := Num (wrap32 (Z.shiftl (ToInt32 a) k)).
Definition band (a b : num) : num := Num (Z.land (ToInt32 a) (ToInt32 b)).

Definition add (a b : num) : num :=
  match a, b with Num x, Num y => Num (x + y) | _, _ => NaN end.

Definition sub (a b : num) : num :=
  match a, b with Num x, Num y => Num (x - y) | _, _ => NaN end.

(** [a === b] on numbers: NaN is different from everything. *)
Definition eqb (a b : num) : bool :=
  match a, b with Num x, Num y => x =? y | _, _ => false end.

(** [a > b] and [a >= b] on numbers: false as soon as one side is NaN. *)
Definition gtb (a b : num) : bool :=
  match a, b with Num x, Num y => y <? x | _, _ => false end.

Definition geb (a b : num) : bool :=
  match a, b with Num x, Num y => y <=? x | _, _ => false end.

(** [s.charCodeAt(pos)]: NaN outside the string; a NaN position reads
    position 0. *)
Definition charCodeAt (s : jsstring) (pos : num) : num :=
  let p := ToIntegerOrInfinity pos in
  if (p <? 0) || (Z.of_nat (length s) <=? p) then NaN
  else match nth_error s (Z.to_nat p) with
       | Some c => Num c
       | None => NaN
       end.

(** [s.substr(start, len)] (ECMAScript B.2.2.1). *)
Definition substr (s : jsstring) (start len : num) : jsstring :=
  let size := Z.of_nat (length s) in
  let st := ToIntegerOrInfinity start in
  let st := if st <? 0 then Z.max (size + st) 0 else Z.min st size in
  let ln := Z.min (Z.max (ToIntegerOrInfinity len) 0) size in
  let en := Z.min (st + ln) size in
  firstn (Z.to_nat (en - st)) (skipn (Z.to_nat st) s).

(** [String.fromCharCode(n)] for an integer [n]: one unit, ToUint16 of it. *)
Definition fromCharCode (n : Z) : jsstring := [n mod 65536].

(** [s.split(sep)] for a one-unit separator. *)
Fixpoint split (sep : Z) (s : jsstring) : list jsstring :=
  match s with
  | [] => [[]]
  | c :: s' =>
      if c =? sep then [] :: split sep s'
      else match split sep s' with
           | [] => [[c]]
           | p :: ps => (c :: p) :: ps
           end
  end.

(** The units of an ASCII literal. *)
Fixpoint lit (s : string) : jsstring :=
  match s with
  | EmptyString => []
  | String a s' => Z.of_nat (nat_of_ascii a) :: lit s'
  end.

(** Number-to-string conversion, as in [n + "."]. *)
Definition digits (z : Z) : jsstring :=
  lit (NilZero.string_of_int (Z.to_int z)).

Definition toString (n : num) : jsstring :=
  match n with Num z => digits z | NaN => lit "NaN" end.

#[global] Arguments wrap32 : simpl never.
#[global] Arguments shr : simpl never.
#[global] Arguments shl : simpl never.
#[global] Arguments band : simpl never.
#[global] Arguments add : simpl never.
#[global] Arguments sub : simpl never.
#[global] Arguments eqb : simpl never.
#[global] Arguments gtb : simpl never.
#[global] Arguments geb : simpl never.
#[global] Arguments charCodeAt : simpl never.
#[global] Arguments substr : simpl never.
#[global] Arguments fromCharCode : simpl never.
#[global] Arguments toString : simpl never.

End JS.

Import JS.

(** ** Byte and word helpers of the codec *)

(** [DNS_strToWord]: [str.charCodeAt(1) + (str.charCodeAt(0) << 8)]. *)
Definition DNS_strToWord (str : jsstring) : num :=
  add (charCodeAt str (Num 1)) (shl (charCodeAt str (Num 0)) 8).

Definition DNS_strToOctet (str : jsstring) : num := charCodeAt str (Num 0).

Definition DNS_octetToStr (octet : Z) : jsstring := fromCharCode octet.

(** [DNS_wordToStr]: [(word >> 8) % 256] then [word % 256]; [%] is the
    remainder with the sign of the dividend. *)
Definition DNS_wordToStr (word : Z) : jsstring :=
  DNS_octetToStr (Z.rem (Z.shiftr (wrap32 word) 8) 256)
    ++ DNS_octetToStr (Z.rem word 256).

#[global] Arguments DNS_strToWord : simpl never.
#[global] Arguments DNS_strToOctet : simpl never.
#[global] Arguments DNS_octetToStr : simpl never.
#[global] Arguments DNS_wordToStr : simpl never.

(** ** Name decoding *)

(** The parse context [{ str, idx }]; the functions below return the
    context as the callee leaves it. *)
Record ctx : Type := Ctx { str : jsstring; idx : num }.

Definition set_idx (c : ctx) (i : num) : ctx := Ctx (str c) i.

Section ReadDomainLoop.
(** The nested call [DNS_readDomain(ctx2)]; [None] when it does not
    return. *)
Variable self : ctx -> option (jsstring * ctx).

(** The [while (ctr-- > 0)] loop of DNS_readDomain. *)
Fixpoint readDomain_loop (ctr : nat) (domainname : jsstring) (c : ctx)
  : option (jsstring * ctx) :=
  match ctr with
  | O => Some (domainname, c)
  | S ctr' =>
      let l := charCodeAt (str c) (idx c) in
      let c := set_idx c (add (idx c) (Num 1)) in
      if eqb l (Num 0) then Some (domainname, c)
      else
        let domainname :=
          match domainname with [] => [] | _ => domainname ++ lit "." end in
        if eqb (shr l 6) (Num 3) then
          let ptr := add (shl (band l (Num 63)) 8) (charCodeAt (str c) (idx c)) in
          let c := set_idx c (add (idx c) (Num 1)) in
          let ctx2 := Ctx (str c) ptr in
          match self ctx2 with
          | None => None
          | Some (d, _) => Some (domainname ++ d, c)
          end
        else
          readDomain_loop ctr' (domainname ++ substr (str c) (idx c) l)
            (set_idx c (add (idx c) l))
  end.
End ReadDomainLoop.

(** [DNS_readDomain]; [depth] bounds the nesting of calls through
    compression pointers, [None] meaning that the nesting went deeper. *)
Fixpoint DNS_readDomain (depth : nat) (c : ctx) : option (jsstring * ctx) :=
  match depth with
  | O => None
  | S depth' => readDomain_loop (DNS_readDomain depth') 20 [] c
  end.

(** *** The same walk, counting steps

    [readDomain_steps] follows DNS_readDomain and returns, for each
    nested invocation (outermost first), how many labels and pointers
    its loop went through. *)
Section ReadDomainSteps.
Variable self : ctx -> option (list nat).

Fixpoint readDomain_loop_steps (ctr : nat) (n : nat) (c : ctx)
  : option (list nat) :=
  match ctr with
  | O => Some [n]
  | S ctr' =>
      let l := charCodeAt (str c) (idx c) in
      let c := set_idx c (add (idx c) (Num 1)) in
      if eqb l (Num 0) then Some [n]
      else
        if eqb (shr l 6) (Num 3) then
          let ptr := add (shl (band l (Num 63)) 8) (charCodeAt (str c) (idx c)) in
          match self (Ctx (str c) ptr) with
          | None => None
          | Some ns => Some (S n :: ns)
          end
        else
          readDomain_loop_steps ctr' (S n) (set_idx c (add (idx c) l))
  end.
End ReadDomainSteps.

Fixpoint readDomain_steps (depth : nat) (c : ctx) : option (list nat) :=
  match depth with
  | O => None
  | S depth' => readDomain_loop_steps (readDomain_steps depth') 20 0%nat c
  end.

(** A message of 19 one-letter labels followed by a pointer to offset 40,
    where two more labels and the terminator sit. *)
Definition chain_message : jsstring :=
  concat (repeat [1; 97] 19) ++ [192; 40] ++ [1; 98; 1; 99; 0].

(** A message whose first name is a pointer to itself. *)
Definition loop_message : jsstring := [192; 0].


(** ** Resource records *)

(** [results[j].address] of an MX value: the property is absent
    ([undefined]) until something assigns it. *)
Inductive address_value : Type :=
| AddrUndefined
| AddrNull
| AddrArray (a : list jsstring).

(** The values [rec.rddata] takes: never assigned, a string, or the MX
    object [{ preference, host }]. *)
Inductive rddata : Type :=
| RDUndefined
| RDString (s : jsstring)
| RDMx (preference : num) (host : jsstring) (address : address_value).

(** [rec.type] holds the numeric type first and the type's name once the
    record is recognized. *)
Inductive rtype : Type :=
| TNum (n : num)
| TName (s : string).

Record rr : Type := RR {
  rec_dom : jsstring;
  rec_type : rtype;
  rec_cls : num;
  rec_ttl : num;
  rec_rdlen : num;
  rec_recognized : bool;
  rec_rddata : rddata
}.

(** The TXT loop [while (rec.rdlen > 0 && ctr-- > 0)]. *)
Fixpoint readRec_txt (ctr : nat) (rdlen : num) (data : jsstring) (c : ctx)
  : num * jsstring * ctx :=
  match ctr with
  | O => (rdlen, data, c)
  | S ctr' =>
      if gtb rdlen (Num 0) then
        let txtlen := DNS_strToOctet (substr (str c) (idx c) (Num 1)) in
        let c := set_idx c (add (idx c) (Num 1)) in
        let rdlen := sub rdlen (Num 1) in
        let data := data ++ substr (str c) (idx c) txtlen in
        let c := set_idx c (add (idx c) txtlen) in
        let rdlen := sub rdlen txtlen in
        readRec_txt ctr' rdlen data c
      else (rdlen, data, c)
  end.

(** The dotted quad of an A record, NaN where RDATA is short. *)
Definition dotted_quad (d : jsstring) : jsstring :=
  toString (charCodeAt d (Num 0)) ++ lit "." ++
  toString (charCodeAt d (Num 1)) ++ lit "." ++
  toString (charCodeAt d (Num 2)) ++ lit "." ++
  toString (charCodeAt d (Num 3)).

(** [DNS_readRec]. *)
Definition DNS_readRec (depth : nat) (c : ctx) : option (rr * ctx) :=
  match DNS_readDomain depth c with
  | None => None
  | Some (dom, c) =>
      let type := DNS_strToWord (substr (str c) (idx c) (Num 2)) in
      let c := set_idx c (add (idx c) (Num 2)) in
      let cls := DNS_strToWord (substr (str c) (idx c) (Num 2)) in
      let c := set_idx c (add (idx c) (Num 2)) in
      let ttl := DNS_strToWord (substr (str c) (idx c) (Num 2)) in
      let c := set_idx c (add (idx c) (Num 4)) in
      let rdlen := DNS_strToWord (substr (str c) (idx c) (Num 2)) in
      let c := set_idx c (add (idx c) (Num 2)) in
      let ctxnextidx := add (idx c) rdlen in
      if eqb type (Num 16) then
        let '(rdlen', data, _) := readRec_txt 10 rdlen [] c in
        Some (RR dom (TName "TXT") cls ttl rdlen' true (RDString data),
              set_idx c ctxnextidx)
      else if eqb type (Num 1) then
        let data := substr (str c) (idx c) rdlen in
        Some (RR dom (TName "A") cls ttl rdlen true (RDString (dotted_quad data)),
              set_idx c ctxnextidx)
      else if eqb type (Num 15) then
        let preference := DNS_strToWord (substr (str c) (idx c) (Num 2)) in
        let c := set_idx c (add (idx c) (Num 2)) in
        match DNS_readDomain depth c with
        | None => None
        | Some (host, _) =>
            Some (RR dom (TName "MX") cls ttl rdlen true
                    (RDMx preference host AddrUndefined),
                  set_idx c ctxnextidx)
        end
      else if eqb type (Num 2) then
        match DNS_readDomain depth c with
        | None => None
        | Some (d, _) =>
            Some (RR dom (TName "NS") cls ttl rdlen true (RDString d),
                  set_idx c ctxnextidx)
        end
      else if eqb type (Num 12) then
        match DNS_readDomain depth c with
        | None => None
        | Some (d, _) =>
            Some (RR dom (TName "PTR") cls ttl rdlen true (RDString d),
                  set_idx c ctxnextidx)
        end
      else if eqb type (Num 5) then
        Some (RR dom (TName "CNAME") cls ttl rdlen true (RDString []),
              set_idx c ctxnextidx)
      else
        Some (RR dom (TNum type) cls ttl rdlen false RDUndefined,
              set_idx c ctxnextidx)
  end.

(** ** Decoding a response *)

(** A JavaScript call either returns or throws. *)
Inductive res (A : Type) : Type :=
| Ok (a : A)
| Thrown (msg : string).
Arguments Ok {A} a.
Arguments Thrown {A} msg.

(** How many times [for (i = 0; i < n; i++)] runs. *)
Definition loop_count (n : num) : nat :=
  match n with Num z => Z.to_nat z | NaN => O end.

(** One turn of the question loop of DNS_getRDData: the values of
    [dom], [type] and [cls], and the context. *)
Definition read_question (depth : nat) (c : ctx) : option (jsstring * num * num * ctx) :=
  match DNS_readDomain depth c with
  | None => None
  | Some (dom, c) =>
      let type := DNS_strToWord (substr (str c) (idx c) (Num 2)) in
      let c := set_idx c (add (idx c) (Num 2)) in
      let cls := DNS_strToWord (substr (str c) (idx c) (Num 2)) in
      let c := set_idx c (add (idx c) (Num 2)) in
      Some (dom, type, cls, c)
  end.

Fixpoint read_questions (depth : nat) (n : nat) (c : ctx) : option ctx :=
  match n with
  | O => Some c
  | S n' =>
      match read_question depth c with
      | None => None
      | Some (_, _, _, c) => read_questions depth n' c
      end
  end.

Definition is_type (name : string) (t : rtype) : bool :=
  match t with TName s => String.eqb s name | TNum _ => false end.

(** The answer loop: [results.push(rec.rddata)] unless CNAME. *)
Fixpoint read_answers (depth : nat) (n : nat) (results : list rddata) (c : ctx)
  : option (res (list rddata * ctx)) :=
  match n with
  | O => Some (Ok (results, c))
  | S n' =>
      match DNS_readRec depth c with
      | None => None
      | Some (rec, c) =>
          if negb (rec_recognized rec) then
            Some (Thrown "Record type is not one that this library can understand.")
          else
            let results :=
              if negb (is_type "CNAME" (rec_type rec))
              then results ++ [rec_rddata rec] else results in
            read_answers depth n' results c
      end
  end.

(** [n] records read one after the other, each stored at the end of
    [recs]; this is the authority loop, [authorities[i] = rec]. *)
Fixpoint read_records (depth : nat) (n : nat) (recs : list rr) (c : ctx)
  : option (list rr * ctx) :=
  match n with
  | O => Some (recs, c)
  | S n' =>
      match DNS_readRec depth c with
      | None => None
      | Some (rec, c) => read_records depth n' (recs ++ [rec]) c
      end
  end.

(** The body of the [j] loop on one element of [results]. *)
Definition attach_address (rec : rr) (r : rddata) : res rddata :=
  match r with
  | RDUndefined => Thrown "TypeError: results[j] is undefined"
  | RDString _ => Ok r
  | RDMx preference host address =>
      if negb (bool_decide (host = [])) && bool_decide (host = rec_dom rec) then
        let address :=
          match address with AddrNull => AddrArray [] | _ => address end in
        match address with
        | AddrArray a =>
            let quad := match rec_rddata rec with RDString s => s | _ => [] end in
            Ok (RDMx preference host (AddrArray (a ++ [quad])))
        | _ => Thrown "TypeError: results[j].address is undefined"
        end
      else Ok r
  end.

Fixpoint attach_addresses (rec : rr) (results : list rddata) : res (list rddata) :=
  match results with
  | [] => Ok []
  | r :: rs =>
      match attach_address rec r with
      | Thrown m => Thrown m
      | Ok r' =>
          match attach_addresses rec rs with
          | Thrown m => Thrown m
          | Ok rs' => Ok (r' :: rs')
          end
      end
  end.

(** The additional loop. *)
Fixpoint read_additional (depth : nat) (n : nat) (results : list rddata) (c : ctx)
  : option (res (list rddata * ctx)) :=
  match n with
  | O => Some (Ok (results, c))
  | S n' =>
      match DNS_readRec depth c with
      | None => None
      | Some (rec, c) =>
          if is_type "A" (rec_type rec) then
            match attach_addresses rec results with
            | Thrown m => Some (Thrown m)
            | Ok results => read_additional depth n' results c
            end
          else read_additional depth n' results c
      end
  end.

(** The search for an authority to recurse on:
    [authorities[i].type === "NS" && authorities[i].rddata !== server].
    The rddata of an NS record is a string (see [DNS_readRec]). *)
Fixpoint find_referral (server : jsstring) (authorities : list rr) : option jsstring :=
  match authorities with
  | [] => None
  | a :: rest =>
      match rec_rddata a with
      | RDString d =>
          if is_type "NS" (rec_type a) && negb (bool_decide (d = server))
          then Some d
          else find_referral server rest
      | _ => find_referral server rest
      end
  end.

(** What DNS_getRDData ends with: [callback(results, callbackdata)],
    [callback(null, callbackdata)], or the call
    [queryDNSRecursive(rddata, host, recordtype, callback, callbackdata, hops+1)]. *)
Inductive rd_action : Type :=
| RdCallback (results : option (list rddata))
| RdRecurse (server : jsstring) (hops : Z).

Definition DNS_getRDData (depth : nat) (str : jsstring) (server : jsstring) (hops : Z)
  : option (res rd_action) :=
  let qcount := DNS_strToWord (substr str (Num 4) (Num 2)) in
  let ancount := DNS_strToWord (substr str (Num 6) (Num 2)) in
  let aucount := DNS_strToWord (substr str (Num 8) (Num 2)) in
  let adcount := DNS_strToWord (substr str (Num 10) (Num 2)) in
  let c := Ctx str (Num 12) in
  if negb (eqb qcount (Num 1)) then
    Some (Thrown "Invalid response: Question section didn't have exactly one record.")
  else if gtb ancount (Num 128) then
    Some (Thrown "Invalid response: Answer section had more than 128 records.")
  else if gtb aucount (Num 128) then
    Some (Thrown "Invalid response: Authority section had more than 128 records.")
  else if gtb adcount (Num 128) then
    Some (Thrown "Invalid response: Additional section had more than 128 records.")
  else
    match read_questions depth (loop_count qcount) c with
    | None => None
    | Some c =>
        match read_answers depth (loop_count ancount) [] c with
        | None => None
        | Some (Thrown m) => Some (Thrown m)
        | Some (Ok (results, c)) =>
            match aucount with
            | NaN => Some (Thrown "RangeError: invalid array length")
            | Num _ =>
                match read_records depth (loop_count aucount) [] c with
                | None => None
                | Some (authorities, c) =>
                    match read_additional depth (loop_count adcount) results c with
                    | None => None
                    | Some (Thrown m) => Some (Thrown m)
                    | Some (Ok (results, _)) =>
                        match results with
                        | _ :: _ => Some (Ok (RdCallback (Some results)))
                        | [] =>
                            match find_referral server authorities with
                            | Some ns => Some (Ok (RdRecurse ns (hops + 1)))
                            | None => Some (Ok (RdCallback None))
                            end
                        end
                    end
                end
            end
        end
    end.

(** ** Query encoding *)

(** The QTYPE that heads each branch of the [recordtype] cascade. *)
Definition qtype_of (recordtype : string) : option Z :=
  if String.eqb recordtype "A" then Some 1
  else if String.eqb recordtype "NS" then Some 2
  else if String.eqb recordtype "CNAME" then Some 5
  else if String.eqb recordtype "PTR" then Some 12
  else if String.eqb recordtype "MX" then Some 15
  else if String.eqb recordtype "TXT" then Some 16
  else None.

(** The loop over [hostparts]. *)
Definition append_labels (query : jsstring) (hostparts : list jsstring) : jsstring :=
  fold_left
    (fun query part => query ++ DNS_octetToStr (Z.of_nat (length part)) ++ part)
    hostparts query.

(** The header the query starts with. *)
Definition query_header : jsstring :=
  lit "00" ++ fromCharCode 1 ++ fromCharCode 0
    ++ DNS_wordToStr 1 ++ DNS_wordToStr 0 ++ DNS_wordToStr 0 ++ DNS_wordToStr 0.

(** The value of [query] that queryDNSRecursive hands to the socket. *)
Definition encode_query (host : jsstring) (recordtype : string) : res jsstring :=
  let query := query_header in
  let hostparts := split 46 host in
  let query := append_labels query hostparts in
  let query := query ++ DNS_octetToStr 0 in
  match qtype_of recordtype with
  | None => Thrown "Invalid record type."
  | Some t =>
      let query := query ++ DNS_wordToStr t in
      let query := query ++ DNS_wordToStr 1 in
      Ok (DNS_wordToStr (Z.of_nat (length query)) ++ query)
  end.

(** ** The resolver *)

(** An entry of DNS_ROOT_NAME_SERVERS. *)
Record nameserver : Type := Nameserver { ns_server : jsstring; ns_alive : bool }.

(** The third argument of the callback.  TOO_MANY_HOPS to
    INCOMPLETE_RESPONSE are the entries of DNS_STRINGS, which the locale
    module defines; they are kept symbolic.  NO_SERVER_ALIVE is the
    literal text the code passes when the pool is exhausted. *)
Inductive dns_error : Type :=
| NO_SERVER_ALIVE
| TOO_MANY_HOPS
| CONNECTION_REFUSED (server : jsstring)
| TIMED_OUT (server : jsstring)
| SERVER_ERROR (server : jsstring)
| INCOMPLETE_RESPONSE (server : jsstring).

(** The [listener] object of one query. *)
Record listener : Type := Listener {
  msgsize : option num;
  readcount : Z;
  responseHeader : jsstring;
  responseBody : jsstring;
  done : bool
}.

Definition new_listener : listener := Listener None 0 [] [] false.

(** One call of queryDNSRecursive that reached the socket: the variables
    its listener closes over, the listener, and [dataListener.data].
    [c_servers] is [None] when [servers] is undefined, and [Some i] when
    [servers] is the pool and [serverObj] is its entry [i]. *)
Record conn : Type := Conn {
  c_server : jsstring;
  c_servers : option nat;
  c_host : jsstring;
  c_recordtype : string;
  c_hops : Z;
  c_hostname : jsstring;
  c_port : Z + jsstring;
  c_query : jsstring;
  c_listener : listener;
  c_data : jsstring;
  c_stopped : bool
}.

Definition set_listener (c : conn) (l : listener) (data : jsstring) (stopped : bool) : conn :=
  Conn (c_server c) (c_servers c) (c_host c) (c_recordtype c) (c_hops c)
       (c_hostname c) (c_port c) (c_query c) l data stopped.

(** What a handler does to the outside: call the callback, or open a
    socket through DNS_readAllFromSocket. *)
Inductive action : Type :=
| ACallback (result : option (list rddata)) (error : option dns_error)
| AConnect (c : conn).

(** The scan for the first alive server. *)
Fixpoint first_alive (servers : list nameserver) : option (nat * jsstring) :=
  match servers with
  | [] => None
  | s :: rest =>
      if ns_alive s then Some (O, ns_server s)
      else match first_alive rest with
           | Some (i, name) => Some (S i, name)
           | None => None
           end
  end.

(** [serverObj.alive = false]. *)
Definition mark_dead (i : nat) (servers : list nameserver) : list nameserver :=
  alter (fun s => Nameserver (ns_server s) false) i servers.

(** [server.indexOf(':')]. *)
Fixpoint indexOf (u : Z) (s : jsstring) : option nat :=
  match s with
  | [] => None
  | c :: s' => if c =? u then Some O else option_map S (indexOf u s')
  end.

(** [queryDNSRecursive(server, host, recordtype, callback, callbackdata, hops, servers)];
    [pool] is the array the call sees when [servers] is given. *)
Definition queryDNSRecursive (pool : list nameserver) (server : option jsstring)
    (host : jsstring) (recordtype : string) (hops : Z) (servers : bool)
  : res (list action) :=
  let selected :=
    if servers then
      match first_alive pool with
      | Some (i, name) => (Some name, Some i)
      | None => (None, None)
      end
    else (server, None) in
  let server := fst selected in
  let serverObj := snd selected in
  match servers, server with
  | true, None => Ok [ACallback None (Some NO_SERVER_ALIVE)]
  | _, _ =>
      if hops =? 10 then Ok [ACallback None (Some TOO_MANY_HOPS)]
      else
        match encode_query host recordtype with
        | Thrown m => Thrown m
        | Ok query =>
            match server with
            | None => Thrown "TypeError: server is null"
            | Some server =>
                let '(server_hostname, port) :=
                  match indexOf 58 server with
                  | None => (server, inl 53)
                  | Some k => (firstn k server, inr (skipn (S k) server))
                  end in
                Ok [AConnect (Conn server serverObj host recordtype hops
                                server_hostname port query new_listener [] false)]
            end
        end
  end.

(** The [while] loop of [process] that moves units from [data] to
    [responseHeader]. *)
Fixpoint fill_header (header data : jsstring) : jsstring * jsstring :=
  match data with
  | [] => (header, data)
  | u :: rest =>
      if (length header <? 14)%nat then fill_header (header ++ [u]) rest
      else (header, data)
  end.

(** What the end of DNS_getRDData does. *)
Definition follow (c : conn) (a : rd_action) : res (list action) :=
  match a with
  | RdCallback results => Ok [ACallback results None]
  | RdRecurse ns hops =>
      queryDNSRecursive [] (Some ns) (c_host c) (c_recordtype c) hops false
  end.

(** [listener.process(data)]: the listener as it is left, and what the
    call did or threw. *)
Definition process (depth : nat) (c : conn) (l : listener) (data : jsstring)
  : option (listener * res (list action)) :=
  if done l then Some (l, Ok [])
  else
    let readcount := readcount l + Z.of_nat (length data) in
    let '(header, data) := fill_header (responseHeader l) data in
    if (length header =? 14)%nat then
      let msgsize := DNS_strToWord (substr header (Num 0) (Num 2)) in
      let body := responseBody l ++ data in
      if geb (Num readcount) (add msgsize (Num 2)) then
        let header := skipn 2 header in
        let l := Listener (Some msgsize) readcount header body true in
        match DNS_getRDData depth (header ++ body) (c_server c) (c_hops c) with
        | None => None
        | Some (Thrown m) => Some (l, Thrown m)
        | Some (Ok a) => Some (l, follow c a)
        end
      else Some (Listener (Some msgsize) readcount header body false, Ok [])
    else Some (Listener (msgsize l) readcount header (responseBody l) false, Ok []).

(** The platform's error codes that the code names rather than spells
    out. *)
Class Components : Type := { NS_ERROR_NET_TIMEOUT : Z }.

Section Resolver.
Context `{Components}.

(** The error [finished] reports for a non-zero [status]. *)
Definition connect_error (status : Z) (server : jsstring) : dns_error :=
  if status =? 2152398861 then CONNECTION_REFUSED server
  else if status =? 2152398868 then TIMED_OUT server
  else if status =? NS_ERROR_NET_TIMEOUT then TIMED_OUT server
  else SERVER_ERROR server.

(** [listener.finished(data, status)]: the pool and the listener as
    they are left, and what the call did or threw. *)
Definition finished (depth : nat) (pool : list nameserver) (c : conn)
    (l : listener) (data : jsstring) (status : Z)
  : option (list nameserver * listener * res (list action)) :=
  if negb (status =? 0) then
    match c_servers c with
    | None =>
        Some (pool, l,
              Ok [ACallback None (Some (connect_error status (c_server c)))])
    | Some serverObj =>
        let pool := mark_dead serverObj pool in
        Some (pool, l,
              queryDNSRecursive pool None (c_host c) (c_recordtype c) (c_hops c) true)
    end
  else
    match process depth c l data with
    | None => None
    | Some (l, Thrown m) => Some (pool, l, Thrown m)
    | Some (l, Ok acts) =>
        if negb (done l) then
          Some (pool, l,
                Ok (acts ++ [ACallback None (Some (INCOMPLETE_RESPONSE (c_server c)))]))
        else Some (pool, l, Ok acts)
    end.

(** [dataListener.onDataAvailable], [bytes] being the [count] units
    read from the stream: [data] is emptied only when [process]
    returns. *)
Definition onDataAvailable (depth : nat) (c : conn) (bytes : jsstring)
  : option (conn * res (list action)) :=
  let data := c_data c ++ bytes in
  match process depth c (c_listener c) data with
  | None => None
  | Some (l, Thrown m) => Some (set_listener c l data false, Thrown m)
  | Some (l, Ok acts) => Some (set_listener c l [] false, Ok acts)
  end.

(** [dataListener.onStopRequest]. *)
Definition onStopRequest (depth : nat) (pool : list nameserver) (c : conn) (status : Z)
  : option (list nameserver * conn * res (list action)) :=
  match finished depth pool c (c_listener c) (c_data c) status with
  | None => None
  | Some (pool, l, r) => Some (pool, set_listener c l (c_data c) true, r)
  end.

(** *** One lookup as a transition system

    The state of a lookup is the pool, the sockets opened so far and
    the log of what the caller and the network have seen.  The
    environment moves it by delivering the events of the stream pump
    to a socket that has not been stopped. *)
Inductive event : Type :=
| EvCallback (result : option (list rddata)) (error : option dns_error)
| EvConnect (server : jsstring) (hops : Z) (servers : option nat)
| EvThrow (msg : string).

Record state : Type := State {
  st_pool : list nameserver;
  st_conns : list conn;
  st_log : list event
}.

Definition perform_one (st : state) (a : action) : state :=
  match a with
  | ACallback result error =>
      State (st_pool st) (st_conns st) (st_log st ++ [EvCallback result error])
  | AConnect c =>
      State (st_pool st) (st_conns st ++ [c])
            (st_log st ++ [EvConnect (c_server c) (c_hops c) (c_servers c)])
  end.

Definition perform (st : state) (r : res (list action)) : state :=
  match r with
  | Ok acts => fold_left perform_one acts st
  | Thrown m => State (st_pool st) (st_conns st) (st_log st ++ [EvThrow m])
  end.

Inductive io : Type :=
| DataAvailable (bytes : jsstring)
| StopRequest (status : Z).

Definition deliver (depth : nat) (i : nat) (e : io) (st : state) : option state :=
  match st_conns st !! i with
  | None => None
  | Some c =>
      if c_stopped c then None
      else
        match e with
        | DataAvailable bytes =>
            match onDataAvailable depth c bytes with
            | None => None
            | Some (c', r) =>
                Some (perform (State (st_pool st) (<[i := c']> (st_conns st)) (st_log st)) r)
            end
        | StopRequest status =>
            match onStopRequest depth (st_pool st) c status with
            | None => None
            | Some (pool, c', r) =>
                Some (perform (State pool (<[i := c']> (st_conns st)) (st_log st)) r)
            end
        end
  end.

(** [queryDNS(host, recordtype, callback, callbackdata)], [pool] being
    DNS_ROOT_NAME_SERVERS at the time of the call. *)
Definition queryDNS (pool : list nameserver) (host : jsstring) (recordtype : string)
  : state :=
  perform (State pool [] []) (queryDNSRecursive pool None host recordtype 0 true).

(** The events [es] delivered one after the other to socket [i]. *)
Fixpoint deliver_all (depth : nat) (i : nat) (es : list io) (st : state) : option state :=
  match es with
  | [] => Some st
  | e :: es' =>
      match deliver depth i e st with
      | None => None
      | Some st' => deliver_all depth i es' st'
      end
  end.

Inductive step : state -> state -> Prop :=
| step_deliver depth i e st st' :
    deliver depth i e st = Some st' -> step st st'.

Inductive steps : state -> state -> Prop :=
| steps_refl st : steps st st
| steps_step st st' st'' : steps st st' -> step st' st'' -> steps st st''.

(** The states a lookup can be in. *)
Definition reachable (pool : list nameserver) (host : jsstring) (recordtype : string)
    (st : state) : Prop :=
  steps (queryDNS pool host recordtype) st.

End Resolver.

(** ** What the statements below speak of *)

(** The name the loop of DNS_readDomain builds from [domainname] when it
    meets the labels [parts] one after the other. *)
Definition join_labels (domainname : jsstring) (parts : list jsstring) : jsstring :=
  fold_left
    (fun domainname part =>
       match domainname with [] => [] | _ => domainname ++ lit "." end ++ part)
    parts domainname.

(** The labels [parts] stand in [s] one after the other from position
    [i] to position [j]: each is a length byte that is neither 0 nor a
    compression pointer, followed by the units it counts. *)
Inductive labels_at (s : jsstring) : num -> list jsstring -> num -> Prop :=
| labels_at_nil i : labels_at s i [] i
| labels_at_cons i parts j :
    eqb (charCodeAt s i) (Num 0) = false ->
    eqb (shr (charCodeAt s i) 6) (Num 3) = false ->
    labels_at s (add (add i (Num 1)) (charCodeAt s i)) parts j ->
    labels_at s i (substr s (add i (Num 1)) (charCodeAt s i) :: parts) j.

(** The offset a compression pointer at position [j] of [s] names. *)
Definition pointer_target (s : jsstring) (j : num) : num :=
  add (shl (band (charCodeAt s j) (Num 63)) 8) (charCodeAt s (add j (Num 1))).

(** The exceptions DNS_getRDData throws on a response it rejects. *)
Definition InvalidResponse (msg : string) : Prop :=
  In msg
    ["Invalid response: Question section didn't have exactly one record.";
     "Invalid response: Answer section had more than 128 records.";
     "Invalid response: Authority section had more than 128 records.";
     "Invalid response: Additional section had more than 128 records.";
     "Record type is not one that this library can understand."]%string.

(** The [address] of an MX value has not been assigned. *)
Definition address_unset (r : rddata) : Prop :=
  match r with
  | RDMx _ _ address => address = AddrUndefined
  | _ => True
  end.

(** The sockets a handler opened and what it left in the log. *)
Definition conn_of (a : action) : option conn :=
  match a with AConnect c => Some c | ACallback _ _ => None end.

Definition conns_of (r : res (list action)) : list conn :=
  match r with Ok acts => omap conn_of acts | Thrown _ => [] end.

Definition event_of (a : action) : event :=
  match a with
  | ACallback result error => EvCallback result error
  | AConnect c => EvConnect (c_server c) (c_hops c) (c_servers c)
  end.

Definition events_of (r : res (list action)) : list event :=
  match r with Ok acts => map event_of acts | Thrown m => [EvThrow m] end.

(** Two records of the same call of queryDNSRecursive. *)
Definition same_query (c c' : conn) : Prop :=
  c_server c' = c_server c /\ c_servers c' = c_servers c
  /\ c_host c' = c_host c /\ c_recordtype c' = c_recordtype c
  /\ c_hops c' = c_hops c.

(** A socket as queryDNSRecursive opens it. *)
Definition fresh (c : conn) : Prop :=
  c_listener c = new_listener /\ c_data c = [] /\ c_stopped c = false.

(** Entry [k] of the pool is not an alive entry. *)
Definition dead (k : nat) (pool : list nameserver) : Prop :=
  forall s, pool !! k = Some s -> ns_alive s = false.

(** What holds of every socket of a lookup for [host] and [recordtype]. *)
Definition conn_ok (host : jsstring) (recordtype : string) (c : conn) : Prop :=
  c_host c = host /\ c_recordtype c = recordtype
  /\ 0 <= c_hops c <= 9
  /\ (c_servers c <> None -> c_hops c = 0)
  /\ exists query, encode_query host recordtype = Ok query.

(** The sockets a step opens: a referral, one hop further and without
    the pool, or a failover, at the same hop count and for the first
    alive entry of the pool. *)
Definition opened_by (c : conn) (e : io) (pool' : list nameserver) (c' : conn) : Prop :=
  fresh c' /\ c_host c' = c_host c /\ c_recordtype c' = c_recordtype c
  /\ c_hops c' <> 10
  /\ ((c_servers c' = None /\ c_hops c' = c_hops c + 1)
      \/ (c_hops c' = c_hops c /\ c_servers c <> None
          /\ (exists j, first_alive pool' = Some (j, c_server c')
                        /\ c_servers c' = Some j)
          /\ exists status, e = StopRequest status /\ status <> 0)).

(** A socket [cn] opened on behalf of the query of socket [c]: new,
    and for the same host and record type, with the query message
    they encode to. *)
Definition same_question (c cn : conn) : Prop :=
  fresh cn /\ c_host cn = c_host c /\ c_recordtype cn = c_recordtype c
  /\ encode_query (c_host c) (c_recordtype c) = Ok (c_query cn).

(** The query of [c] was made on a referral, not from the pool. *)
Definition is_referral (c : conn) : bool :=
  match c_servers c with None => true | Some _ => false end.







(** The callback is told of a transport error. *)
Definition is_transport_error (e : event) : bool :=
  match e with
  | EvCallback _ (Some (CONNECTION_REFUSED _))
  | EvCallback _ (Some (TIMED_OUT _))
  | EvCallback _ (Some (SERVER_ERROR _)) => true
  | _ => false
  end.

(** [received] holds the whole framed message: the test
    [readcount >= msgsize + 2] of [process]. *)
Definition framed_response_complete (received : jsstring) : bool :=
  geb (Num (Z.of_nat (length received)))
      (add (DNS_strToWord (substr received (Num 0) (Num 2))) (Num 2)).

(** With [received] the listener hands the response to DNS_getRDData:
    the 14 units of [responseHeader] are there and the test
    [readcount >= msgsize + 2] holds. *)
Definition response_received (received : jsstring) : bool :=
  (14 <=? length received)%nat && framed_response_complete received.

(** The response comes in the pieces [chunks] and then [last], and is
    whole with [last], not before. *)
Definition arrives_with (chunks : list jsstring) (last : jsstring) : Prop :=
  response_received (concat chunks) = false
  /\ response_received (concat chunks ++ last) = true.

(** The listener [l] has received [received], which is not yet a whole
    framed message: the header takes the first 14 units, the body the
    rest. *)
Definition receiving (received : jsstring) (l : listener) : Prop :=
  done l = false
  /\ readcount l = Z.of_nat (length received)
  /\ responseHeader l ++ responseBody l = received
  /\ (length (responseHeader l) <= 14)%nat
  /\ ((length (responseHeader l) < 14)%nat -> responseBody l = []).

(** A script of stream events, each for the socket it names. *)
Fixpoint run `{Components} (depth : nat) (script : list (nat * io)) (st : state)
  : option state :=
  match script with
  | [] => Some st
  | (i, e) :: script' =>
      match deliver depth i e st with
      | None => None
      | Some st' => run depth script' st'
      end
  end.

(** ** Messages, pools and scripts of the examples *)

(** A name of 20 one-letter labels. *)
Definition twenty_labels : jsstring :=
  lit "a.b.c.d.e.f.g.h.i.j.k.l.m.n.o.p.q.r.s.t".

(** The answer to an MX query for example.org: one MX record
    [{preference 10, host mx.example.org}] in the answer section, and
    the A record 1.2.3.4 of mx.example.org in the additional section. *)
Definition mx_response : jsstring :=
  [0; 0; 129; 128; 0; 1; 0; 1; 0; 0; 0; 1]
  ++ [7] ++ lit "example" ++ [3] ++ lit "org" ++ [0] ++ [0; 15; 0; 1]
  ++ [192; 12; 0; 15; 0; 1; 0; 0; 14; 16; 0; 7; 0; 10; 2; 109; 120; 192; 12]
  ++ [192; 43; 0; 1; 0; 1; 0; 0; 14; 16; 0; 4; 1; 2; 3; 4].

(** The same answer without the additional section. *)
Definition mx_response_no_glue : jsstring :=
  [0; 0; 129; 128; 0; 1; 0; 1; 0; 0; 0; 0]
  ++ [7] ++ lit "example" ++ [3] ++ lit "org" ++ [0] ++ [0; 15; 0; 1]
  ++ [192; 12; 0; 15; 0; 1; 0; 0; 14; 16; 0; 7; 0; 10; 2; 109; 120; 192; 12].

(** The record DNS_readRec reads in the answer section of
    [mx_response]. *)
Definition mx_answer_record : rr :=
  RR (lit "example.org") (TName "MX") (Num 1) (Num 0) (Num 7) true
     (RDMx (Num 10) (lit "mx.example.org") AddrUndefined).

(** A response whose header announces two questions. *)
Definition two_questions_response : jsstring :=
  [0; 0; 129; 128; 0; 2; 0; 0; 0; 0; 0; 0].

(** An answer to an A query for example.org that holds an AAAA record
    (type 28). *)
Definition aaaa_response : jsstring :=
  [0; 0; 129; 128; 0; 1; 0; 1; 0; 0; 0; 0]
  ++ [7] ++ lit "example" ++ [3] ++ lit "org" ++ [0] ++ [0; 1; 0; 1]
  ++ [192; 12; 0; 28; 0; 1; 0; 0; 14; 16; 0; 16]
  ++ [32; 1; 13; 184; 0; 0; 0; 0; 0; 0; 0; 0; 0; 0; 0; 1].

(** A message as the server sends it over TCP. *)
Definition frame (response : jsstring) : jsstring :=
  DNS_wordToStr (Z.of_nat (length response)) ++ response.

(** The answer to an A query for example.org that only names the
    authority [label].example.org. *)
Definition referral_to (label : jsstring) : jsstring :=
  [0; 0; 129; 128; 0; 1; 0; 0; 0; 1; 0; 0]
  ++ [7] ++ lit "example" ++ [3] ++ lit "org" ++ [0] ++ [0; 1; 0; 1]
  ++ [192; 12; 0; 2; 0; 1; 0; 0; 14; 16; 0; 6; 3] ++ label ++ [192; 12].



(** The answer to an A query for example.org: the address 1.2.3.4. *)
Definition a_response : jsstring :=
  [0; 0; 129; 128; 0; 1; 0; 1; 0; 0; 0; 0]
  ++ [7] ++ lit "example" ++ [3] ++ lit "org" ++ [0] ++ [0; 1; 0; 1]
  ++ [192; 12; 0; 1; 0; 1; 0; 0; 14; 16; 0; 4; 1; 2; 3; 4].

(** The value the Mozilla platform gives NS_ERROR_NET_TIMEOUT. *)
Definition mozilla : Components := Build_Components 2152398862.

(** A pool of one server, and of two. *)
Definition pool_of_one : list nameserver := [Nameserver (lit "8.8.8.8") true].

Definition pool_of_two : list nameserver :=
  [Nameserver (lit "8.8.8.8") true; Nameserver (lit "8.8.4.4") true].

(** A pool whose first server is one that [referral_to] can name. *)
Definition pool_with_ns1 : list nameserver :=
  [Nameserver (lit "ns1.example.org") true; Nameserver (lit "8.8.4.4") true].

(** ** Helpers on strings and addresses *)

(** [DNS_StartsWith(a, b)]: false when [b] is longer than [a], else
    [a.substring(0, b.length) === b]. *)
Definition DNS_StartsWith (a b : jsstring) : bool :=
  if (length a <? length b)%nat then false
  else bool_decide (take (length b) a = b).

(** [q[k]] inside a string concatenation: the text of [undefined] when
    the array has no element [k]. *)
Definition part (q : list jsstring) (k : nat) : jsstring :=
  nth k q (lit "undefined").

(** [DNS_ReverseIPHostname(ip)]. *)
Definition DNS_ReverseIPHostname (ip : jsstring) : jsstring :=
  let q := split 46 ip in
  part q 3 ++ lit "." ++ part q 2 ++ lit "." ++ part q 1 ++ lit "."
    ++ part q 0 ++ lit ".in-addr.arpa".

(** [arrayUniqBy(ary, key)].  [seen] is the object the filter closes
    over, kept as the list of the keys that hold 1.  The key
    [__proto__] is the one property of a plain object that an
    assignment of 1 leaves as it was (the inherited setter ignores a
    value that is not an object), and reading it gives the prototype,
    never 1.  The filter keeps an element when the value of
    [seen[k] = 1] is returned, which is 1. *)
Definition proto_key : jsstring := lit "__proto__".

Fixpoint uniq_filter {A : Type} (key : A -> jsstring) (seen : list jsstring)
    (ary : list A) : list A :=
  match ary with
  | [] => []
  | elem :: rest =>
      let k := key elem in
      if bool_decide (k ∈ seen) then uniq_filter key seen rest
      else
        elem :: uniq_filter key
                  (if bool_decide (k = proto_key) then seen else k :: seen) rest
  end.

Definition arrayUniqBy {A : Type} (ary : list A) (key : A -> jsstring) : list A :=
  uniq_filter key [] ary.

(** [s.split(re)] for a regular expression that matches one unit, the
    units for which [sep] holds, as [/ |,/] does. *)
Fixpoint split_where (sep : Z -> bool) (s : jsstring) : list jsstring :=
  match s with
  | [] => [[]]
  | c :: s' =>
      if sep c then [] :: split_where sep s'
      else match split_where sep s' with
           | [] => [[c]]
           | p :: ps => (c :: p) :: ps
           end
  end.

(** [v.slice(1, -1)]. *)
Definition slice_1_m1 (v : jsstring) : jsstring :=
  take (length v - 2) (drop 1 v).

(** ** The name servers the module keeps *)

(** The objects [{ server, alive }] live in a store and the three
    arrays hold references into it: an entry of DNS_ROOT_NAME_SERVERS
    and the entry of PREF_DNS_ROOT_NAME_SERVERS or
    OS_DNS_ROOT_NAME_SERVERS it was taken from are one object.  An
    array is never changed once one of the variables names it; the
    objects are, by [serverObj.alive = false]. *)
Record globals : Type := Globals {
  store : list nameserver;
  DNS_ROOT_NAME_SERVERS : list nat;
  PREF_DNS_ROOT_NAME_SERVERS : list nat;
  OS_DNS_ROOT_NAME_SERVERS : list nat;
  getNameserversFromOS : option bool;
  dnsDebug : bool;
  timeout_connect : Z
}.

(** The variables as the module is loaded: three empty arrays,
    [getNameserversFromOS = null], [dnsDebug = false],
    [timeout_connect = 0xFFFF]. *)
Definition initial_globals : globals := Globals [] [] [] [] None false 65535.

(** New objects [{ server : name, alive : true }], one for each of
    [names], and the array of the references to them. *)
Definition new_servers (names : list jsstring) (st : list nameserver)
  : list nameserver * list nat :=
  (st ++ map (fun name => Nameserver name true) names,
   seq (length st) (length names)).

(** [e.server] for the object that [ref] refers to. *)
Definition server_of (st : list nameserver) (ref : nat) : jsstring :=
  match st !! ref with
  | Some s => ns_server s
  | None => lit "undefined"
  end.

(** The pool a lookup works on when it is given the array [servers]. *)
Definition pool_of (st : list nameserver) (servers : list nat) : list nameserver :=
  omap (fun ref => st !! ref) servers.

(** The pool [queryDNS] hands to queryDNSRecursive. *)
Definition root_pool (g : globals) : list nameserver :=
  pool_of (store g) (DNS_ROOT_NAME_SERVERS g).

(** [serverObj.alive = false] for the object [ref]. *)
Definition set_not_alive (ref : nat) (g : globals) : globals :=
  Globals (mark_dead ref (store g)) (DNS_ROOT_NAME_SERVERS g)
          (PREF_DNS_ROOT_NAME_SERVERS g) (OS_DNS_ROOT_NAME_SERVERS g)
          (getNameserversFromOS g) (dnsDebug g) (timeout_connect g).

(** What DNS_get_OS_DNSServers finds on the platform.

    On Windows (the registry class is there): [None] when one of the
    calls on the registry that come before the loop throws; else the
    string value Route, and for each interface name the values
    NameServer and DhcpNameServer that [hasValue] reports, or [None]
    when a call on the key of the interface throws.

    Elsewhere: the lines of /etc/resolv.conf for which the [while]
    loop ran its body, in order (none when the file cannot be
    opened). *)
Record registry : Type := Registry {
  reg_route : jsstring;
  reg_interface : jsstring -> option (option jsstring * option jsstring)
}.

Inductive platform : Type :=
| Windows (r : option registry)
| Unix (lines : list jsstring).

(** The interfaces in routing order:
    [[v.slice(1,-1) for (v of str.split("\0")) if (v)]]. *)
Fixpoint interfaces_of (vs : list jsstring) : list jsstring :=
  match vs with
  | [] => []
  | v :: rest =>
      if bool_decide (v = []) then interfaces_of rest
      else slice_1_m1 v :: interfaces_of rest
  end.

(** The loop that collects [ns]; [None] when [openChild] throws. *)
Fixpoint registry_ns (r : registry) (interfaces : list jsstring) (ns : jsstring)
  : option jsstring :=
  match interfaces with
  | [] => Some ns
  | i :: rest =>
      match reg_interface r i with
      | None => None
      | Some (nameServer, dhcpNameServer) =>
          let ns := match nameServer with
                    | Some v => ns ++ lit " " ++ v
                    | None => ns
                    end in
          let ns := match dhcpNameServer with
                    | Some v => ns ++ lit " " ++ v
                    | None => ns
                    end in
          registry_ns r rest ns
      end
  end.

Section NameServers.
(** The code units that [String.prototype.trim] removes and that
    [parseInt] skips: WhiteSpace and LineTerminator, as the engine's
    Unicode tables have them. *)
Variable white_space : Z -> bool.

Fixpoint trim_start (s : jsstring) : jsstring :=
  match s with
  | [] => []
  | u :: s' => if white_space u then trim_start s' else s
  end.

(** [s.trim()]. *)
Definition trim (s : jsstring) : jsstring :=
  rev (trim_start (rev (trim_start s))).

Definition is_digit (u : Z) : bool := (48 <=? u) && (u <=? 57).

(** [isNaN(parseInt(s, 10))]: parseInt skips the white space in front
    and one sign, and is NaN when what follows does not start with a
    decimal digit. *)
Definition isNaN_parseInt (s : jsstring) : bool :=
  let s := trim_start s in
  let s := match s with
           | u :: s' => if (u =? 43) || (u =? 45) then s' else s
           | [] => []
           end in
  match s with
  | u :: _ => negb (is_digit u)
  | [] => true
  end.

(** [DNS_IsDottedQuad(ip)]. *)
Definition DNS_IsDottedQuad (ip : jsstring) : bool :=
  let q := split 46 ip in
  if negb (length q =? 4)%nat then false
  else if isNaN_parseInt (part q 0) || isNaN_parseInt (part q 1)
          || isNaN_parseInt (part q 2) || isNaN_parseInt (part q 3)
  then false
  else true.

(** The [forEach] of dnsChangeNameserver: the names of the objects it
    pushes. *)
Fixpoint pref_servers (elements : list jsstring) : list jsstring :=
  match elements with
  | [] => []
  | element :: rest =>
      if negb (bool_decide (trim element = []))
      then trim element :: pref_servers rest
      else pref_servers rest
  end.

(** The [forEach] of the registry branch: the test is on the element,
    the name is the element trimmed. *)
Fixpoint registry_servers (elements : list jsstring) : list jsstring :=
  match elements with
  | [] => []
  | element :: rest =>
      if negb (bool_decide (element = []))
      then trim element :: registry_servers rest
      else registry_servers rest
  end.

(** The loop over the lines of /etc/resolv.conf. *)
Fixpoint resolv_conf_servers (lines : list jsstring) : list jsstring :=
  match lines with
  | [] => []
  | line :: rest =>
      if DNS_StartsWith line (lit "nameserver ")
      then trim (drop (length (lit "nameserver ")) line) :: resolv_conf_servers rest
      else resolv_conf_servers rest
  end.

(** The names of the objects DNS_get_OS_DNSServers pushes. *)
Definition os_servers (p : platform) : list jsstring :=
  match p with
  | Windows None => []
  | Windows (Some r) =>
      match registry_ns r (interfaces_of (split 0 (reg_route r))) [] with
      | None => []
      | Some ns =>
          if negb (bool_decide (ns = []))
          then registry_servers
                 (split_where (fun u => (u =? 32) || (u =? 44)) ns)
          else []
      end
  | Unix lines => resolv_conf_servers lines
  end.

(** [DNS_get_OS_DNSServers()]. *)
Definition DNS_get_OS_DNSServers (p : platform) (g : globals) : globals :=
  let '(st, os) := new_servers (os_servers p) (store g) in
  Globals st (DNS_ROOT_NAME_SERVERS g) (PREF_DNS_ROOT_NAME_SERVERS g) os
          (getNameserversFromOS g) (dnsDebug g) (timeout_connect g).

(** The block that dnsChangeGetNameserversFromOS and dnsChangeNameserver
    end with: [if (getNameserversFromOS) { ... } else { ... }]. *)
Definition update_servers (p : platform) (g : globals) : globals :=
  match getNameserversFromOS g with
  | Some true =>
      let g := DNS_get_OS_DNSServers p g in
      Globals (store g)
              (arrayUniqBy
                 (OS_DNS_ROOT_NAME_SERVERS g ++ PREF_DNS_ROOT_NAME_SERVERS g)
                 (server_of (store g)))
              (PREF_DNS_ROOT_NAME_SERVERS g) (OS_DNS_ROOT_NAME_SERVERS g)
              (getNameserversFromOS g) (dnsDebug g) (timeout_connect g)
  | _ =>
      Globals (store g) (PREF_DNS_ROOT_NAME_SERVERS g)
              (PREF_DNS_ROOT_NAME_SERVERS g) (OS_DNS_ROOT_NAME_SERVERS g)
              (getNameserversFromOS g) (dnsDebug g) (timeout_connect g)
  end.

(** [dnsChangeGetNameserversFromOS(bool)]. *)
Definition dnsChangeGetNameserversFromOS (bool : bool) (p : platform) (g : globals)
  : globals :=
  update_servers p
    (Globals (store g) (DNS_ROOT_NAME_SERVERS g) (PREF_DNS_ROOT_NAME_SERVERS g)
             (OS_DNS_ROOT_NAME_SERVERS g) (Some bool) (dnsDebug g)
             (timeout_connect g)).

(** [dnsChangeNameserver(nameserver)]. *)
Definition dnsChangeNameserver (nameserver : jsstring) (p : platform) (g : globals)
  : globals :=
  let nameservers := split 59 nameserver in
  let '(st, pref) := new_servers (pref_servers nameservers) (store g) in
  update_servers p
    (Globals st (DNS_ROOT_NAME_SERVERS g) pref (OS_DNS_ROOT_NAME_SERVERS g)
             (getNameserversFromOS g) (dnsDebug g) (timeout_connect g)).

End NameServers.

(** ** What the further statements speak of *)

(** The name as the query carries it: the labels and the byte 0. *)
Definition encode_name (name : jsstring) : jsstring :=
  append_labels [] (split 46 name) ++ DNS_octetToStr 0.

(** The RDATA of a TXT record that holds [strings]. *)
Definition txt_rdata (strings : list jsstring) : jsstring :=
  concat (map (fun s => DNS_octetToStr (Z.of_nat (length s)) ++ s) strings).

(** A response with one question, for [qname], and one answer: a TXT
    record that holds [strings], its owner name written as a pointer to
    the question.  [id] and [flags] are the first four bytes of the
    header, [ttl] the four bytes of the TTL. *)
Definition txt_response (id flags : jsstring) (qname : jsstring) (ttl : jsstring)
    (strings : list jsstring) : jsstring :=
  id ++ flags ++ DNS_wordToStr 1 ++ DNS_wordToStr 1 ++ DNS_wordToStr 0
    ++ DNS_wordToStr 0
    ++ encode_name qname ++ DNS_wordToStr 16 ++ DNS_wordToStr 1
    ++ [192; 12] ++ DNS_wordToStr 16 ++ DNS_wordToStr 1 ++ ttl
    ++ DNS_wordToStr (Z.of_nat (length (txt_rdata strings)))
    ++ txt_rdata strings.

(** A response with one question, for [qname], and two answers: a
    CNAME record with the RDATA [target], and a TXT record that holds
    [strings]; the owner names are pointers to the question. *)
Definition cname_txt_response (id flags : jsstring) (qname : jsstring)
    (ttl : jsstring) (target : jsstring) (strings : list jsstring) : jsstring :=
  id ++ flags ++ DNS_wordToStr 1 ++ DNS_wordToStr 2 ++ DNS_wordToStr 0
    ++ DNS_wordToStr 0
    ++ encode_name qname ++ DNS_wordToStr 16 ++ DNS_wordToStr 1
    ++ [192; 12] ++ DNS_wordToStr 5 ++ DNS_wordToStr 1 ++ ttl
    ++ DNS_wordToStr (Z.of_nat (length target)) ++ target
    ++ [192; 12] ++ DNS_wordToStr 16 ++ DNS_wordToStr 1 ++ ttl
    ++ DNS_wordToStr (Z.of_nat (length (txt_rdata strings)))
    ++ txt_rdata strings.

(** A response with one question, for [qname], and no record at all;
    [tail] stands where QTYPE and QCLASS are. *)
Definition empty_response (id flags : jsstring) (qname : jsstring) (tail : jsstring)
  : jsstring :=
  id ++ flags ++ DNS_wordToStr 1 ++ DNS_wordToStr 0 ++ DNS_wordToStr 0
    ++ DNS_wordToStr 0 ++ encode_name qname ++ tail.


(** The alive entries of a pool, each with its index, in order. *)
Fixpoint alive_from (i : nat) (pool : list nameserver) : list (nat * jsstring) :=
  match pool with
  | [] => []
  | s :: rest =>
      if ns_alive s then (i, ns_server s) :: alive_from (S i) rest
      else alive_from (S i) rest
  end.

Definition alive_entries (pool : list nameserver) : list (nat * jsstring) :=
  alive_from 0 pool.

(** A script in which each socket, in the order of opening, is stopped
    with the status given for it. *)
Definition all_stopped (statuses : list Z) : list (nat * io) :=
  imap (fun k status => (k, StopRequest status)) statuses.

(** The exceptions that leave a lookup. *)
Definition lookup_exceptions : list string :=
  ["Invalid record type.";
   "Invalid response: Question section didn't have exactly one record.";
   "Invalid response: Answer section had more than 128 records.";
   "Invalid response: Authority section had more than 128 records.";
   "Invalid response: Additional section had more than 128 records.";
   "Record type is not one that this library can understand.";
   "TypeError: results[j].address is undefined"]%string.

(** The strings [parts] with [sep] between them. *)
Definition join_with (sep : Z) (parts : list jsstring) : jsstring :=
  match parts with
  | [] => []
  | p :: ps => p ++ concat (map (cons sep) ps)
  end.

(** What holds of the values in [results]: each is the data of a
    record that was recognized, and no [address] was assigned. *)
Definition pushed (r : rddata) : Prop := r <> RDUndefined /\ address_unset r.

(** White space as ECMAScript 5.1 lists it (WhiteSpace with the space
    separators of Unicode, and LineTerminator). *)
Definition es5_white_space (u : Z) : bool :=
  bool_decide
    (u ∈ [9; 10; 11; 12; 13; 32; 160; 5760; 6158; 8192; 8193; 8194; 8195;
          8196; 8197; 8198; 8199; 8200; 8201; 8202; 8232; 8233; 8239; 8287;
          12288; 65279]).

(** The variables after [dnsChangeNameserver("8.8.8.8;8.8.4.4")] on a
    module just loaded. *)
Definition two_servers_set : globals :=
  dnsChangeNameserver es5_white_space (lit "8.8.8.8;8.8.4.4") (Unix []) initial_globals.

(** * Properties of name decoding *)

Lemma readDomain_loop_str self ctr dn c name c' :
  readDomain_loop self ctr dn c = Some (name, c') -> str c' = str c.
Proof.
  revert dn c. induction ctr as [|ctr IH]; intros dn c Hr; simpl in Hr.
  - by inversion Hr.
  - destruct (eqb (charCodeAt (str c) (idx c)) (Num 0)).
    { by inversion Hr. }
    destruct (eqb (shr (charCodeAt (str c) (idx c)) 6) (Num 3)).
    + destruct (self _) as [[d ?]|]; [|done]. by inversion Hr.
    + apply IH in Hr. exact Hr.
Qed.

Lemma DNS_readDomain_S depth c :
  DNS_readDomain (S depth) c = readDomain_loop (DNS_readDomain depth) 20 [] c.
Proof. reflexivity. Qed.

Lemma DNS_readDomain_str depth c name c' :
  DNS_readDomain depth c = Some (name, c') -> str c' = str c.
Proof.
  destruct depth as [|depth]; [discriminate|].
  rewrite DNS_readDomain_S. apply readDomain_loop_str.
Qed.

(** An invocation never fails on its own: running out of [ctr] returns
    the name read so far, and only a nested invocation that does not
    return makes the outer one not return. *)
Lemma readDomain_loop_fails_nested self ctr dn c :
  readDomain_loop self ctr dn c = None ->
  exists ptr, self (Ctx (str c) ptr) = None.
Proof.
  revert dn c. induction ctr as [|ctr IH]; intros dn c Hr; simpl in Hr; [done|].
  destruct (eqb (charCodeAt (str c) (idx c)) (Num 0)); [done|].
  destruct (eqb (shr (charCodeAt (str c) (idx c)) 6) (Num 3)).
  - destruct (self _) as [[d ?]|] eqn:E; [done|]. eauto.
  - apply IH in Hr. exact Hr.
Qed.

Lemma DNS_readDomain_fails_nested depth c :
  DNS_readDomain (S depth) c = None ->
  exists ptr, DNS_readDomain depth (Ctx (str c) ptr) = None.
Proof. rewrite DNS_readDomain_S. apply readDomain_loop_fails_nested. Qed.

Lemma add_1_1 i : add (add i (Num 1)) (Num 1) = add i (Num 2).
Proof. destruct i; [|reflexivity]. unfold add. f_equal. lia. Qed.

(** One run of the loop with [ctr] turns left: the labels it goes
    through and the three ways it ends. *)
Lemma readDomain_loop_walk self ctr :
  forall dn c,
    exists parts j,
      labels_at (str c) (idx c) parts j
      /\ ((length parts = ctr
           /\ readDomain_loop self ctr dn c
              = Some (join_labels dn parts, Ctx (str c) j))
          \/ ((length parts < ctr)%nat
              /\ eqb (charCodeAt (str c) j) (Num 0) = true
              /\ readDomain_loop self ctr dn c
                 = Some (join_labels dn parts, Ctx (str c) (add j (Num 1))))
          \/ ((length parts < ctr)%nat
              /\ eqb (charCodeAt (str c) j) (Num 0) = false
              /\ eqb (shr (charCodeAt (str c) j) 6) (Num 3) = true
              /\ readDomain_loop self ctr dn c
                 = match self (Ctx (str c) (pointer_target (str c) j)) with
                   | Some (d, _) =>
                       Some (join_labels dn (parts ++ [d]),
                             Ctx (str c) (add j (Num 2)))
                   | None => None
                   end)).
Proof.
  induction ctr as [|ctr IH]; intros dn [s i]; cbn [str idx].
  - exists [], i. split; [constructor|]. left. done.
  - cbn [readDomain_loop]. unfold set_idx. cbn [str idx].
    destruct (eqb (charCodeAt s i) (Num 0)) eqn:Hzero.
    { exists [], i. split; [constructor|]. right. left.
      split; [cbn; lia|]. done. }
    destruct (eqb (shr (charCodeAt s i) 6) (Num 3)) eqn:Hptr.
    { exists [], i. split; [constructor|]. right. right.
      split; [cbn; lia|]. split; [exact Hzero|]. split; [exact Hptr|].
      unfold pointer_target. rewrite add_1_1.
      destruct (self _) as [[d cend]|]; reflexivity. }
    destruct (IH (match dn with [] => [] | _ => dn ++ lit "." end
                  ++ substr s (add i (Num 1)) (charCodeAt s i))
                 (Ctx s (add (add i (Num 1)) (charCodeAt s i))))
      as (parts & j & Hlabels & Hend).
    cbn [str idx] in Hlabels, Hend.
    exists (substr s (add i (Num 1)) (charCodeAt s i) :: parts), j.
    split; [by constructor|].
    unfold join_labels in Hend |- *. cbn [length app fold_left].
    destruct Hend as [(Hlen & ->)|[(Hlen & Hz & ->)|(Hlen & Hz & Hp & ->)]].
    + left. split; [lia|reflexivity].
    + right. left. split; [lia|]. done.
    + right. right. split; [lia|]. split; [exact Hz|]. split; [exact Hp|].
      destruct (self _) as [[d cend]|]; reflexivity.
Qed.

(** A pointer that points at itself: no nesting depth is enough. *)
Lemma pointer_loop_never_returns depth :
  DNS_readDomain depth (Ctx loop_message (Num 0)) = None.
Proof.
  induction depth as [|depth IH]; [reflexivity|].
  rewrite DNS_readDomain_S. revert IH.
  generalize (DNS_readDomain depth). intros self Hself.
  assert (Hloop : readDomain_loop self 20 [] (Ctx loop_message (Num 0))
                  = match self (Ctx loop_message (Num 0)) with
                    | None => None
                    | Some (d, _) => Some (d, Ctx loop_message (Num 2))
                    end) by (vm_compute; reflexivity).
  rewrite Hloop, Hself. reflexivity.
Qed.

(** C1 (amended): the budget of 20 is that of one invocation of
    DNS_readDomain.  Whatever the message and the offset, an
    invocation goes through the labels that stand there, at most 20 of
    them, until one of three things happens.  After 20 labels it
    returns, without failing, the name made of the labels read so
    far, the cursor behind the last of them.  At a byte 0 it returns
    the name, the cursor behind the 0.  At a compression pointer, the
    20th step at the latest, it starts one nested invocation at the
    offset the pointer names, which has these 20 steps of its own, and
    returns the labels followed by what the nested invocation returns,
    the cursor behind the pointer; it does not return only if the
    nested invocation does not. *)
Theorem readDomain_budget_per_invocation depth c :
  exists parts j,
    labels_at (str c) (idx c) parts j
    /\ ((length parts = 20%nat
         /\ DNS_readDomain (S depth) c
            = Some (join_labels [] parts, Ctx (str c) j))
        \/ ((length parts < 20)%nat
            /\ eqb (charCodeAt (str c) j) (Num 0) = true
            /\ DNS_readDomain (S depth) c
               = Some (join_labels [] parts, Ctx (str c) (add j (Num 1))))
        \/ ((length parts < 20)%nat
            /\ eqb (charCodeAt (str c) j) (Num 0) = false
            /\ eqb (shr (charCodeAt (str c) j) 6) (Num 3) = true
            /\ DNS_readDomain (S depth) c
               = match DNS_readDomain depth
                         (Ctx (str c) (pointer_target (str c) j)) with
                 | Some (d, _) =>
                     Some (join_labels [] (parts ++ [d]),
                           Ctx (str c) (add j (Num 2)))
                 | None => None
                 end)).
Proof.
  rewrite DNS_readDomain_S.
  destruct (readDomain_loop_walk (DNS_readDomain depth) 20 [] c)
    as (parts & j & Hlabels & Hend).
  exists parts, j. split; [exact Hlabels|]. exact Hend.
Qed.

(** C1 as stated fails: the walk over [chain_message] goes through 22
    labels and pointers and returns all 21 labels, and the walk over
    [loop_message] never returns. *)
Lemma readDomain_not_bounded_by_20_in_total :
  readDomain_steps 2 (Ctx chain_message (Num 0)) = Some [20; 2]%nat
  /\ (20 < list_sum [20; 2])%nat
  /\ DNS_readDomain 2 (Ctx chain_message (Num 0))
     = Some (lit "a.a.a.a.a.a.a.a.a.a.a.a.a.a.a.a.a.a.a.b.c",
             Ctx chain_message (Num 40))
  /\ ~ (exists depth r, DNS_readDomain depth (Ctx loop_message (Num 0)) = Some r).
Proof.
  split; [vm_compute; reflexivity|].
  split; [simpl; lia|].
  split; [vm_compute; reflexivity|].
  intros (depth & r & Hr). by rewrite pointer_loop_never_returns in Hr.
Qed.

(** * Properties of query encoding *)

Lemma length_wordToStr w : length (DNS_wordToStr w) = 2%nat.
Proof. reflexivity. Qed.

Lemma append_labels_app2 q1 q2 parts :
  append_labels (q1 ++ q2) parts = q1 ++ append_labels q2 parts.
Proof.
  unfold append_labels. revert q2.
  induction parts as [|p parts IH]; intros q2; simpl; [done|].
  rewrite <- app_assoc. apply IH.
Qed.

Lemma append_labels_app query parts :
  append_labels query parts = query ++ append_labels [] parts.
Proof.
  rewrite <- (app_nil_r query) at 1. apply append_labels_app2.
Qed.

(** The query without its length prefix. *)
Lemma encode_query_shape host recordtype t :
  qtype_of recordtype = Some t ->
  exists query,
    encode_query host recordtype = Ok query
    /\ skipn 2 query
       = query_header ++ append_labels [] (split 46 host) ++ DNS_octetToStr 0
           ++ DNS_wordToStr t ++ DNS_wordToStr 1.
Proof.
  intros Ht. unfold encode_query. rewrite Ht. cbv zeta.
  eexists. split; [reflexivity|].
  rewrite drop_app_length' by reflexivity.
  rewrite append_labels_app. by rewrite <- !app_assoc.
Qed.

(** C2 (amended): for a supported record type the query starts, after
    its 2-byte length prefix, with the 12 bytes 0x30 0x30 (the ID, the
    two characters of "00"), 0x01, 0x00, then QDCOUNT=1, ANCOUNT=0,
    NSCOUNT=0, ARCOUNT=0. *)
Theorem query_header_bytes host recordtype t :
  qtype_of recordtype = Some t ->
  exists query,
    encode_query host recordtype = Ok query
    /\ firstn 12 (skipn 2 query) = [48; 48; 1; 0; 0; 1; 0; 0; 0; 0; 0; 0].
Proof.
  intros Ht. destruct (encode_query_shape host _ _ Ht) as (query & Hq & Hs).
  exists query. split; [exact Hq|]. rewrite Hs. reflexivity.
Qed.

Lemma query_header_bytes_witness :
  qtype_of "MX" = Some 15
  /\ exists query,
       encode_query (lit "example.org") "MX" = Ok query
       /\ firstn 12 (skipn 2 query) = [48; 48; 1; 0; 0; 1; 0; 0; 0; 0; 0; 0].
Proof.
  split; [reflexivity|].
  apply (query_header_bytes (lit "example.org") "MX" 15). reflexivity.
Defined.

(** C2 as stated fails: the two ID bytes are 0x30 0x30, not 0x00 0x00. *)
Lemma query_id_is_not_zero :
  exists query,
    encode_query (lit "example.org") "A" = Ok query
    /\ firstn 2 (skipn 2 query) = [48; 48]
    /\ firstn 2 (skipn 2 query) <> [0; 0].
Proof.
  eexists. split; [vm_compute; reflexivity|]. split; [reflexivity|]. discriminate.
Qed.

(** * Reading strings *)

Lemma add_Num a b : add (Num a) (Num b) = Num (a + b).
Proof. reflexivity. Qed.

Lemma eqb_Num a b : eqb (Num a) (Num b) = (a =? b).
Proof. reflexivity. Qed.

Lemma shr_label l : 0 <= l < 192 -> eqb (shr (Num l) 6) (Num 3) = false.
Proof.
  intros Hl. unfold shr, ToInt32, wrap32. rewrite eqb_Num.
  rewrite Z.mod_small by lia. rewrite Z.shiftr_div_pow2 by lia.
  apply Z.eqb_neq. intros Heq.
  assert ((l + 2 ^ 31 - 2 ^ 31) / 2 ^ 6 < 3); [|lia].
  apply Z.div_lt_upper_bound; lia.
Qed.

Lemma charCodeAt_app pre u post :
  charCodeAt (pre ++ u :: post) (Num (Z.of_nat (length pre))) = Num u.
Proof.
  unfold charCodeAt. cbn [ToIntegerOrInfinity]. rewrite length_app. cbn [length].
  destruct (Z.ltb_spec (Z.of_nat (length pre)) 0); [lia|].
  destruct (Z.leb_spec (Z.of_nat (length pre + S (length post))) (Z.of_nat (length pre))); [lia|].
  cbn [orb]. rewrite Nat2Z.id. rewrite nth_error_app2 by lia.
  by rewrite Nat.sub_diag.
Qed.

Lemma substr_app pre x post :
  substr (pre ++ x ++ post) (Num (Z.of_nat (length pre))) (Num (Z.of_nat (length x))) = x.
Proof.
  unfold substr. cbn [ToIntegerOrInfinity]. rewrite !length_app.
  destruct (Z.ltb_spec (Z.of_nat (length pre)) 0); [lia|].
  replace (Z.to_nat (Z.of_nat (length pre)
             `min` Z.of_nat (length pre + (length x + length post))))
    with (length pre) by lia.
  rewrite drop_app_length.
  replace (Z.to_nat _) with (length x) by lia.
  apply take_app_length.
Qed.

(** * The question of a query decodes to what was encoded *)

Lemma append_labels_cons p parts :
  Z.of_nat (length p) < 65536 ->
  append_labels [] (p :: parts) = Z.of_nat (length p) :: p ++ append_labels [] parts.
Proof.
  intros Hp. unfold append_labels at 1. cbn [fold_left].
  change (fold_left _ parts ?q) with (append_labels q parts).
  rewrite append_labels_app. unfold DNS_octetToStr, fromCharCode.
  rewrite Z.mod_small by lia. reflexivity.
Qed.

Lemma readDomain_loop_labels self parts :
  forall ctr dn pre post,
    Forall (fun p => (1 <= length p <= 63)%nat) parts ->
    (length parts < ctr)%nat ->
    let s := pre ++ append_labels [] parts ++ 0 :: post in
    readDomain_loop self ctr dn (Ctx s (Num (Z.of_nat (length pre))))
    = Some (join_labels dn parts,
            Ctx s (Num (Z.of_nat (length pre + length (append_labels [] parts) + 1)))).
Proof.
  induction parts as [|p parts IH]; intros ctr dn pre post HF Hctr s.
  - destruct ctr as [|ctr]; [simpl in Hctr; lia|].
    subst s. simpl. change (append_labels [] []) with (@nil Z). simpl.
    rewrite charCodeAt_app. rewrite eqb_Num. simpl.
    rewrite add_Num. unfold set_idx. cbn [str]. do 4 f_equal. lia.
  - destruct ctr as [|ctr]; [simpl in Hctr; lia|].
    inversion HF as [|? ? Hp HF']; subst.
    subst s. rewrite append_labels_cons by lia.
    cbn [readDomain_loop str idx set_idx].
    change ((Z.of_nat (length p) :: p ++ append_labels [] parts) ++ 0 :: post)
      with (Z.of_nat (length p) :: (p ++ append_labels [] parts) ++ 0 :: post).
    rewrite charCodeAt_app. rewrite eqb_Num.
    destruct (Z.eqb_spec (Z.of_nat (length p)) 0); [lia|].
    rewrite shr_label by lia.
    rewrite add_Num.
    set (s := pre ++ Z.of_nat (length p) :: (p ++ append_labels [] parts) ++ 0 :: post).
    assert (Hs : s = (pre ++ [Z.of_nat (length p)]) ++ p ++ (append_labels [] parts ++ 0 :: post)).
    { subst s. rewrite <- ?app_assoc. cbn [app]. rewrite <- ?app_assoc. reflexivity. }
    assert (Hsub : substr s (Num (Z.of_nat (length pre) + 1)) (Num (Z.of_nat (length p))) = p).
    { rewrite Hs. replace (Z.of_nat (length pre) + 1) with (Z.of_nat (length (pre ++ [Z.of_nat (length p)]))).
      - apply substr_app.
      - rewrite length_app. simpl. lia. }
    rewrite Hsub. rewrite add_Num.
    assert (Hs' : s = (pre ++ Z.of_nat (length p) :: p) ++ append_labels [] parts ++ 0 :: post).
    { subst s. rewrite <- ?app_assoc. cbn [app]. rewrite <- ?app_assoc. reflexivity. }
    replace (Z.of_nat (length pre) + 1 + Z.of_nat (length p))
      with (Z.of_nat (length (pre ++ Z.of_nat (length p) :: p)))
      by (rewrite length_app; simpl; lia).
    rewrite Hs'. unfold set_idx. cbn [str idx].
    rewrite IH; [|exact HF'|cbn [length] in Hctr; lia].
    unfold join_labels. cbn [fold_left]. do 4 f_equal.
    rewrite !length_app. cbn [length]. rewrite !length_app. lia.
Qed.

Lemma join_labels_nonempty dn parts :
  dn <> [] -> join_labels dn parts = dn ++ concat (map (cons 46) parts).
Proof.
  revert dn. induction parts as [|p parts IH]; intros dn Hdn.
  - cbn. by rewrite app_nil_r.
  - unfold join_labels. cbn [fold_left map concat].
    change (fold_left _ parts ?q) with (join_labels q parts).
    destruct dn as [|d dn]; [done|].
    rewrite IH by done.
    rewrite <- ?app_assoc. reflexivity.
Qed.

Lemma join_labels_first p parts :
  p <> [] -> join_labels [] (p :: parts) = p ++ concat (map (cons 46) parts).
Proof.
  intros Hp. unfold join_labels. cbn [fold_left app].
  change (fold_left _ parts ?q) with (join_labels q parts).
  by apply join_labels_nonempty.
Qed.

Lemma split_join host :
  exists p parts, split 46 host = p :: parts /\ host = p ++ concat (map (cons 46) parts).
Proof.
  induction host as [|c host IH].
  - by exists [], [].
  - destruct IH as (p & parts & Hs & Hj). cbn [split]. rewrite Hs.
    destruct (Z.eqb_spec c 46) as [->|Hc].
    + exists [], (p :: parts). split; [done|]. cbn. by rewrite <- Hj.
    + exists (c :: p), parts. split; [done|]. cbn. by rewrite <- Hj.
Qed.

Lemma join_labels_split host :
  Forall (fun p => (1 <= length p <= 63)%nat) (split 46 host) ->
  join_labels [] (split 46 host) = host.
Proof.
  intros HF. destruct (split_join host) as (p & parts & Hs & Hj).
  rewrite Hs in *. pose proof (Forall_inv HF) as Hp. cbn beta in Hp.
  rewrite join_labels_first; [by rewrite <- Hj|].
  destruct p; cbn [length] in Hp; [lia|done].
Qed.

Lemma qtype_of_cases recordtype t :
  qtype_of recordtype = Some t -> In t [1; 2; 5; 12; 15; 16].
Proof.
  unfold qtype_of. intros Ht.
  repeat (destruct (String.eqb recordtype _);
          [inversion Ht; subst; simpl; tauto|]).
  done.
Qed.

Lemma strToWord_wordToStr t :
  In t [1; 2; 5; 12; 15; 16] -> DNS_strToWord (DNS_wordToStr t) = Num t.
Proof.
  simpl. intros Ht.
  repeat (destruct Ht as [<-|Ht]; [vm_compute; reflexivity|]). done.
Qed.

(** C4 (amended): a name of at most 19 labels of 1..63 units each and a
    supported record type come back from the question of the query
    built for them: [dom] is the name, [type] the QTYPE of the record
    type and [cls] is 1. *)
Theorem question_roundtrip depth host recordtype t :
  Forall (fun label => (1 <= length label <= 63)%nat) (split 46 host) ->
  (length (split 46 host) <= 19)%nat ->
  qtype_of recordtype = Some t ->
  exists query c',
    encode_query host recordtype = Ok query
    /\ read_question (S depth) (Ctx (skipn 2 query) (Num 12))
       = Some (host, Num t, Num 1, c').
Proof.
  intros HF Hlen Ht.
  destruct (encode_query_shape host _ _ Ht) as (query & Hq & Hs).
  enough (exists c',
            read_question (S depth)
              (Ctx (query_header ++ append_labels [] (split 46 host)
                      ++ DNS_octetToStr 0 ++ DNS_wordToStr t ++ DNS_wordToStr 1)
                   (Num 12))
            = Some (host, Num t, Num 1, c')) as [c' Hc]
    by (exists query, c'; rewrite Hs; done).
  clear Hs Hq query.
  unfold read_question. cbn [DNS_readDomain].
  set (labels := append_labels [] (split 46 host)).
  change (DNS_octetToStr 0) with [0].
  pose proof (readDomain_loop_labels (DNS_readDomain depth) (split 46 host) 20 []
                query_header (DNS_wordToStr t ++ DNS_wordToStr 1) HF ltac:(lia)) as Hloop.
  cbn zeta in Hloop. fold labels in Hloop.
  change (Z.of_nat (length query_header)) with 12 in Hloop.
  change ([0] ++ DNS_wordToStr t ++ DNS_wordToStr 1)
    with (0 :: DNS_wordToStr t ++ DNS_wordToStr 1).
  rewrite Hloop. clear Hloop.
  rewrite join_labels_split by exact HF.
  cbn [str idx set_idx].
  set (s := query_header ++ labels ++ 0 :: DNS_wordToStr t ++ DNS_wordToStr 1).
  set (n := (length query_header + length labels + 1)%nat).
  assert (Hs1 : s = (query_header ++ labels ++ [0]) ++ DNS_wordToStr t ++ DNS_wordToStr 1).
  { subst s. rewrite <- !app_assoc. reflexivity. }
  assert (Hn1 : n = length (query_header ++ labels ++ [0])).
  { subst n. rewrite !length_app. simpl. lia. }
  assert (Htype : substr s (Num (Z.of_nat n)) (Num 2) = DNS_wordToStr t).
  { rewrite Hs1, Hn1. apply (substr_app _ (DNS_wordToStr t)). }
  assert (Hcls : substr s (add (Num (Z.of_nat n)) (Num 2)) (Num 2) = DNS_wordToStr 1).
  { rewrite add_Num.
    replace s with ((query_header ++ labels ++ [0] ++ DNS_wordToStr t) ++ DNS_wordToStr 1 ++ []).
    - replace (Z.of_nat n + 2)
        with (Z.of_nat (length (query_header ++ labels ++ [0] ++ DNS_wordToStr t))).
      + apply (substr_app _ (DNS_wordToStr 1)).
      + subst n. rewrite !length_app. simpl. lia.
    - subst s. rewrite app_nil_r, <- !app_assoc. reflexivity. }
  rewrite Htype, Hcls.
  rewrite (strToWord_wordToStr t) by (eapply qtype_of_cases, Ht).
  eexists. reflexivity.
Qed.

Lemma question_roundtrip_witness :
  Forall (fun label => (1 <= length label <= 63)%nat) (split 46 (lit "www.example.com"))
  /\ exists query c',
       encode_query (lit "www.example.com") "TXT" = Ok query
       /\ read_question 1 (Ctx (skipn 2 query) (Num 12))
          = Some (lit "www.example.com", Num 16, Num 1, c').
Proof.
  assert (HF : Forall (fun label => (1 <= length label <= 63)%nat)
                 (split 46 (lit "www.example.com"))).
  { vm_compute. repeat constructor. }
  split; [exact HF|].
  apply (question_roundtrip 0 (lit "www.example.com") "TXT" 16 HF).
  - vm_compute. lia.
  - reflexivity.
Defined.

(** C4 as stated fails: with 20 labels the decoder stops before the
    terminator of the name, and the type it reads is not the one
    encoded. *)
Lemma question_of_20_labels_is_not_read_back :
  Forall (fun label => (1 <= length label <= 63)%nat) (split 46 twenty_labels)
  /\ exists query r,
       encode_query twenty_labels "A" = Ok query
       /\ read_question 1 (Ctx (skipn 2 query) (Num 12)) = Some r
       /\ r.1.1.2 = Num 0
       /\ r.1.1.2 <> Num 1.
Proof.
  split; [vm_compute; repeat constructor|].
  eexists. eexists. split; [vm_compute; reflexivity|].
  split; [vm_compute; reflexivity|]. split; [reflexivity|discriminate].
Qed.

(** * Properties of record decoding *)

Lemma add_2_2_4 i : add (add (add i (Num 2)) (Num 2)) (Num 4) = add i (Num 8).
Proof. destruct i; [|reflexivity]. rewrite !add_Num. f_equal. lia. Qed.

Lemma add_2_2_4_2 i :
  add (add (add (add i (Num 2)) (Num 2)) (Num 4)) (Num 2) = add i (Num 10).
Proof. destruct i; [|reflexivity]. rewrite !add_Num. f_equal. lia. Qed.

Lemma wrap32_small z : - 2 ^ 31 <= z < 2 ^ 31 -> wrap32 z = z.
Proof. intros Hz. unfold wrap32. rewrite Z.mod_small; lia. Qed.

Lemma strToWord_bytes hi lo rest :
  0 <= hi < 256 -> DNS_strToWord (hi :: lo :: rest) = Num (lo + 256 * hi).
Proof.
  intros Hhi. unfold DNS_strToWord, charCodeAt, shl.
  cbn [ToIntegerOrInfinity length].
  destruct (Z.leb_spec (Z.of_nat (S (S (length rest)))) 1); [lia|].
  destruct (Z.leb_spec (Z.of_nat (S (S (length rest)))) 0); [lia|].
  change (Z.to_nat 1) with 1%nat. change (Z.to_nat 0) with 0%nat.
  cbn [Z.ltb Z.compare orb nth_error ToInt32].
  rewrite (wrap32_small hi) by lia. rewrite Z.shiftl_mul_pow2 by lia.
  rewrite wrap32_small by lia. unfold add. f_equal. lia.
Qed.

Lemma substr_mid pre x post a n :
  a = Z.of_nat (length pre) -> n = Z.of_nat (length x) ->
  substr (pre ++ x ++ post) (Num a) (Num n) = x.
Proof. intros -> ->. apply substr_app. Qed.

(** The four fixed fields that follow the owner name, as DNS_readRec
    reads them from a message of bytes: TYPE and RDLENGTH. *)
Lemma readRec_fixed_fields pre type cls ttl hi lo rest :
  let m := pre ++ type ++ cls ++ ttl ++ [hi; lo] ++ rest in
  let p := Z.of_nat (length pre) in
  length type = 2%nat -> length cls = 2%nat -> length ttl = 4%nat ->
  0 <= hi < 256 ->
  substr m (Num p) (Num 2) = type
  /\ DNS_strToWord (substr m (Num (p + 8)) (Num 2)) = Num (lo + 256 * hi).
Proof.
  intros m p Htype Hcls Httl Hhi. subst m p. split.
  - apply substr_mid; [reflexivity|]. rewrite Htype. reflexivity.
  - replace (pre ++ type ++ cls ++ ttl ++ [hi; lo] ++ rest)
      with ((pre ++ type ++ cls ++ ttl) ++ [hi; lo] ++ rest)
      by (by rewrite <- !app_assoc).
    rewrite substr_mid; [by apply strToWord_bytes| |reflexivity].
    rewrite !length_app, Htype, Hcls, Httl. lia.
Qed.

(** C10: DNS_readRec returns for a record of any type, recognized or
    not, as soon as the names in it are decoded, and leaves the
    cursor where the owner name ended, plus the 10 bytes of TYPE,
    CLASS, TTL and RDLENGTH, plus RDLENGTH as the message has it,
    whatever follows as RDATA and however much of it was read.  The
    names: the owner name, and for MX, NS and PTR the name in RDATA
    (a walk through compression pointers that does not end does not
    return). *)
Theorem readRec_cursor depth c dom pre type cls ttl hi lo rest :
  let m := pre ++ type ++ cls ++ ttl ++ [hi; lo] ++ rest in
  let p := Z.of_nat (length pre) in
  DNS_readDomain depth c = Some (dom, Ctx m (Num p)) ->
  length type = 2%nat -> length cls = 2%nat -> length ttl = 4%nat ->
  0 <= hi < 256 -> 0 <= lo < 256 ->
  (DNS_strToWord type = Num 15 ->
   is_Some (DNS_readDomain depth (Ctx m (Num (p + 12))))) ->
  (DNS_strToWord type = Num 2 \/ DNS_strToWord type = Num 12 ->
   is_Some (DNS_readDomain depth (Ctx m (Num (p + 10))))) ->
  exists rec,
    DNS_readRec depth c = Some (rec, Ctx m (Num (p + 10 + (256 * hi + lo))))
    /\ rec_dom rec = dom
    /\ rec_recognized rec
       = existsb (fun t => eqb (DNS_strToWord type) (Num t)) [16; 1; 15; 2; 12; 5].
Proof.
  intros m p Hd Htype Hcls Httl Hhi Hlo Hmx Hns.
  destruct (readRec_fixed_fields pre type cls ttl hi lo rest Htype Hcls Httl Hhi)
    as (Ht & Hlen).
  fold m p in Ht, Hlen.
  unfold DNS_readRec. rewrite Hd. cbv zeta. unfold set_idx. cbn [str idx].
  rewrite !add_2_2_4_2, !add_2_2_4, !add_Num, Ht, Hlen, !add_Num.
  replace (p + 10 + (lo + 256 * hi)) with (p + 10 + (256 * hi + lo)) by lia.
  cbn [existsb].
  destruct (DNS_strToWord type) as [t|] eqn:Hw.
  2:{ cbn. eexists. split; [reflexivity|]. split; reflexivity. }
  rewrite !eqb_Num.
  destruct (Z.eqb_spec t 16) as [->|H16].
  { destruct (readRec_txt _ _ _ _) as [[rdlen' data] cend].
    eexists. split; [reflexivity|]. split; reflexivity. }
  destruct (Z.eqb_spec t 1) as [->|H1].
  { eexists. split; [reflexivity|]. split; reflexivity. }
  destruct (Z.eqb_spec t 15) as [->|H15].
  { replace (p + 10 + 2) with (p + 12) by lia.
    destruct (Hmx eq_refl) as [[host cend] ->].
    eexists. split; [reflexivity|]. split; reflexivity. }
  destruct (Z.eqb_spec t 2) as [->|H2].
  { destruct (Hns (or_introl eq_refl)) as [[d cend] ->].
    eexists. split; [reflexivity|]. split; reflexivity. }
  destruct (Z.eqb_spec t 12) as [->|H12].
  { destruct (Hns (or_intror eq_refl)) as [[d cend] ->].
    eexists. split; [reflexivity|]. split; reflexivity. }
  destruct (Z.eqb_spec t 5) as [->|H5];
    eexists; (split; [reflexivity|]); split; reflexivity.
Qed.

Lemma readRec_cursor_witness :
  (exists rec,
     DNS_readRec 2 (Ctx mx_response (Num 29)) = Some (rec, Ctx mx_response (Num 48))
     /\ rec_dom rec = lit "example.org"
     /\ rec_recognized rec = true)
  /\ (exists rec,
        DNS_readRec 2 (Ctx aaaa_response (Num 29))
        = Some (rec, Ctx aaaa_response (Num 57))
        /\ rec_dom rec = lit "example.org"
        /\ rec_recognized rec = false).
Proof.
  split.
  - apply (readRec_cursor 2 (Ctx mx_response (Num 29)) (lit "example.org")
             (take 31 mx_response) [0; 15] [0; 1] [0; 0; 14; 16] 0 7
             (drop 41 mx_response)).
    + vm_compute; reflexivity.
    + reflexivity.
    + reflexivity.
    + reflexivity.
    + lia.
    + lia.
    + intros _. vm_compute. eauto.
    + intros [Hw|Hw]; vm_compute in Hw; discriminate.
  - apply (readRec_cursor 2 (Ctx aaaa_response (Num 29)) (lit "example.org")
             (take 31 aaaa_response) [0; 28] [0; 1] [0; 0; 14; 16] 0 16
             (drop 41 aaaa_response)).
    + vm_compute; reflexivity.
    + reflexivity.
    + reflexivity.
    + reflexivity.
    + lia.
    + lia.
    + intros Hw; vm_compute in Hw; discriminate.
    + intros [Hw|Hw]; vm_compute in Hw; discriminate.
Defined.

(** * Properties of response decoding *)

(** DNS_readRec never assigns [address]. *)
Lemma readRec_address_unset depth c rec c' :
  DNS_readRec depth c = Some (rec, c') -> address_unset (rec_rddata rec).
Proof.
  intros H. unfold DNS_readRec in H.
  destruct (DNS_readDomain depth c) as [[dom c1]|]; [|discriminate].
  cbv zeta in H.
  repeat match type of H with
         | (if ?b then _ else _) = _ => destruct b
         | (let '(_, _) := ?x in _) = _ => destruct x as [[? ?] ?]
         | match ?x with Some _ => _ | None => _ end = _ =>
             destruct x as [[? ?]|]; [|discriminate]
         end;
    inversion H; subst; cbn; done.
Qed.

(** With [address] unassigned, the [j] loop throws or changes nothing. *)
Lemma attach_address_unset rec r r' :
  address_unset r -> attach_address rec r = Ok r' -> r' = r.
Proof.
  destruct r as [|s|preference host address]; cbn; intros Hu H.
  - discriminate.
  - by inversion H.
  - subst address.
    destruct (negb (bool_decide (host = [])) && bool_decide (host = rec_dom rec));
      [discriminate|by inversion H].
Qed.

Lemma attach_addresses_unset rec results results' :
  Forall address_unset results ->
  attach_addresses rec results = Ok results' -> results' = results.
Proof.
  revert results'. induction results as [|r rs IH]; intros results' HF H; cbn in H.
  - by inversion H.
  - apply Forall_cons_1 in HF as [Hr Hrs].
    destruct (attach_address rec r) as [r'|] eqn:Hr'; [|discriminate].
    destruct (attach_addresses rec rs) as [rs'|] eqn:Hrs'; [|discriminate].
    inversion H; subst.
    rewrite (attach_address_unset _ _ _ Hr Hr'), (IH _ Hrs eq_refl). reflexivity.
Qed.

Lemma read_answers_unset depth n :
  forall results c results' c',
    Forall address_unset results ->
    read_answers depth n results c = Some (Ok (results', c')) ->
    Forall address_unset results'.
Proof.
  induction n as [|n IH]; intros results c results' c' HF H; cbn [read_answers] in H.
  - by inversion H; subst.
  - destruct (DNS_readRec depth c) as [[rec c1]|] eqn:Hrec; [|discriminate].
    destruct (negb (rec_recognized rec)); [discriminate|].
    eapply IH; [|exact H].
    destruct (negb (is_type "CNAME" (rec_type rec))); [|exact HF].
    apply Forall_app. split; [exact HF|].
    constructor; [|constructor]. eapply readRec_address_unset, Hrec.
Qed.

Lemma read_additional_unset depth n :
  forall results c results' c',
    Forall address_unset results ->
    read_additional depth n results c = Some (Ok (results', c')) ->
    results' = results.
Proof.
  induction n as [|n IH]; intros results c results' c' HF H; cbn [read_additional] in H.
  - by inversion H; subst.
  - destruct (DNS_readRec depth c) as [[rec c1]|] eqn:Hrec; [|discriminate].
    destruct (is_type "A" (rec_type rec)).
    + destruct (attach_addresses rec results) as [results1|] eqn:Ha; [|discriminate].
      apply attach_addresses_unset in Ha; [|exact HF]. subst results1.
      eapply IH; [exact HF|exact H].
    + eapply IH; [exact HF|exact H].
Qed.

(** No list DNS_getRDData hands to the callback holds an MX value whose
    [address] is an array, or null. *)
Lemma getRDData_address_unset depth str server hops results :
  DNS_getRDData depth str server hops = Some (Ok (RdCallback (Some results))) ->
  Forall address_unset results.
Proof.
  unfold DNS_getRDData. cbv zeta. intros H.
  repeat match type of H with
         | (if ?b then _ else _) = _ => destruct b; [discriminate|]
         end.
  destruct (read_questions _ _ _) as [cq|]; [|discriminate].
  destruct (read_answers _ _ _ _) as [[[answers ca]|]|] eqn:Hans; [|discriminate..].
  destruct (DNS_strToWord (substr str (Num 8) (Num 2))) as [aucount|]; [|discriminate].
  destruct (read_records _ _ _ _) as [[authorities cu]|]; [|discriminate].
  destruct (read_additional _ _ _ _) as [[[final cd]|]|] eqn:Hadd; [|discriminate..].
  apply read_answers_unset in Hans; [|constructor].
  apply read_additional_unset in Hadd; [|exact Hans]. subst final.
  destruct answers as [|a answers].
  - destruct (find_referral _ _); discriminate.
  - inversion H; subst. exact Hans.
Qed.

(** C3: on the answer of the MX scenario the code throws where the
    claim expects [address] to be ["1.2.3.4"], so that the lookup ends
    without the callback being called; and without glue the [address]
    it delivers was never assigned (it is not null). *)
Theorem mx_glue_is_not_attached :
  DNS_getRDData 3 mx_response (lit "8.8.8.8") 0
  = Some (Thrown "TypeError: results[j].address is undefined")
  /\ option_map st_log
       (run (H := mozilla) 3 [(0%nat, DataAvailable (frame mx_response))]
          (queryDNS pool_of_one (lit "example.org") "MX"))
     = Some [EvConnect (lit "8.8.8.8") 0 (Some 0%nat);
             EvThrow "TypeError: results[j].address is undefined"]
  /\ DNS_getRDData 3 mx_response_no_glue (lit "8.8.8.8") 0
     = Some (Ok (RdCallback
                   (Some [RDMx (Num 10) (lit "mx.example.org") AddrUndefined]))).
Proof. repeat split; vm_compute; reflexivity. Qed.

(** The answer loop throws on the first record that is not recognized. *)
Lemma read_answers_unrecognized depth n :
  forall recs0 results c recs c',
    read_records depth n recs0 c = Some (recs, c') ->
    exists rest,
      recs = recs0 ++ rest
      /\ (Exists (fun r => rec_recognized r = false) rest ->
          read_answers depth n results c
          = Some (Thrown "Record type is not one that this library can understand.")).
Proof.
  induction n as [|n IH]; intros recs0 results c recs c' H;
    cbn [read_records] in H; cbn [read_answers].
  - inversion H; subst. exists []. split; [by rewrite app_nil_r|].
    intros HE. inversion HE.
  - destruct (DNS_readRec depth c) as [[rec c1]|] eqn:Hrec; [|discriminate].
    destruct (IH _ (if negb (is_type "CNAME" (rec_type rec))
                    then results ++ [rec_rddata rec] else results) _ _ _ H)
      as (rest & -> & Hrest).
    exists (rec :: rest). split; [by rewrite <- app_assoc|].
    intros HE. destruct (rec_recognized rec) eqn:Hrecog; cbn [negb]; [|reflexivity].
    apply Hrest. inversion HE as [? ? Hhd|? ? Htl]; subst; [congruence|exact Htl].
Qed.

(** A response whose QDCOUNT is not 1, or one of whose other counts is
    above 128, or whose answer section holds a record of a type the
    decoder does not recognize, makes DNS_getRDData throw. *)
Lemma getRDData_rejects depth str server hops :
  let qcount := DNS_strToWord (substr str (Num 4) (Num 2)) in
  let ancount := DNS_strToWord (substr str (Num 6) (Num 2)) in
  let aucount := DNS_strToWord (substr str (Num 8) (Num 2)) in
  let adcount := DNS_strToWord (substr str (Num 10) (Num 2)) in
  eqb qcount (Num 1) = false
  \/ gtb ancount (Num 128) = true
  \/ gtb aucount (Num 128) = true
  \/ gtb adcount (Num 128) = true
  \/ (exists cq recs c',
        read_questions depth (loop_count qcount) (Ctx str (Num 12)) = Some cq
        /\ read_records depth (loop_count ancount) [] cq = Some (recs, c')
        /\ Exists (fun r => rec_recognized r = false) recs) ->
  exists msg,
    InvalidResponse msg
    /\ DNS_getRDData depth str server hops = Some (Thrown msg).
Proof.
  intros qcount ancount aucount adcount H.
  unfold DNS_getRDData. cbv zeta.
  fold qcount ancount aucount adcount.
  destruct (eqb qcount (Num 1)) eqn:Hq; cbn [negb].
  2:{ eexists. split; [|reflexivity]. unfold InvalidResponse. cbn. tauto. }
  destruct (gtb ancount (Num 128)) eqn:Han.
  { eexists. split; [|reflexivity]. unfold InvalidResponse. cbn. tauto. }
  destruct (gtb aucount (Num 128)) eqn:Hau.
  { eexists. split; [|reflexivity]. unfold InvalidResponse. cbn. tauto. }
  destruct (gtb adcount (Num 128)) eqn:Had.
  { eexists. split; [|reflexivity]. unfold InvalidResponse. cbn. tauto. }
  destruct H as [H|[H|[H|[H|H]]]]; try discriminate.
  destruct H as (cq & recs & c' & Hcq & Hrecs & HE).
  rewrite Hcq.
  destruct (read_answers_unrecognized _ _ [] [] _ _ _ Hrecs) as (rest & -> & Hthrow).
  rewrite (Hthrow HE).
  eexists. split; [|reflexivity]. unfold InvalidResponse. cbn. tauto.
Qed.

(** An AAAA record in the answer section. *)
Example aaaa_answer_is_thrown :
  DNS_getRDData 2 aaaa_response (lit "8.8.8.8") 0
  = Some (Thrown "Record type is not one that this library can understand.").
Proof. vm_compute; reflexivity. Qed.

(** * Properties of the resolver *)

Section ResolverProperties.
Context `{Components}.

Lemma perform_spec st r :
  perform st r
  = State (st_pool st) (st_conns st ++ conns_of r) (st_log st ++ events_of r).
Proof.
  destruct r as [acts|m]; cbn; [|by rewrite app_nil_r].
  revert st. induction acts as [|a acts IH]; intros st; cbn.
  - rewrite !app_nil_r. by destruct st.
  - rewrite IH. destruct a; cbn; rewrite <- ?app_assoc; reflexivity.
Qed.

Lemma first_alive_spec pool i name :
  first_alive pool = Some (i, name) ->
  exists s, pool !! i = Some s /\ ns_alive s = true /\ ns_server s = name
            /\ forall j, (j < i)%nat -> dead j pool.
Proof.
  revert i name. induction pool as [|s pool IH]; intros i name Hf; cbn in Hf.
  - discriminate.
  - destruct (ns_alive s) eqn:Hs.
    + inversion Hf; subst. exists s. repeat split; [done..|].
      intros j Hj. lia.
    + destruct (first_alive pool) as [[i' name']|]; [|discriminate].
      inversion Hf; subst.
      destruct (IH _ _ eq_refl) as (s' & Hl & Ha & Hn & Hd).
      exists s'. repeat split; [done..|].
      intros [|j] Hj s0 Hs0; cbn in Hs0.
      * by inversion Hs0; subst.
      * eapply Hd; [|exact Hs0]. lia.
Qed.

Lemma first_alive_not_dead pool i name k :
  first_alive pool = Some (i, name) -> dead k pool -> i <> k.
Proof.
  intros Hf Hd ->. apply first_alive_spec in Hf as (s & Hl & Ha & _).
  rewrite (Hd _ Hl) in Ha. discriminate.
Qed.

Lemma mark_dead_dead k pool : dead k (mark_dead k pool).
Proof.
  intros s Hs. unfold mark_dead in Hs.
  rewrite list_lookup_alter_eq in Hs.
  destruct (pool !! k); cbn in Hs; [|discriminate]. by inversion Hs.
Qed.

Lemma mark_dead_keeps_dead j k pool : dead j pool -> dead j (mark_dead k pool).
Proof.
  intros Hd. destruct (decide (j = k)) as [->|Hne]; [apply mark_dead_dead|].
  intros s Hs. unfold mark_dead in Hs.
  rewrite list_lookup_alter_ne in Hs by done. by apply Hd.
Qed.

(** What a call of queryDNSRecursive comes to. *)
Lemma queryDNSRecursive_cases pool server host recordtype hops servers :
  let r := queryDNSRecursive pool server host recordtype hops servers in
  (servers = true /\ first_alive pool = None
   /\ r = Ok [ACallback None (Some NO_SERVER_ALIVE)])
  \/ (hops = 10 /\ r = Ok [ACallback None (Some TOO_MANY_HOPS)])
  \/ (hops <> 10 /\ exists m, r = Thrown m
      /\ (encode_query host recordtype = Thrown m
          \/ (servers = false /\ server = None)))
  \/ (hops <> 10 /\ exists c,
        r = Ok [AConnect c] /\ fresh c
        /\ c_hops c = hops /\ c_host c = host /\ c_recordtype c = recordtype
        /\ encode_query host recordtype = Ok (c_query c)
        /\ if servers
           then exists i, first_alive pool = Some (i, c_server c)
                          /\ c_servers c = Some i
           else c_servers c = None /\ server = Some (c_server c)).
Proof.
  intros r. subst r. unfold queryDNSRecursive.
  destruct servers.
  - destruct (first_alive pool) as [[i name]|] eqn:Hf; cbn [fst snd].
    2:{ left. done. }
    right. destruct (Z.eqb_spec hops 10) as [->|Hh]; [left; done|right].
    destruct (encode_query host recordtype) as [query|m] eqn:He.
    2:{ left. split; [done|]. exists m. split; [done|]. by left. }
    right. split; [done|].
    destruct (indexOf 58 name); eexists; (split; [reflexivity|]);
      cbn; repeat split; eauto.
  - cbn [fst snd]. right.
    destruct (Z.eqb_spec hops 10) as [->|Hh].
    { left. by destruct server. }
    right.
    destruct (encode_query host recordtype) as [query|m] eqn:He.
    2:{ left. split; [done|]. exists m. destruct server; split; try done; by left. }
    destruct server as [name|].
    2:{ left. split; [done|]. eexists. split; [reflexivity|]. by right. }
    right. split; [done|].
    destruct (indexOf 58 name); eexists; (split; [reflexivity|]);
      cbn; repeat split; eauto.
Qed.

Lemma getRDData_recurse depth str server hops ns h :
  DNS_getRDData depth str server hops = Some (Ok (RdRecurse ns h)) ->
  h = hops + 1.
Proof.
  unfold DNS_getRDData. cbv zeta. intros Hr.
  repeat match type of Hr with
         | (if ?b then _ else _) = _ => destruct b; [discriminate|]
         end.
  destruct (read_questions _ _ _) as [cq|]; [|discriminate].
  destruct (read_answers _ _ _ _) as [[[answers ca]|]|]; [|discriminate..].
  destruct (DNS_strToWord (substr str (Num 8) (Num 2))) as [aucount|]; [|discriminate].
  destruct (read_records _ _ _ _) as [[authorities cu]|]; [|discriminate].
  destruct (read_additional _ _ _ _) as [[[final cd]|]|]; [|discriminate..].
  destruct final; [|discriminate].
  destruct (find_referral _ _); by inversion Hr.
Qed.

(** What [process] does besides updating the listener: nothing, an
    exception, one call of the callback, or one referral. *)
Lemma process_cases depth c l data l' r :
  process depth c l data = Some (l', r) ->
  r = Ok []
  \/ (exists m, r = Thrown m)
  \/ (exists results, r = Ok [ACallback results None])
  \/ (exists ns,
        r = queryDNSRecursive [] (Some ns) (c_host c) (c_recordtype c)
              (c_hops c + 1) false).
Proof.
  unfold process. intros Hp.
  destruct (done l); [inversion Hp; by left|].
  destruct (fill_header _ _) as [header rest].
  destruct (length header =? 14)%nat; [|inversion Hp; by left].
  destruct (geb _ _); [|inversion Hp; by left].
  destruct (DNS_getRDData _ _ _ _) as [[a|m]|] eqn:Hrd; [| |discriminate].
  - inversion Hp; subst. destruct a as [results|ns h]; cbn.
    + right. right. left. eauto.
    + apply getRDData_recurse in Hrd as ->. right. right. right. eauto.
  - inversion Hp; subst. right. left. eauto.
Qed.

(** What [finished] does. *)
Lemma finished_cases depth pool c l data status pool' l' r :
  finished depth pool c l data status = Some (pool', l', r) ->
  (status <> 0 /\ c_servers c = None /\ pool' = pool
   /\ r = Ok [ACallback None (Some (connect_error status (c_server c)))])
  \/ (status <> 0 /\ exists k,
        c_servers c = Some k /\ pool' = mark_dead k pool
        /\ r = queryDNSRecursive pool' None (c_host c) (c_recordtype c)
                 (c_hops c) true)
  \/ (status = 0 /\ pool' = pool /\ exists r0,
        process depth c l data = Some (l', r0)
        /\ (r = r0
            \/ exists acts,
                 r0 = Ok acts /\ done l' = false
                 /\ r = Ok (acts ++ [ACallback None
                                       (Some (INCOMPLETE_RESPONSE (c_server c)))]))).
Proof.
  unfold finished. intros Hf.
  destruct (Z.eqb_spec status 0) as [->|Hs]; cbn [negb] in Hf.
  - right. right. split; [done|].
    destruct (process depth c l data) as [[l1 [acts|m]]|]; [| |discriminate].
    + destruct (done l1) eqn:Hd; cbn [negb] in Hf; inversion Hf; subst;
        (split; [done|]); eexists; (split; [reflexivity|]); eauto.
    + inversion Hf; subst. split; [done|]. eexists. split; [reflexivity|]. by left.
  - destruct (c_servers c) as [k|]; inversion Hf; subst.
    + right. left. split; [done|]. exists k. done.
    + left. done.
Qed.

(** One step of a lookup. *)
Lemma deliver_cases depth i e st st' :
  deliver depth i e st = Some st' ->
  exists c c' r,
    st_conns st !! i = Some c /\ c_stopped c = false /\ same_query c c'
    /\ st_conns st' = <[i := c']> (st_conns st) ++ conns_of r
    /\ st_log st' = st_log st ++ events_of r
    /\ match e with
       | DataAvailable bytes =>
           st_pool st' = st_pool st
           /\ exists l',
                process depth c (c_listener c) (c_data c ++ bytes) = Some (l', r)
       | StopRequest status =>
           exists l',
             finished depth (st_pool st) c (c_listener c) (c_data c) status
             = Some (st_pool st', l', r)
       end.
Proof.
  unfold deliver. intros Hd.
  destruct (st_conns st !! i) as [c|] eqn:Hc; [|discriminate].
  destruct (c_stopped c) eqn:Hs; [discriminate|].
  destruct e as [bytes|status].
  - unfold onDataAvailable in Hd.
    destruct (process _ _ _ _) as [[l' r]|] eqn:Hp; [|discriminate].
    destruct r as [acts|m]; cbv beta iota zeta in Hd;
      rewrite perform_spec in Hd; injection Hd as <-;
      cbn [st_pool st_conns st_log].
    + exists c, (set_listener c l' [] false), (Ok acts).
      split; [reflexivity|]. split; [exact Hs|]. split; [by unfold same_query|].
      split; [reflexivity|]. split; [reflexivity|]. split; [reflexivity|].
      exists l'. exact Hp.
    + exists c, (set_listener c l' (c_data c ++ bytes) false), (Thrown m).
      split; [reflexivity|]. split; [exact Hs|]. split; [by unfold same_query|].
      split; [reflexivity|]. split; [reflexivity|]. split; [reflexivity|].
      exists l'. exact Hp.
  - unfold onStopRequest in Hd.
    destruct (finished _ _ _ _ _ _) as [[[pool' l'] r]|] eqn:Hf; [|discriminate].
    cbv beta iota zeta in Hd. rewrite perform_spec in Hd. injection Hd as <-.
    cbn [st_pool st_conns st_log].
    exists c, (set_listener c l' (c_data c) true), r.
    split; [reflexivity|]. split; [exact Hs|]. split; [by unfold same_query|].
    split; [reflexivity|]. split; [reflexivity|]. exists l'. exact Hf.
Qed.

Lemma referral_opens c e pool' ns :
  Forall (opened_by c e pool')
    (conns_of (queryDNSRecursive [] (Some ns) (c_host c) (c_recordtype c)
                 (c_hops c + 1) false)).
Proof.
  destruct (queryDNSRecursive_cases [] (Some ns) (c_host c) (c_recordtype c)
              (c_hops c + 1) false)
    as [(Hs & _)|[(_ & ->)|[(_ & m & -> & _)|(Hh & c' & -> & Hf & Hhops & Hhost & Hrt & _ & Hsv & _)]]];
    [discriminate|cbn; constructor..|].
  cbn. constructor; [|constructor].
  unfold opened_by. rewrite Hhops.
  split; [exact Hf|]. split; [exact Hhost|]. split; [exact Hrt|].
  split; [exact Hh|]. left. done.
Qed.

Lemma failover_opens c k pool status :
  c_servers c = Some k -> status <> 0 ->
  Forall (opened_by c (StopRequest status) (mark_dead k pool))
    (conns_of (queryDNSRecursive (mark_dead k pool) None (c_host c) (c_recordtype c)
                 (c_hops c) true)).
Proof.
  intros Hk Hst.
  destruct (queryDNSRecursive_cases (mark_dead k pool) None (c_host c)
              (c_recordtype c) (c_hops c) true)
    as [(_ & _ & ->)|[(_ & ->)|[(_ & m & -> & _)|(Hh & c' & -> & Hf & Hhops & Hhost & Hrt & _ & j & Hj & Hsv)]]];
    [cbn; constructor..|].
  cbn. constructor; [|constructor].
  unfold opened_by. rewrite Hhops.
  split; [exact Hf|]. split; [exact Hhost|]. split; [exact Hrt|].
  split; [exact Hh|]. right.
  split; [reflexivity|]. split; [by rewrite Hk|]. split; [eauto|eauto].
Qed.

Lemma process_opens depth c l data l' r e pool' :
  process depth c l data = Some (l', r) -> Forall (opened_by c e pool') (conns_of r).
Proof.
  intros Hp.
  destruct (process_cases _ _ _ _ _ _ Hp) as [->|[(m & ->)|[(results & ->)|(ns & ->)]]];
    [cbn; constructor..|apply referral_opens].
Qed.

Lemma step_opens depth i e st st' :
  deliver depth i e st = Some st' ->
  exists c c',
    st_conns st !! i = Some c /\ c_stopped c = false /\ same_query c c'
    /\ (st_pool st' = st_pool st
        \/ exists k, c_servers c = Some k /\ st_pool st' = mark_dead k (st_pool st))
    /\ exists new,
         st_conns st' = <[i := c']> (st_conns st) ++ new
         /\ Forall (opened_by c e (st_pool st')) new.
Proof.
  intros Hd.
  destruct (deliver_cases _ _ _ _ _ Hd) as (c & c' & r & Hc & Hs & Hsame & Hconns & _ & He).
  exists c, c'. split; [exact Hc|]. split; [exact Hs|]. split; [exact Hsame|].
  destruct e as [bytes|status].
  - destruct He as (Hpool & l' & Hp). split; [by left|].
    exists (conns_of r). split; [exact Hconns|]. eapply process_opens, Hp.
  - destruct He as (l' & Hf).
    destruct (finished_cases _ _ _ _ _ _ _ _ _ Hf)
      as [(Hst & Hnone & Hpool & ->)|[(Hst & k & Hk & Hpool & ->)|(-> & Hpool & r0 & Hp & Hr)]].
    + split; [by left|]. exists []. split; [exact Hconns|constructor].
    + split; [right; eauto|].
      eexists. split; [exact Hconns|]. rewrite Hpool. by apply failover_opens.
    + split; [by left|]. exists (conns_of r). split; [exact Hconns|].
      destruct Hr as [->|(acts & -> & _ & ->)]; [eapply process_opens, Hp|].
      pose proof (process_opens _ _ _ _ _ _ (StopRequest 0) (st_pool st') Hp) as HF.
      cbn in *. rewrite omap_app. cbn. by rewrite app_nil_r.
Qed.

(** ** The invariant of a lookup *)

Lemma conn_ok_same host recordtype c c' :
  same_query c c' -> conn_ok host recordtype c -> conn_ok host recordtype c'.
Proof.
  intros (_ & Hsv & Hh & Hrt & Hhops) (H1 & H2 & H3 & H4 & H5).
  unfold conn_ok. rewrite Hsv, Hh, Hrt, Hhops. done.
Qed.

Lemma conn_ok_opened host recordtype c e pool' c' :
  conn_ok host recordtype c -> opened_by c e pool' c' -> conn_ok host recordtype c'.
Proof.
  intros (H1 & H2 & H3 & H4 & H5) (_ & Hh & Hrt & Hne & Hcase).
  unfold conn_ok. rewrite Hh, Hrt. split; [done|]. split; [done|].
  destruct Hcase as [(Hsv & Hhops)|(Hhops & Hc & _)].
  - split; [lia|]. split; [by rewrite Hsv|exact H5].
  - rewrite Hhops. split; [lia|]. split; [intros _; by apply H4|exact H5].
Qed.

Lemma queryDNS_ok pool host recordtype :
  Forall (conn_ok host recordtype) (st_conns (queryDNS pool host recordtype)).
Proof.
  unfold queryDNS. rewrite perform_spec. cbn [st_conns app].
  destruct (queryDNSRecursive_cases pool None host recordtype 0 true)
    as [(_ & _ & ->)|[(_ & ->)|[(_ & m & -> & _)|(_ & c & -> & _ & Hhops & Hhost & Hrt & Hq & _)]]];
    [cbn; constructor..|].
  cbn. constructor; [|constructor].
  unfold conn_ok. rewrite Hhops, Hhost, Hrt. repeat split; try done; try lia. eauto.
Qed.

Lemma step_ok host recordtype st st' :
  step st st' ->
  Forall (conn_ok host recordtype) (st_conns st) ->
  Forall (conn_ok host recordtype) (st_conns st').
Proof.
  intros [depth i e st0 st1 Hd] HF.
  destruct (step_opens _ _ _ _ _ Hd)
    as (c & c' & Hc & _ & Hsame & _ & new & -> & Hnew).
  pose proof (Forall_lookup_1 _ _ _ _ HF Hc) as Hok.
  apply Forall_app. split.
  - apply Forall_insert; [exact HF|]. eapply conn_ok_same; eauto.
  - eapply Forall_impl; [exact Hnew|]. intros cn Hcn. eapply conn_ok_opened; eauto.
Qed.

Lemma reachable_ok pool host recordtype st :
  reachable pool host recordtype st ->
  Forall (conn_ok host recordtype) (st_conns st).
Proof.
  unfold reachable. intros Hs.
  remember (queryDNS pool host recordtype) as st0 eqn:Hst0.
  induction Hs as [st|st st' st'' Hs IH Hstep].
  - subst. apply queryDNS_ok.
  - eapply step_ok; eauto.
Qed.

(** ** Dead entries *)

Lemma step_dead st st' k : step st st' -> dead k (st_pool st) -> dead k (st_pool st').
Proof.
  intros [depth i e st0 st1 Hd] Hk.
  destruct (step_opens _ _ _ _ _ Hd) as (c & c' & _ & _ & _ & [->|(j & _ & ->)] & _);
    [exact Hk|by apply mark_dead_keeps_dead].
Qed.

Lemma steps_dead st st' k : steps st st' -> dead k (st_pool st) -> dead k (st_pool st').
Proof.
  intros Hs Hk. induction Hs as [st|st st' st'' Hs IH Hstep]; [exact Hk|].
  eapply step_dead; eauto.
Qed.

(** An entry that is not alive is not selected again: from [st] on,
    no socket opened is for it. *)
Lemma dead_entry_never_selected st st' k n :
  steps st st' -> dead k (st_pool st) ->
  (forall j c, (n <= j)%nat -> st_conns st !! j = Some c -> c_servers c <> Some k) ->
  forall j c, (n <= j)%nat -> st_conns st' !! j = Some c -> c_servers c <> Some k.
Proof.
  intros Hs Hk Hst. induction Hs as [st|st st' st'' Hs IH Hstep]; intros j cj Hj Hcj.
  - by eapply Hst.
  - pose proof (steps_dead _ _ _ Hs Hk) as Hk'.
    pose proof (step_dead _ _ _ Hstep Hk') as Hk''.
    destruct Hstep as [depth i e st0 st1 Hd].
    destruct (step_opens _ _ _ _ _ Hd)
      as (c & c' & Hc & _ & Hsame & _ & new & Hconns & Hnew).
    rewrite Hconns in Hcj.
    destruct (decide (j < length (st_conns st0))%nat) as [Hlt|Hge].
    + rewrite lookup_app_l in Hcj by (rewrite length_insert; lia).
      destruct (decide (i = j)) as [->|Hne].
      * rewrite list_lookup_insert_eq in Hcj by lia. inversion Hcj; subst.
        destruct Hsame as (_ & -> & _). by eapply IH.
      * rewrite list_lookup_insert_ne in Hcj by done. by eapply IH.
    + rewrite lookup_app_r in Hcj by (rewrite length_insert; lia).
      pose proof (Forall_lookup_1 _ _ _ _ Hnew Hcj) as (_ & _ & _ & _ & Hcase).
      destruct Hcase as [(-> & _)|(_ & _ & (j' & Hfirst & ->) & _)]; [done|].
      intros [= ->]. by eapply first_alive_not_dead.
Qed.

(** ** What one event does to the sockets *)

Lemma process_effect depth c l data l' r :
  process depth c l data = Some (l', r) ->
  (done l = true -> l' = l /\ r = Ok [])
  /\ (done l' = false -> r = Ok [])
  /\ (conns_of r = []
      \/ exists cn,
           conns_of r = [cn] /\ done l = false /\ done l' = true
           /\ same_question c cn /\ c_servers cn = None
           /\ c_hops cn = c_hops c + 1 /\ c_hops cn <> 10).
Proof.
  unfold process. intros Hp.
  destruct (done l) eqn:Hdone.
  { inversion Hp; subst. split; [done|]. split; [done|]. by left. }
  destruct (fill_header _ _) as [header rest].
  destruct (length header =? 14)%nat.
  2:{ inversion Hp; subst. split; [done|]. split; [done|]. by left. }
  destruct (geb _ _).
  2:{ inversion Hp; subst. split; [done|]. split; [done|]. by left. }
  destruct (DNS_getRDData _ _ _ _) as [[a|m]|] eqn:Hrd; [| |discriminate].
  2:{ inversion Hp; subst. split; [done|]. split; [done|]. by left. }
  inversion Hp; subst. cbn [done]. split; [done|]. split; [done|].
  destruct a as [results|ns h]; cbn [follow]; [by left|].
  apply getRDData_recurse in Hrd as ->.
  destruct (queryDNSRecursive_cases [] (Some ns) (c_host c) (c_recordtype c)
              (c_hops c + 1) false)
    as [(Hs & _)|[(_ & ->)|[(_ & m & -> & _)
        |(Hh & cn & -> & Hf & Hhops & Hhost & Hrt & Hq & Hsv & _)]]];
    [discriminate|by left..|].
  right. exists cn. cbn. unfold same_question. rewrite Hhops. done.
Qed.

Lemma deliver_effect depth i e st st' :
  deliver depth i e st = Some st' ->
  exists c c' new,
    st_conns st !! i = Some c /\ c_stopped c = false
    /\ same_query c c' /\ c_query c' = c_query c
    /\ c_stopped c' = match e with StopRequest _ => true | DataAvailable _ => false end
    /\ (done (c_listener c) = true -> done (c_listener c') = true)
    /\ st_conns st' = <[i := c']> (st_conns st) ++ new
    /\ ((new = []
         /\ (st_pool st' = st_pool st
             \/ exists k, c_servers c = Some k
                          /\ st_pool st' = mark_dead k (st_pool st)))
        \/ (exists cn,
              new = [cn] /\ st_pool st' = st_pool st
              /\ done (c_listener c) = false /\ done (c_listener c') = true
              /\ same_question c cn /\ c_servers cn = None
              /\ c_hops cn = c_hops c + 1 /\ c_hops cn <> 10)
        \/ (exists cn k j status,
              new = [cn] /\ e = StopRequest status /\ status <> 0
              /\ c_servers c = Some k /\ st_pool st' = mark_dead k (st_pool st)
              /\ first_alive (st_pool st') = Some (j, c_server cn)
              /\ c_servers cn = Some j
              /\ same_question c cn /\ c_hops cn = c_hops c)).
Proof.
  unfold deliver. intros Hd.
  destruct (st_conns st !! i) as [c|] eqn:Hc; [|discriminate].
  destruct (c_stopped c) eqn:Hs; [discriminate|].
  destruct e as [bytes|status].
  - unfold onDataAvailable in Hd.
    destruct (process _ _ _ _) as [[l' r]|] eqn:Hp; [|discriminate].
    destruct (process_effect _ _ _ _ _ _ Hp) as (Hdone & _ & Hnew).
    assert (Hst : exists data,
              st' = State (st_pool st)
                      (<[i := set_listener c l' data false]> (st_conns st)
                       ++ conns_of r)
                      (st_log st ++ events_of r)).
    { destruct r as [acts|m]; cbv beta iota zeta in Hd;
        rewrite perform_spec in Hd; injection Hd as <-; eauto. }
    destruct Hst as (data & ->). cbn [st_pool st_conns].
    exists c, (set_listener c l' data false), (conns_of r).
    split; [reflexivity|]. split; [exact Hs|]. split; [by unfold same_query|].
    split; [reflexivity|]. split; [reflexivity|].
    split; [cbn; intros Hl; by destruct (Hdone Hl) as [-> _]|].
    split; [reflexivity|].
    destruct Hnew as [->|(cn & -> & Hnot & Hnow & Hrest)].
    + left. split; [reflexivity|by left].
    + right. left. exists cn. done.
  - unfold onStopRequest in Hd.
    destruct (finished _ _ _ _ _ _) as [[[pool' l'] r]|] eqn:Hf; [|discriminate].
    cbv beta iota zeta in Hd. rewrite perform_spec in Hd. injection Hd as <-.
    cbn [st_pool st_conns st_log].
    exists c, (set_listener c l' (c_data c) true), (conns_of r).
    split; [reflexivity|]. split; [exact Hs|]. split; [by unfold same_query|].
    split; [reflexivity|]. split; [reflexivity|].
    destruct (finished_cases _ _ _ _ _ _ _ _ _ Hf)
      as [(Hst & Hnone & -> & ->)|[(Hst & k & Hk & -> & ->)|(-> & -> & r0 & Hp & Hr)]].
    + assert (l' = c_listener c) as ->.
      { unfold finished in Hf. destruct (Z.eqb_spec status 0); [done|].
        cbn [negb] in Hf. rewrite Hnone in Hf. by inversion Hf. }
      split; [done|]. split; [reflexivity|]. left. split; [reflexivity|by left].
    + assert (l' = c_listener c) as ->.
      { unfold finished in Hf. destruct (Z.eqb_spec status 0); [done|].
        cbn [negb] in Hf. rewrite Hk in Hf. by inversion Hf. }
      split; [done|]. split; [reflexivity|].
      destruct (queryDNSRecursive_cases (mark_dead k (st_pool st)) None (c_host c)
                  (c_recordtype c) (c_hops c) true)
        as [(_ & _ & ->)|[(_ & ->)|[(_ & m & -> & _)
            |(Hh & cn & -> & Hfr & Hhops & Hhost & Hrt & Hq & j & Hj & Hsv)]]].
      * left. split; [reflexivity|right; eauto].
      * left. split; [reflexivity|right; eauto].
      * left. split; [reflexivity|right; eauto].
      * right. right. exists cn, k, j, status. cbn. unfold same_question. done.
    + destruct (process_effect _ _ _ _ _ _ Hp) as (Hdone & Hopen & Hnew).
      split; [cbn; intros Hl; by destruct (Hdone Hl) as [-> _]|].
      split; [reflexivity|].
      assert (Hconns : conns_of r = conns_of r0).
      { destruct Hr as [->|(acts & -> & Hd' & ->)]; [reflexivity|].
        specialize (Hopen Hd'). inversion Hopen; subst. reflexivity. }
      rewrite Hconns.
      destruct Hnew as [->|(cn & -> & Hnot & Hnow & Hrest)].
      * left. split; [reflexivity|by left].
      * right. left. exists cn. done.
Qed.

(** ** Every socket carries the query of the lookup *)

Lemma queryDNS_effect pool host recordtype :
  st_pool (queryDNS pool host recordtype) = pool
  /\ (st_conns (queryDNS pool host recordtype) = []
      \/ exists c j,
           st_conns (queryDNS pool host recordtype) = [c]
           /\ fresh c /\ c_hops c = 0 /\ c_host c = host
           /\ c_recordtype c = recordtype
           /\ encode_query host recordtype = Ok (c_query c)
           /\ first_alive pool = Some (j, c_server c) /\ c_servers c = Some j).
Proof.
  unfold queryDNS. rewrite perform_spec. cbn [st_pool st_conns app].
  split; [reflexivity|].
  destruct (queryDNSRecursive_cases pool None host recordtype 0 true)
    as [(_ & _ & ->)|[(_ & ->)|[(_ & m & -> & _)
        |(_ & c & -> & Hf & Hhops & Hhost & Hrt & Hq & j & Hj & Hsv)]]];
    [by left..|].
  right. exists c, j. done.
Qed.

Lemma reachable_query pool host recordtype st :
  reachable pool host recordtype st ->
  Forall (fun c => encode_query (c_host c) (c_recordtype c) = Ok (c_query c))
         (st_conns st).
Proof.
  unfold reachable. intros Hs.
  remember (queryDNS pool host recordtype) as st0 eqn:Hst0.
  induction Hs as [st|st st' st'' Hs IH Hstep].
  - subst.
    destruct (queryDNS_effect pool host recordtype)
      as (_ & [->|(c & j & -> & _ & _ & Hhost & Hrt & Hq & _)]); [constructor|].
    constructor; [|constructor]. by rewrite Hhost, Hrt.
  - specialize (IH Hst0). destruct Hstep as [depth i e st1 st2 Hd].
    destruct (deliver_effect _ _ _ _ _ Hd)
      as (c & c' & new & Hc & _ & Hsame & Hq & _ & _ & -> & Hnew).
    pose proof (Forall_lookup_1 _ _ _ _ IH Hc) as Hok.
    destruct Hsame as (_ & _ & Hhost & Hrt & _).
    apply Forall_app. split.
    + apply Forall_insert; [exact IH|]. by rewrite Hhost, Hrt, Hq.
    + destruct Hnew as [(-> & _)
                       |[(cn & -> & _ & _ & _ & (_ & Hh & Hr & Hqn) & _)
                        |(cn & k & j & status & -> & _ & _ & _ & _ & _ & _
                          & (_ & Hh & Hr & Hqn) & _)]];
        [constructor| |]; (constructor; [|constructor]); by rewrite Hh, Hr.
Qed.

(** ** The account of referrals *)






(** ** The sockets of the pool *)




Lemma is_referral_same c c' : same_query c c' -> is_referral c' = is_referral c.
Proof. intros (_ & Hsv & _). unfold is_referral. by rewrite Hsv. Qed.




(** ** Receiving a response *)

Lemma fill_header_spec data :
  forall header,
    (length header <= 14)%nat ->
    fill_header header data
    = (header ++ take (14 - length header) data, drop (14 - length header) data).
Proof.
  induction data as [|u data IH]; intros header Hh; cbn [fill_header].
  - by rewrite take_nil, drop_nil, app_nil_r.
  - destruct (Nat.ltb_spec (length header) 14) as [Hlt|Hge].
    + rewrite IH by (rewrite length_app; cbn; lia).
      rewrite length_app. cbn [length].
      replace (14 - length header)%nat with (S (14 - (length header + 1)))%nat by lia.
      cbn [take drop]. by rewrite <- app_assoc.
    + replace (14 - length header)%nat with 0%nat by lia.
      cbn. by rewrite app_nil_r.
Qed.

Lemma substr_0_2 s : substr s (Num 0) (Num 2) = take 2 s.
Proof.
  unfold substr. cbn [ToIntegerOrInfinity].
  change (0 <? 0) with false. cbv iota.
  change (Z.to_nat (0 `min` Z.of_nat (length s))) with
    (Z.to_nat (Z.min 0 (Z.of_nat (length s)))).
  rewrite (Z.min_l 0) by lia. cbn [Z.to_nat drop].
  destruct (decide (2 <= length s)%nat) as [Hle|Hgt].
  - f_equal. lia.
  - rewrite (take_ge s 2) by lia. apply take_ge. lia.
Qed.

Lemma strToWord_short s : (length s < 2)%nat -> DNS_strToWord s = NaN.
Proof.
  intros Hs. unfold DNS_strToWord.
  assert (charCodeAt s (Num 1) = NaN) as ->; [|reflexivity].
  unfold charCodeAt. cbn [ToIntegerOrInfinity].
  destruct (Z.leb_spec (Z.of_nat (length s)) 1); [|lia].
  by rewrite orb_true_r.
Qed.

Lemma framed_response_complete_prefix a b :
  framed_response_complete (a ++ b) = false -> framed_response_complete a = false.
Proof.
  unfold framed_response_complete. rewrite !substr_0_2.
  destruct (decide (2 <= length a)%nat) as [Hle|Hgt].
  - rewrite take_app_le by lia.
    destruct (add (DNS_strToWord (take 2 a)) (Num 2)) as [m|]; [|done].
    unfold geb. rewrite length_app. intros Hab.
    apply Z.leb_gt in Hab. apply Z.leb_gt. lia.
  - rewrite (strToWord_short (take 2 a)) by (rewrite length_take; lia).
    reflexivity.
Qed.

Lemma response_received_prefix a b :
  response_received (a ++ b) = false -> response_received a = false.
Proof.
  unfold response_received. intros Hab.
  destruct (Nat.leb_spec 14 (length a)) as [Hle|Hlt]; [|reflexivity].
  destruct (Nat.leb_spec 14 (length (a ++ b))) as [_|Hlt'].
  - cbn [andb] in *. by eapply framed_response_complete_prefix.
  - rewrite length_app in Hlt'. lia.
Qed.

Lemma incomplete_not_received received :
  framed_response_complete received = false -> response_received received = false.
Proof. unfold response_received. intros ->. apply andb_false_r. Qed.

(** What [process] makes of [data] after [received]: the header it
    fills, the units it leaves to the body. *)
Lemma process_header l received data :
  receiving received l ->
  let k := (14 - length (responseHeader l))%nat in
  let header := responseHeader l ++ take k data in
  let body := responseBody l ++ drop k data in
  fill_header (responseHeader l) data = (header, drop k data)
  /\ header ++ body = received ++ data
  /\ readcount l + Z.of_nat (length data) = Z.of_nat (length (received ++ data))
  /\ (length header <= 14)%nat
  /\ ((length header =? 14)%nat = (14 <=? length (received ++ data))%nat)
  /\ ((length header < 14)%nat -> body = [])
  /\ ((length header = 14)%nat ->
      substr header (Num 0) (Num 2) = take 2 (received ++ data)).
Proof.
  intros (Hdone & Hcount & Hrecv & Hlen & Hbody) k header body.
  assert (Hall : header ++ body = received ++ data).
  { subst header body.
    destruct (decide (length (responseHeader l) < 14)%nat) as [Hlt|Hge].
    - rewrite (Hbody Hlt) in *. rewrite app_nil_r in Hrecv. cbn [app].
      rewrite <- app_assoc, take_drop. by rewrite Hrecv.
    - replace k with 0%nat by (subst k; lia). cbn [take drop].
      rewrite app_nil_r, app_assoc. by rewrite Hrecv. }
  assert (Hheader : length header = (length (responseHeader l)
                                     + Nat.min k (length data))%nat).
  { subst header. by rewrite length_app, length_take. }
  assert (Htotal : (length (received ++ data)
                    = length (responseHeader l) + length (responseBody l)
                      + length data)%nat).
  { rewrite <- Hrecv, !length_app. lia. }
  split; [by apply fill_header_spec|]. split; [exact Hall|].
  split; [rewrite length_app; lia|]. split; [subst k; lia|].
  split.
  { destruct (decide (length (responseHeader l) < 14)%nat) as [Hlt|Hge].
    - pose proof (Hbody Hlt) as Hb. rewrite Hb in Htotal. cbn [length] in Htotal.
      destruct (Nat.eqb_spec (length header) 14), (Nat.leb_spec 14 (length (received ++ data)));
        subst k; try reflexivity; lia.
    - destruct (Nat.eqb_spec (length header) 14), (Nat.leb_spec 14 (length (received ++ data)));
        subst k; try reflexivity; lia. }
  split.
  { intros Hlt. subst body.
    assert (Hh : (length (responseHeader l) < 14)%nat) by lia.
    rewrite (Hbody Hh). cbn [app]. apply drop_ge. subst k. lia. }
  intros H14. rewrite substr_0_2, <- Hall.
  rewrite (take_app_le header) by lia. reflexivity.
Qed.

(** As long as the response is not whole, [process] only stores what
    comes. *)
Lemma process_incomplete depth c l received data :
  receiving received l ->
  response_received (received ++ data) = false ->
  exists l',
    process depth c l data = Some (l', Ok [])
    /\ receiving (received ++ data) l'.
Proof.
  intros Hrecv Hinc.
  destruct (process_header l received data Hrecv)
    as (Hfill & Hall & Hcount & Hlen & H14 & Hbody & Hmsg).
  destruct Hrecv as (Hdone & _).
  unfold process. rewrite Hdone, Hfill. cbv zeta. rewrite H14, Hcount.
  unfold response_received in Hinc.
  destruct (Nat.leb_spec 14 (length (received ++ data))) as [Hle|Hlt].
  - cbn [andb] in Hinc.
    assert (Hh : (length (responseHeader l
                          ++ take (14 - length (responseHeader l)) data) = 14)%nat).
    { apply Nat.eqb_eq. exact H14. }
    rewrite (Hmsg Hh).
    unfold framed_response_complete in Hinc. rewrite substr_0_2 in Hinc.
    rewrite Hinc.
    eexists. split; [reflexivity|]. unfold receiving.
    cbn [done readcount responseHeader responseBody].
    split; [done|]. split; [done|]. split; [exact Hall|]. split; [exact Hlen|]. lia.
  - assert (Hh : (length (responseHeader l
                          ++ take (14 - length (responseHeader l)) data) < 14)%nat).
    { apply Nat.eqb_neq in H14. lia. }
    pose proof (Hbody Hh) as Hnil. rewrite Hnil, app_nil_r in Hall.
    apply app_eq_nil in Hnil as [Hb _].
    eexists. split; [reflexivity|]. unfold receiving.
    cbn [done readcount responseHeader responseBody].
    split; [done|]. split; [reflexivity|].
    split; [by rewrite Hb, app_nil_r|]. split; [exact Hlen|]. intros _. exact Hb.
Qed.

(** With the piece that makes the response whole, [process] hands it,
    without its length prefix, to DNS_getRDData. *)
Lemma process_completes depth c l received data r :
  receiving received l ->
  response_received (received ++ data) = true ->
  DNS_getRDData depth (drop 2 (received ++ data)) (c_server c) (c_hops c) = Some r ->
  exists l',
    process depth c l data
    = Some (l', match r with Ok a => follow c a | Thrown m => Thrown m end)
    /\ done l' = true.
Proof.
  intros Hrecv Hfull Hrd.
  destruct (process_header l received data Hrecv)
    as (Hfill & Hall & Hcount & Hlen & H14 & Hbody & Hmsg).
  destruct Hrecv as (Hdone & _).
  unfold response_received in Hfull. apply andb_true_iff in Hfull as [Hle Hfull].
  unfold process. rewrite Hdone, Hfill. cbv zeta. rewrite H14, Hle, Hcount.
  assert (Hh : (length (responseHeader l
                        ++ take (14 - length (responseHeader l)) data) = 14)%nat).
  { apply Nat.eqb_eq. by rewrite H14. }
  rewrite (Hmsg Hh).
  unfold framed_response_complete in Hfull. rewrite substr_0_2 in Hfull.
  rewrite Hfull.
  rewrite <- (drop_app_le (responseHeader l ++ take (14 - length (responseHeader l)) data))
    by lia.
  rewrite Hall, Hrd. destruct r; eauto.
Qed.

Lemma deliver_all_app depth i es1 es2 st :
  deliver_all depth i (es1 ++ es2) st
  = match deliver_all depth i es1 st with
    | Some st' => deliver_all depth i es2 st'
    | None => None
    end.
Proof.
  revert st. induction es1 as [|e es1 IH]; intros st; cbn [app deliver_all]; [done|].
  destruct (deliver depth i e st); [apply IH|done].
Qed.

Lemma same_query_trans c1 c2 c3 : same_query c1 c2 -> same_query c2 c3 -> same_query c1 c3.
Proof.
  intros (H1 & H2 & H3 & H4 & H5) (H1' & H2' & H3' & H4' & H5'). unfold same_query.
  rewrite H1', H2', H3', H4', H5'. done.
Qed.

(** The pieces of a response that is not whole leave the lookup as it
    is, but for the listener. *)
Lemma deliver_incomplete depth i chunks :
  forall st c received,
    st_conns st !! i = Some c ->
    c_stopped c = false -> c_data c = [] ->
    receiving received (c_listener c) ->
    response_received (received ++ concat chunks) = false ->
    exists st' c',
      deliver_all depth i (map DataAvailable chunks) st = Some st'
      /\ st_conns st' !! i = Some c'
      /\ same_query c c'
      /\ c_stopped c' = false /\ c_data c' = []
      /\ receiving (received ++ concat chunks) (c_listener c')
      /\ st_log st' = st_log st /\ st_pool st' = st_pool st
      /\ length (st_conns st') = length (st_conns st).
Proof.
  induction chunks as [|chunk chunks IH]; intros st c received Hc Hstop Hdata Hrecv Hinc.
  - exists st, c. cbn [concat] in *. rewrite app_nil_r in *.
    split; [reflexivity|]. split; [exact Hc|]. split; [by unfold same_query|].
    split; [exact Hstop|]. split; [exact Hdata|]. split; [exact Hrecv|]. done.
  - cbn [concat] in Hinc. rewrite app_assoc in Hinc.
    pose proof (response_received_prefix _ _ Hinc) as Hinc1.
    destruct (process_incomplete depth c _ _ chunk Hrecv Hinc1) as (l' & Hp & Hrecv').
    cbn [map deliver_all]. unfold deliver at 1. rewrite Hc, Hstop.
    unfold onDataAvailable. rewrite Hdata. cbn [app]. rewrite Hp.
    rewrite perform_spec.
    cbn [st_pool st_conns st_log conns_of events_of omap map].
    rewrite !app_nil_r.
    set (c1 := set_listener c l' [] false).
    set (st1 := State (st_pool st) (<[i := c1]> (st_conns st)) (st_log st)).
    assert (Hc1 : st_conns st1 !! i = Some c1).
    { apply list_lookup_insert_eq. by eapply lookup_lt_Some. }
    destruct (IH st1 c1 (received ++ chunk) Hc1 eq_refl eq_refl Hrecv' Hinc)
      as (st' & c' & Hrun & Hc' & Hsame & Hstop' & Hdata' & Hrecv'' & Hlog & Hpool & Hlength).
    exists st', c'. split; [exact Hrun|]. split; [exact Hc'|].
    split; [eapply same_query_trans; [|exact Hsame]; by unfold same_query|].
    split; [exact Hstop'|]. split; [exact Hdata'|].
    split; [cbn [concat]; rewrite app_assoc; exact Hrecv''|].
    split; [exact Hlog|]. split; [exact Hpool|].
    rewrite Hlength. cbn. apply length_insert.
Qed.

Lemma new_listener_receiving : receiving [] new_listener.
Proof. unfold receiving. cbn. repeat split; (done || lia). Qed.

(** A response that arrives whole with [last]: the pieces before are
    stored, and [last] brings what DNS_getRDData makes of the response,
    leaving the listener done. *)
Lemma deliver_response depth i st c chunks last r :
  st_conns st !! i = Some c ->
  fresh c ->
  arrives_with chunks last ->
  DNS_getRDData depth (drop 2 (concat chunks ++ last)) (c_server c) (c_hops c) = Some r ->
  exists st' c',
    deliver_all depth i (map DataAvailable (chunks ++ [last])) st = Some st'
    /\ st_pool st' = st_pool st
    /\ st_log st'
       = st_log st
         ++ events_of (match r with Ok a => follow c a | Thrown m => Thrown m end)
    /\ (length (st_conns st')
        = length (st_conns st)
          + length (conns_of (match r with Ok a => follow c a | Thrown m => Thrown m end)))%nat
    /\ st_conns st' !! i = Some c'
    /\ same_query c c' /\ c_stopped c' = false /\ done (c_listener c') = true.
Proof.
  intros Hc (Hl & Hdata & Hstop) (Hbefore & Hwhole) Hrd.
  assert (Hrecv : receiving [] (c_listener c)).
  { rewrite Hl. apply new_listener_receiving. }
  destruct (deliver_incomplete depth i chunks st c [] Hc Hstop Hdata Hrecv Hbefore)
    as (st1 & c1 & Hrun & Hc1 & Hsame & Hstop1 & Hdata1 & Hrecv1 & Hlog & Hpool & Hlength).
  cbn [app] in Hrecv1.
  destruct Hsame as (Hserver & Hservers & Hhost & Hrt & Hhops).
  rewrite <- Hserver, <- Hhops in Hrd.
  destruct (process_completes depth c1 _ _ last r Hrecv1 Hwhole Hrd) as (l' & Hp & Hdone).
  assert (Hfollow : match r with Ok a => follow c1 a | Thrown m => Thrown m end
                    = match r with Ok a => follow c a | Thrown m => Thrown m end).
  { destruct r as [a|m]; [|reflexivity]. unfold follow. by rewrite Hhost, Hrt. }
  rewrite Hfollow in Hp.
  rewrite map_app, deliver_all_app, Hrun. cbn [map deliver_all].
  unfold deliver. rewrite Hc1, Hstop1. unfold onDataAvailable.
  rewrite Hdata1. cbn [app]. rewrite Hp.
  assert (Hi : (i < length (st_conns st1))%nat) by (by eapply lookup_lt_Some).
  destruct (match r with Ok a => follow c a | Thrown m => Thrown m end) as [acts|m];
    rewrite perform_spec; cbn [st_pool st_conns st_log];
    eexists; eexists; (split; [reflexivity|]); cbn [st_pool st_conns st_log];
    rewrite Hlog, Hpool, <- Hlength;
    (split; [reflexivity|]); (split; [reflexivity|]);
    (split; [by rewrite length_app, length_insert|]);
    (split; [rewrite lookup_app_l by (by rewrite length_insert);
             by apply list_lookup_insert_eq|]);
    cbn [set_listener c_server c_servers c_host c_recordtype c_hops c_stopped c_listener];
    unfold same_query;
    cbn [set_listener c_server c_servers c_host c_recordtype c_hops c_stopped c_listener];
    done.
Qed.

(** Data for a socket whose listener is done changes nothing but the
    socket's record. *)
Lemma deliver_done depth i chunks :
  forall st c,
    st_conns st !! i = Some c ->
    c_stopped c = false ->
    done (c_listener c) = true ->
    exists st' c',
      deliver_all depth i (map DataAvailable chunks) st = Some st'
      /\ st_pool st' = st_pool st
      /\ st_log st' = st_log st
      /\ length (st_conns st') = length (st_conns st)
      /\ st_conns st' !! i = Some c'
      /\ same_query c c' /\ c_stopped c' = false /\ done (c_listener c') = true.
Proof.
  induction chunks as [|ch chunks IH]; intros st c Hc Hstop Hdone.
  - exists st, c. cbn [map deliver_all]. by unfold same_query.
  - cbn [map deliver_all]. unfold deliver. rewrite Hc, Hstop.
    unfold onDataAvailable, process. rewrite Hdone. cbv beta iota.
    cbn [perform fold_left].
    set (c1 := set_listener c (c_listener c) [] false).
    set (st1 := State (st_pool st) (<[i:=c1]> (st_conns st)) (st_log st)).
    assert (Hi : (i < length (st_conns st))%nat) by (by eapply lookup_lt_Some).
    assert (Hc1 : st_conns st1 !! i = Some c1).
    { subst st1. cbn [st_conns]. by apply list_lookup_insert_eq. }
    destruct (IH st1 c1 Hc1 eq_refl Hdone)
      as (st' & c' & Hrun & Hpool & Hlog & Hlen & Hc' & Hsame & Hstop' & Hdone').
    exists st', c'. split; [exact Hrun|]. split; [exact Hpool|].
    split; [exact Hlog|].
    split; [rewrite Hlen; subst st1; cbn [st_conns]; apply length_insert|].
    split; [exact Hc'|]. split; [|done].
    eapply same_query_trans; [|exact Hsame]. by unfold same_query.
Qed.

(** The end of the stream, with status 0, for a socket whose listener
    is done. *)
Lemma stop_done depth i st c :
  st_conns st !! i = Some c ->
  c_stopped c = false ->
  done (c_listener c) = true ->
  exists st',
    deliver depth i (StopRequest 0) st = Some st'
    /\ st_pool st' = st_pool st
    /\ st_log st' = st_log st
    /\ length (st_conns st') = length (st_conns st).
Proof.
  intros Hc Hstop Hdone. unfold deliver. rewrite Hc, Hstop.
  unfold onStopRequest, finished. change (0 =? 0) with true. cbn [negb].
  unfold process. rewrite Hdone. cbv beta iota. rewrite Hdone.
  cbn [negb perform fold_left]. eexists. split; [reflexivity|].
  cbn [st_pool st_log st_conns]. by rewrite length_insert.
Qed.


(** ** The hop counter *)


(** ** Failover *)

(** C6 (amended): when the socket of a pool entry reports a connect
    failure, the entry is marked not alive and the same query (host,
    record type and message) goes, on a new socket and at the same hop
    count, to the first alive entry of the pool (or the lookup ends
    with NO_SERVER_ALIVE when there is none); from then on no socket
    is opened for the entry that failed, as an entry of the pool. *)
Theorem failover_marks_dead_and_retries pool host recordtype st depth i c k status :
  reachable pool host recordtype st ->
  st_conns st !! i = Some c ->
  c_stopped c = false ->
  c_servers c = Some k ->
  status <> 0 ->
  exists st',
    deliver depth i (StopRequest status) st = Some st'
    /\ st_pool st' = mark_dead k (st_pool st)
    /\ dead k (st_pool st')
    /\ match first_alive (st_pool st') with
       | Some (j, name) =>
           j <> k
           /\ (forall j', (j' < j)%nat -> dead j' (st_pool st'))
           /\ st_log st' = st_log st ++ [EvConnect name (c_hops c) (Some j)]
           /\ exists c',
                drop (length (st_conns st)) (st_conns st') = [c']
                /\ c_server c' = name /\ c_servers c' = Some j
                /\ c_hops c' = c_hops c
                /\ c_host c' = c_host c /\ c_recordtype c' = c_recordtype c
                /\ c_query c' = c_query c /\ fresh c'
       | None =>
           st_log st' = st_log st ++ [EvCallback None (Some NO_SERVER_ALIVE)]
           /\ length (st_conns st') = length (st_conns st)
       end
    /\ forall st'',
         steps st' st'' ->
         forall j c'',
           (length (st_conns st) <= j)%nat ->
           st_conns st'' !! j = Some c'' ->
           c_servers c'' <> Some k.
Proof.
  intros Hreach Hc Hstop Hk Hst.
  pose proof (Forall_lookup_1 _ _ _ _ (reachable_ok _ _ _ _ Hreach) Hc)
    as (_ & _ & Hhops & _).
  pose proof (Forall_lookup_1 _ _ _ _ (reachable_query _ _ _ _ Hreach) Hc) as Hq.
  assert (Hd : deliver depth i (StopRequest status) st
               = Some (perform (State (mark_dead k (st_pool st))
                                  (<[i := set_listener c (c_listener c) (c_data c) true]>
                                     (st_conns st))
                                  (st_log st))
                         (queryDNSRecursive (mark_dead k (st_pool st)) None
                            (c_host c) (c_recordtype c) (c_hops c) true))).
  { unfold deliver. rewrite Hc, Hstop. unfold onStopRequest, finished.
    destruct (Z.eqb_spec status 0) as [|_]; [done|]. cbn [negb].
    rewrite Hk. reflexivity. }
  eexists. split; [exact Hd|]. rewrite perform_spec. cbn [st_pool st_conns st_log].
  split; [reflexivity|]. split; [apply mark_dead_dead|].
  set (pool' := mark_dead k (st_pool st)).
  assert (Hcases :
    match first_alive pool' with
    | Some (j, name) =>
        exists c',
          queryDNSRecursive pool' None (c_host c) (c_recordtype c) (c_hops c) true
          = Ok [AConnect c']
          /\ c_server c' = name /\ c_servers c' = Some j /\ c_hops c' = c_hops c
          /\ c_host c' = c_host c /\ c_recordtype c' = c_recordtype c
          /\ c_query c' = c_query c /\ fresh c'
    | None =>
        queryDNSRecursive pool' None (c_host c) (c_recordtype c) (c_hops c) true
        = Ok [ACallback None (Some NO_SERVER_ALIVE)]
    end).
  { unfold queryDNSRecursive.
    destruct (first_alive pool') as [[j name]|]; cbn [fst snd]; [|reflexivity].
    destruct (Z.eqb_spec (c_hops c) 10) as [|_]; [lia|].
    rewrite Hq.
    destruct (indexOf 58 name); eexists; (split; [reflexivity|]); done. }
  split.
  - destruct (first_alive pool') as [[j name]|] eqn:Hfirst.
    + destruct Hcases as (c' & Hcall & Hname & Hsv & Hh & Hsame). rewrite Hcall.
      pose proof (first_alive_spec _ _ _ Hfirst) as (_ & _ & _ & _ & Hbefore).
      split; [eapply first_alive_not_dead; [exact Hfirst|apply mark_dead_dead]|].
      split; [exact Hbefore|].
      cbn [events_of conns_of map omap event_of conn_of].
      rewrite Hname, Hsv, Hh. split; [reflexivity|].
      exists c'. split; [|done].
      cbn. rewrite drop_app_length' by (by rewrite length_insert). reflexivity.
    + rewrite Hcases. cbn. split; [reflexivity|].
      by rewrite app_nil_r, length_insert.
  - intros st'' Hsteps.
    eapply dead_entry_never_selected; [exact Hsteps|apply mark_dead_dead|].
    cbn [st_conns]. intros j cj Hj Hcj.
    rewrite lookup_app_r in Hcj by (rewrite length_insert; lia).
    rewrite length_insert in Hcj.
    destruct (first_alive pool') as [[j0 name]|] eqn:Hfirst.
    + destruct Hcases as (c' & Hcall & _ & Hsv & _). rewrite Hcall in Hcj. cbn in Hcj.
      destruct (j - length (st_conns st))%nat; cbn in Hcj; [|discriminate].
      inversion Hcj; subst. rewrite Hsv. intros [= ->].
      eapply first_alive_not_dead; [exact Hfirst|apply mark_dead_dead|done].
    + rewrite Hcases in Hcj. cbn in Hcj.
      by rewrite lookup_nil in Hcj.
Qed.

(** ** Transport errors *)

Lemma connect_error_is_transport_error status server result :
  is_transport_error (EvCallback result (Some (connect_error status server))) = true.
Proof.
  unfold connect_error.
  repeat match goal with |- context [if ?b then _ else _] => destruct b end;
    reflexivity.
Qed.

(** C9 (amended): a connect failure is reported to the callback as
    CONNECTION_REFUSED, TIMED_OUT or SERVER_ERROR exactly when the
    query was made without a pool, to the server named by a referral;
    a query made from the pool, whatever the size of the pool, keeps
    the failure to itself. *)
Theorem transport_error_surfaced_iff_no_pool depth st i c status st' :
  st_conns st !! i = Some c ->
  status <> 0 ->
  deliver depth i (StopRequest status) st = Some st' ->
  exists new,
    st_log st' = st_log st ++ new
    /\ (existsb is_transport_error new = true <-> c_servers c = None)
    /\ (c_servers c = None ->
        new = [EvCallback None (Some (connect_error status (c_server c)))]).
Proof.
  intros Hc Hst Hd.
  destruct (deliver_cases _ _ _ _ _ Hd) as (c0 & c' & r & Hc0 & _ & _ & _ & Hlog & l' & Hf).
  rewrite Hc in Hc0. inversion Hc0; subst c0.
  exists (events_of r). split; [exact Hlog|].
  destruct (finished_cases _ _ _ _ _ _ _ _ _ Hf)
    as [(_ & Hnone & _ & ->)|[(_ & k & Hk & _ & ->)|(-> & _)]]; [| |done].
  - cbn [events_of map event_of existsb].
    rewrite connect_error_is_transport_error. done.
  - rewrite Hk. split; [|done]. split; [|done].
    destruct (queryDNSRecursive_cases (st_pool st') None (c_host c)
                (c_recordtype c) (c_hops c) true)
      as [(_ & _ & ->)|[(_ & ->)|[(_ & m & -> & _)|(_ & cn & -> & _)]]];
      cbn; discriminate.
Qed.

(** ** Incomplete responses *)

(** C7: when the stream of a socket ends with status 0 before the
    bytes received make the whole framed message, the callback is
    called with INCOMPLETE_RESPONSE for the server of that socket;
    the pool is left as it was and no other socket is opened. *)
Theorem incomplete_response_fails_lookup depth st i c chunks :
  st_conns st !! i = Some c ->
  fresh c ->
  framed_response_complete (concat chunks) = false ->
  exists st',
    deliver_all depth i (map DataAvailable chunks ++ [StopRequest 0]) st = Some st'
    /\ st_log st'
       = st_log st ++ [EvCallback None (Some (INCOMPLETE_RESPONSE (c_server c)))]
    /\ st_pool st' = st_pool st
    /\ length (st_conns st') = length (st_conns st).
Proof.
  intros Hc (Hl & Hdata & Hstop) Hinc.
  assert (Hrecv : receiving [] (c_listener c)).
  { rewrite Hl. apply new_listener_receiving. }
  destruct (deliver_incomplete depth i chunks st c [] Hc Hstop Hdata Hrecv
              (incomplete_not_received _ Hinc))
    as (st1 & c1 & Hrun & Hc1 & Hsame & Hstop1 & Hdata1 & Hrecv1 & Hlog & Hpool & Hlength).
  cbn [app] in Hrecv1.
  rewrite deliver_all_app, Hrun. cbn [deliver_all].
  assert (Hinc' : response_received (concat chunks ++ []) = false).
  { rewrite app_nil_r. by apply incomplete_not_received. }
  destruct (process_incomplete depth c1 _ _ [] Hrecv1 Hinc') as (l' & Hp & Hrecv').
  unfold deliver. rewrite Hc1, Hstop1. unfold onStopRequest, finished.
  change (0 =? 0) with true. cbn [negb]. rewrite Hdata1, Hp.
  destruct Hrecv' as (Hdone' & _). rewrite Hdone'. cbn [negb app].
  rewrite perform_spec.
  cbn [st_pool st_conns st_log conns_of events_of omap map event_of conn_of].
  destruct Hsame as (Hserver & _). rewrite Hserver, Hlog, Hpool.
  eexists. split; [reflexivity|]. cbn [st_log st_pool st_conns].
  split; [reflexivity|]. split; [reflexivity|].
  by rewrite app_nil_r, length_insert.
Qed.

(** ** Responses the decoder rejects *)

(** C8 (amended): when the response has arrived whole and its QDCOUNT
    is not 1, or one of its other counts is above 128, or its answer
    section holds a record of a type the decoder does not recognize,
    DNS_getRDData throws.  The exception leaves the handler: the
    event that brought the response calls no callback and opens no
    socket, and data that comes later adds nothing.  What the end of
    the stream does then depends on its status alone.  With status
    0 nothing happens, and the caller is never called.  With another
    status the listener takes it for a failure to connect: a socket
    of a referral calls the callback with that transport error, a
    socket of the pool marks its entry not alive and the lookup goes
    on with the first alive server of the pool, or calls the callback
    with NO_SERVER_ALIVE when there is none. *)
Theorem invalid_response_is_thrown pool host recordtype depth st i c chunks last
    more status :
  let str := drop 2 (concat chunks ++ last) in
  let qcount := DNS_strToWord (substr str (Num 4) (Num 2)) in
  let ancount := DNS_strToWord (substr str (Num 6) (Num 2)) in
  let aucount := DNS_strToWord (substr str (Num 8) (Num 2)) in
  let adcount := DNS_strToWord (substr str (Num 10) (Num 2)) in
  st_conns st !! i = Some c ->
  fresh c ->
  arrives_with chunks last ->
  eqb qcount (Num 1) = false
  \/ gtb ancount (Num 128) = true
  \/ gtb aucount (Num 128) = true
  \/ gtb adcount (Num 128) = true
  \/ (exists cq recs c',
        read_questions depth (loop_count qcount) (Ctx str (Num 12)) = Some cq
        /\ read_records depth (loop_count ancount) [] cq = Some (recs, c')
        /\ Exists (fun r => rec_recognized r = false) recs) ->
  exists msg st' st'',
    InvalidResponse msg
    /\ deliver_all depth i (map DataAvailable (chunks ++ [last])) st = Some st'
    /\ st_log st' = st_log st ++ [EvThrow msg]
    /\ st_pool st' = st_pool st
    /\ length (st_conns st') = length (st_conns st)
    /\ deliver_all depth i (map DataAvailable more ++ [StopRequest status]) st'
       = Some st''
    /\ if status =? 0 then
         st_log st'' = st_log st' /\ st_pool st'' = st_pool st
         /\ length (st_conns st'') = length (st_conns st)
       else
         match c_servers c with
         | None =>
             st_log st''
             = st_log st'
               ++ [EvCallback None (Some (connect_error status (c_server c)))]
             /\ st_pool st'' = st_pool st
             /\ length (st_conns st'') = length (st_conns st)
         | Some k =>
             let retry :=
               queryDNSRecursive (mark_dead k (st_pool st)) None
                 (c_host c) (c_recordtype c) (c_hops c) true in
             st_log st'' = st_log st' ++ events_of retry
             /\ st_pool st'' = mark_dead k (st_pool st)
             /\ (length (st_conns st'')
                 = length (st_conns st) + length (conns_of retry))%nat
             /\ (reachable pool host recordtype st ->
                 events_of retry
                 = match first_alive (mark_dead k (st_pool st)) with
                   | Some (j, name) => [EvConnect name (c_hops c) (Some j)]
                   | None => [EvCallback None (Some NO_SERVER_ALIVE)]
                   end)
         end.
Proof.
  intros str qcount ancount aucount adcount Hc Hfresh Harr Hbad.
  destruct (getRDData_rejects depth str (c_server c) (c_hops c) Hbad)
    as (msg & Hmsg & Hrd).
  destruct (deliver_response _ _ _ _ _ _ _ Hc Hfresh Harr Hrd)
    as (st' & c' & Hrun & Hpool & Hlog & Hlength & Hc' & Hsame & Hstop' & Hdone').
  cbn in Hlog, Hlength.
  destruct (deliver_done depth i more st' c' Hc' Hstop' Hdone')
    as (st1 & c1 & Hrun1 & Hpool1 & Hlog1 & Hlen1 & Hc1 & Hsame1 & Hstop1 & Hdone1).
  pose proof (same_query_trans _ _ _ Hsame Hsame1)
    as (Hserver & Hservers & Hhost & Hrt & Hhops).
  exists msg, st'.
  assert (Hi : (i < length (st_conns st1))%nat) by (by eapply lookup_lt_Some).
  destruct (Z.eqb_spec status 0) as [->|Hstatus].
  - destruct (stop_done depth i st1 c1 Hc1 Hstop1 Hdone1)
      as (st2 & Hrun2 & Hpool2 & Hlog2 & Hlen2).
    exists st2. split; [exact Hmsg|]. split; [exact Hrun|]. split; [exact Hlog|].
    split; [exact Hpool|]. split; [lia|].
    split; [by rewrite deliver_all_app, Hrun1; cbn [deliver_all]; rewrite Hrun2|].
    split; [congruence|]. split; [congruence|]. lia.
  - assert (Hd : deliver depth i (StopRequest status) st1
                 = Some (perform
                           (State (match c_servers c with
                                   | Some k => mark_dead k (st_pool st1)
                                   | None => st_pool st1
                                   end)
                              (<[i := set_listener c1 (c_listener c1) (c_data c1) true]>
                                 (st_conns st1))
                              (st_log st1))
                           (match c_servers c with
                            | Some k =>
                                queryDNSRecursive (mark_dead k (st_pool st1)) None
                                  (c_host c) (c_recordtype c) (c_hops c) true
                            | None =>
                                Ok [ACallback None
                                      (Some (connect_error status (c_server c)))]
                            end))).
    { unfold deliver. rewrite Hc1, Hstop1. unfold onStopRequest, finished.
      destruct (Z.eqb_spec status 0) as [|_]; [done|]. cbn [negb].
      rewrite Hservers, Hserver, Hhost, Hrt, Hhops.
      destruct (c_servers c); reflexivity. }
    eexists. split; [exact Hmsg|]. split; [exact Hrun|]. split; [exact Hlog|].
    split; [exact Hpool|]. split; [lia|].
    split; [by rewrite deliver_all_app, Hrun1; cbn [deliver_all]; rewrite Hd|].
    rewrite perform_spec. cbn [st_log st_pool st_conns].
    rewrite Hlog1, Hpool1, Hpool.
    destruct (c_servers c) as [k|]; cbv zeta.
    + split; [reflexivity|]. split; [reflexivity|].
      split; [rewrite length_app, length_insert; lia|].
      intros Hreach.
      pose proof (Forall_lookup_1 _ _ _ _ (reachable_ok _ _ _ _ Hreach) Hc)
        as (_ & _ & Hbound & _).
      pose proof (Forall_lookup_1 _ _ _ _ (reachable_query _ _ _ _ Hreach) Hc) as Hq.
      unfold queryDNSRecursive.
      destruct (first_alive (mark_dead k (st_pool st))) as [[j name]|];
        cbn [fst snd]; [|reflexivity].
      destruct (Z.eqb_spec (c_hops c) 10) as [|_]; [lia|].
      rewrite Hq. destruct (indexOf 58 name); reflexivity.
    + cbn [events_of conns_of map omap event_of conn_of].
      split; [reflexivity|]. split; [reflexivity|].
      rewrite app_nil_r, length_insert. lia.
Qed.


End ResolverProperties.

Lemma run_steps depth script :
  forall st st', run (H := mozilla) depth script st = Some st' ->
                 steps (H := mozilla) st st'.
Proof.
  induction script as [|[i e] script IH]; intros st st' Hrun; cbn [run] in Hrun.
  - inversion Hrun; subst. apply steps_refl.
  - destruct (deliver depth i e st) as [st1|] eqn:Hd; [|discriminate].
    assert (Hgen : forall a b, steps (H := mozilla) a b ->
                               forall z, step (H := mozilla) z a -> steps (H := mozilla) z b).
    { intros a b Hab. induction Hab as [a|a b b' Hab IHab Hb]; intros z Hz.
      - eapply steps_step; [apply steps_refl|exact Hz].
      - eapply steps_step; [by apply IHab|exact Hb]. }
    eapply Hgen; [apply IH; exact Hrun|]. econstructor. exact Hd.
Qed.



Lemma failover_marks_dead_and_retries_witness :
  exists c st',
    st_conns (queryDNS pool_of_two (lit "example.org") "A") !! 0%nat = Some c
    /\ c_servers c = Some 0%nat
    /\ deliver (H := mozilla) 1 0 (StopRequest 2152398861)
         (queryDNS pool_of_two (lit "example.org") "A") = Some st'
    /\ st_pool st' = mark_dead 0 pool_of_two
    /\ st_log st'
       = [EvConnect (lit "8.8.8.8") 0 (Some 0%nat);
          EvConnect (lit "8.8.4.4") 0 (Some 1%nat)].
Proof.
  destruct (st_conns (queryDNS pool_of_two (lit "example.org") "A") !! 0%nat)
    as [c|] eqn:Hc; [|vm_compute in Hc; discriminate].
  exists c.
  assert (Hstop : c_stopped c = false).
  { vm_compute in Hc. injection Hc as <-. reflexivity. }
  assert (Hk : c_servers c = Some 0%nat).
  { vm_compute in Hc. injection Hc as <-. reflexivity. }
  destruct (failover_marks_dead_and_retries (H := mozilla) pool_of_two
              (lit "example.org") "A" (queryDNS pool_of_two (lit "example.org") "A")
              1 0 c 0 2152398861 (steps_refl _) Hc Hstop Hk ltac:(lia))
    as (st' & Hd & Hpool & _ & Hnext & _).
  exists st'. split; [reflexivity|]. split; [exact Hk|]. split; [exact Hd|].
  split; [exact Hpool|].
  rewrite Hpool in Hnext.
  change (first_alive (mark_dead 0 pool_of_two))
    with (Some (1%nat, lit "8.8.4.4")) in Hnext.
  destruct Hnext as (_ & _ & Hlog & _).
  rewrite Hlog. vm_compute in Hc. injection Hc as <-. reflexivity.
Defined.

(** C6 as stated fails: the first server of the pool refuses the
    connection and its entry is marked not alive; the second server
    answers with a referral to the first, and the lookup queries it
    again, while its entry is still not alive. *)
Lemma dead_server_is_queried_again :
  option_map (fun st => (st_pool st, st_log st))
    (run (H := mozilla) 2
       [(0%nat, StopRequest 2152398861);
        (1%nat, DataAvailable (frame (referral_to (lit "ns1"))))]
       (queryDNS pool_with_ns1 (lit "example.org") "A"))
  = Some ([Nameserver (lit "ns1.example.org") false;
           Nameserver (lit "8.8.4.4") true],
          [EvConnect (lit "ns1.example.org") 0 (Some 0%nat);
           EvConnect (lit "8.8.4.4") 0 (Some 1%nat);
           EvConnect (lit "ns1.example.org") 1 None]).
Proof. vm_compute; reflexivity. Qed.

Lemma incomplete_response_fails_lookup_witness :
  exists c st',
    st_conns (queryDNS pool_of_two (lit "example.org") "A") !! 0%nat = Some c
    /\ framed_response_complete (concat [[0; 40]; [0; 0; 129]]) = false
    /\ deliver_all (H := mozilla) 1 0
         (map DataAvailable [[0; 40]; [0; 0; 129]] ++ [StopRequest 0])
         (queryDNS pool_of_two (lit "example.org") "A") = Some st'
    /\ st_log st'
       = st_log (queryDNS pool_of_two (lit "example.org") "A")
         ++ [EvCallback None (Some (INCOMPLETE_RESPONSE (c_server c)))]
    /\ st_pool st' = pool_of_two.
Proof.
  destruct (st_conns (queryDNS pool_of_two (lit "example.org") "A") !! 0%nat)
    as [c|] eqn:Hc; [|vm_compute in Hc; discriminate].
  exists c.
  assert (Hfresh : fresh c).
  { vm_compute in Hc. injection Hc as <-. repeat split. }
  assert (Hinc : framed_response_complete (concat [[0; 40]; [0; 0; 129]]) = false).
  { vm_compute; reflexivity. }
  destruct (incomplete_response_fails_lookup (H := mozilla) 1
              (queryDNS pool_of_two (lit "example.org") "A") 0 c
              [[0; 40]; [0; 0; 129]] Hc Hfresh Hinc)
    as (st' & Hrun & Hlog & Hpool & _).
  exists st'. split; [reflexivity|]. split; [exact Hinc|]. split; [exact Hrun|].
  split; [exact Hlog|]. rewrite Hpool. reflexivity.
Defined.

Lemma transport_error_surfaced_iff_no_pool_witness :
  exists st c st',
    run (H := mozilla) 2 [(0%nat, DataAvailable (frame (referral_to (lit "ns1"))))]
      (queryDNS pool_of_one (lit "example.org") "A") = Some st
    /\ st_conns st !! 1%nat = Some c
    /\ c_servers c = None
    /\ deliver (H := mozilla) 2 1 (StopRequest 2152398861) st = Some st'
    /\ st_log st'
       = st_log st ++ [EvCallback None (Some (CONNECTION_REFUSED (lit "ns1.example.org")))].
Proof.
  destruct (run (H := mozilla) 2 [(0%nat, DataAvailable (frame (referral_to (lit "ns1"))))]
              (queryDNS pool_of_one (lit "example.org") "A")) as [st|] eqn:Hrun;
    [|vm_compute in Hrun; discriminate].
  exists st.
  destruct (st_conns st !! 1%nat) as [c|] eqn:Hc;
    [|vm_compute in Hrun; injection Hrun as <-; vm_compute in Hc; discriminate].
  exists c.
  destruct (deliver (H := mozilla) 2 1 (StopRequest 2152398861) st) as [st'|] eqn:Hd;
    [|vm_compute in Hrun; injection Hrun as <-; vm_compute in Hd; discriminate].
  exists st'. split; [reflexivity|]. split; [reflexivity|].
  assert (Hnone : c_servers c = None).
  { vm_compute in Hrun. injection Hrun as <-. vm_compute in Hc.
    injection Hc as <-. reflexivity. }
  split; [exact Hnone|]. split; [reflexivity|].
  destruct (transport_error_surfaced_iff_no_pool (H := mozilla) 2 st 1 c 2152398861 st'
              Hc ltac:(lia) Hd) as (new & Hlog & _ & Hnew).
  rewrite Hlog, (Hnew Hnone). do 4 f_equal.
  vm_compute in Hrun. injection Hrun as <-. vm_compute in Hc. injection Hc as <-.
  reflexivity.
Defined.

(** C9 as stated fails: the only server of the pool refuses the
    connection, and the callback is told NO_SERVER_ALIVE, not
    CONNECTION_REFUSED. *)
Lemma refusal_by_the_only_server_is_not_surfaced :
  length pool_of_one = 1%nat
  /\ option_map st_log
       (deliver (H := mozilla) 1 0 (StopRequest 2152398861)
          (queryDNS pool_of_one (lit "example.org") "A"))
     = Some [EvConnect (lit "8.8.8.8") 0 (Some 0%nat);
             EvCallback None (Some NO_SERVER_ALIVE)].
Proof. split; [reflexivity|vm_compute; reflexivity]. Qed.

Lemma invalid_response_is_thrown_witness :
  exists c msg st' st'',
    st_conns (queryDNS pool_of_two (lit "example.org") "A") !! 0%nat = Some c
    /\ arrives_with [take 3 (frame two_questions_response)]
         (drop 3 (frame two_questions_response))
    /\ InvalidResponse msg
    /\ deliver_all (H := mozilla) 1 0
         (map DataAvailable
            ([take 3 (frame two_questions_response)]
             ++ [drop 3 (frame two_questions_response)]))
         (queryDNS pool_of_two (lit "example.org") "A") = Some st'
    /\ st_log st'
       = st_log (queryDNS pool_of_two (lit "example.org") "A") ++ [EvThrow msg]
    /\ deliver_all (H := mozilla) 1 0
         (map DataAvailable [lit "more"] ++ [StopRequest 2147500037]) st' = Some st''
    /\ st_log st'' = st_log st' ++ [EvConnect (lit "8.8.4.4") 0 (Some 1%nat)]
    /\ st_pool st'' = mark_dead 0 pool_of_two.
Proof.
  destruct (st_conns (queryDNS pool_of_two (lit "example.org") "A") !! 0%nat)
    as [c|] eqn:Hc; [|vm_compute in Hc; discriminate].
  exists c.
  assert (Hfresh : fresh c).
  { vm_compute in Hc. injection Hc as <-. repeat split. }
  assert (Harr : arrives_with [take 3 (frame two_questions_response)]
                   (drop 3 (frame two_questions_response))).
  { vm_compute. split; reflexivity. }
  assert (Hq : eqb (DNS_strToWord
                      (substr (drop 2 (concat [take 3 (frame two_questions_response)]
                                       ++ drop 3 (frame two_questions_response)))
                         (Num 4) (Num 2)))
                   (Num 1) = false).
  { vm_compute; reflexivity. }
  destruct (invalid_response_is_thrown (H := mozilla) pool_of_two
              (lit "example.org") "A" 1
              (queryDNS pool_of_two (lit "example.org") "A") 0 c
              [take 3 (frame two_questions_response)]
              (drop 3 (frame two_questions_response)) [lit "more"] 2147500037
              Hc Hfresh Harr (or_introl Hq))
    as (msg & st' & st'' & Hmsg & Hd & Hlog & _ & _ & Hd' & Hafter).
  exists msg, st', st''.
  split; [reflexivity|]. split; [exact Harr|]. split; [exact Hmsg|].
  split; [exact Hd|]. split; [exact Hlog|]. split; [exact Hd'|].
  change (2147500037 =? 0) with false in Hafter. cbv iota in Hafter.
  vm_compute in Hc. injection Hc as <-.
  cbn [c_servers c_host c_recordtype c_hops] in Hafter.
  destruct Hafter as (Hlog' & Hpool' & _ & Hretry).
  split; [|exact Hpool'].
  rewrite Hlog', (Hretry (steps_refl _)). reflexivity.
Defined.

(** C8 as stated fails.  A response with two questions arrives whole
    and the stream ends with status 0: all the lookup leaves is the
    exception, the callback has not been called.  And when the stream
    ends with the status of a failure instead, the lookup is not over:
    it goes to the next server of the pool and delivers the list of
    results that server answers with. *)
Lemma invalid_response_does_not_reach_the_callback :
  option_map st_log
    (run (H := mozilla) 1
       [(0%nat, DataAvailable (frame two_questions_response)); (0%nat, StopRequest 0)]
       (queryDNS pool_of_one (lit "example.org") "A"))
  = Some [EvConnect (lit "8.8.8.8") 0 (Some 0%nat);
          EvThrow "Invalid response: Question section didn't have exactly one record."]
  /\ option_map st_log
       (run (H := mozilla) 2
          [(0%nat, DataAvailable (frame two_questions_response));
           (0%nat, StopRequest 2147500037);
           (1%nat, DataAvailable (frame a_response));
           (1%nat, StopRequest 0)]
          (queryDNS pool_of_two (lit "example.org") "A"))
     = Some [EvConnect (lit "8.8.8.8") 0 (Some 0%nat);
             EvThrow "Invalid response: Question section didn't have exactly one record.";
             EvConnect (lit "8.8.4.4") 0 (Some 1%nat);
             EvCallback (Some [RDString (lit "1.2.3.4")]) None].
Proof. split; vm_compute; reflexivity. Qed.

(** * Further properties of the codec *)

Lemma wordToStr_bytes w :
  0 <= w < 65536 -> DNS_wordToStr w = [w / 256; w mod 256].
Proof.
  intros Hw. unfold DNS_wordToStr, DNS_octetToStr, fromCharCode.
  rewrite wrap32_small by lia. rewrite Z.shiftr_div_pow2 by lia.
  change (2 ^ 8) with 256.
  assert (0 <= w / 256 < 256).
  { split; [apply Z.div_pos; lia|apply Z.div_lt_upper_bound; lia]. }
  pose proof (Z.mod_pos_bound w 256 ltac:(lia)).
  rewrite !Z.rem_mod_nonneg by lia.
  rewrite (Z.mod_small (w / 256) 256) by lia.
  rewrite !Z.mod_small by lia. reflexivity.
Qed.

Lemma strToWord_wordToStr_word w rest :
  0 <= w < 65536 -> DNS_strToWord (DNS_wordToStr w ++ rest) = Num w.
Proof.
  intros Hw. rewrite wordToStr_bytes by lia. cbn [app].
  rewrite strToWord_bytes.
  - f_equal. pose proof (Z.div_mod w 256 ltac:(lia)). lia.
  - split; [apply Z.div_pos; lia|apply Z.div_lt_upper_bound; lia].
Qed.

(** X1: DNS_wordToStr writes a 16-bit word as its high and its low byte,
    and DNS_strToWord reads it back. *)
Theorem word_roundtrip w :
  0 <= w < 65536 ->
  DNS_wordToStr w = [w / 256; w mod 256]
  /\ DNS_strToWord (DNS_wordToStr w) = Num w.
Proof.
  intros Hw. split; [by apply wordToStr_bytes|].
  rewrite <- (app_nil_r (DNS_wordToStr w)). by apply strToWord_wordToStr_word.
Qed.

Lemma word_roundtrip_witness :
  DNS_wordToStr 4660 = [4660 / 256; 4660 mod 256]
  /\ DNS_strToWord (DNS_wordToStr 4660) = Num 4660.
Proof. apply (word_roundtrip 4660). lia. Defined.

(** X2: DNS_strToWord gives NaN exactly on the strings that are shorter
    than two units. *)
Theorem strToWord_NaN_iff_short s :
  DNS_strToWord s = NaN <-> (length s < 2)%nat.
Proof.
  split.
  - intros HN. destruct s as [|a [|b rest]]; cbn [length]; [lia..|].
    exfalso. revert HN. unfold DNS_strToWord, charCodeAt, shl.
    cbn [ToIntegerOrInfinity length].
    destruct (Z.leb_spec (Z.of_nat (S (S (length rest)))) 1); [lia|].
    destruct (Z.leb_spec (Z.of_nat (S (S (length rest)))) 0); [lia|].
    change (Z.to_nat 1) with 1%nat. change (Z.to_nat 0) with 0%nat.
    cbn [Z.ltb Z.compare orb nth_error]. unfold add. discriminate.
  - apply strToWord_short.
Qed.

Lemma length_append_labels parts :
  length (append_labels [] parts)
  = (length parts + length (concat parts))%nat.
Proof.
  induction parts as [|p parts IH]; [reflexivity|].
  unfold append_labels. cbn [fold_left].
  change (fold_left _ parts ?q) with (append_labels q parts).
  rewrite append_labels_app. rewrite !length_app, IH.
  cbn [concat length app]. rewrite length_app.
  unfold DNS_octetToStr, fromCharCode. cbn [length]. lia.
Qed.

Lemma length_split_concat sep s :
  (length (split sep s) + length (concat (split sep s)) = S (length s))%nat.
Proof.
  induction s as [|c s IH]; [reflexivity|].
  cbn [split]. destruct (c =? sep).
  - cbn [length concat app]. lia.
  - destruct (split sep s) as [|p ps]; cbn [length concat app] in *; lia.
Qed.

(** X3: For a host name of less than 65518 units, the query handed to
    the socket is 20 units longer than the name, whatever its labels
    are, and its first two bytes hold the length of what follows
    them. *)
Theorem query_length_prefix host recordtype query :
  encode_query host recordtype = Ok query ->
  Z.of_nat (length host) + 18 < 65536 ->
  length query = (length host + 20)%nat
  /\ DNS_strToWord (substr query (Num 0) (Num 2))
     = Num (Z.of_nat (length query) - 2).
Proof.
  unfold encode_query. intros He Hlen.
  destruct (qtype_of recordtype) as [t|]; [|discriminate].
  cbv zeta in He.
  set (body := ((append_labels query_header (split 46 host) ++ DNS_octetToStr 0)
                ++ DNS_wordToStr t) ++ DNS_wordToStr 1) in He.
  assert (query = DNS_wordToStr (Z.of_nat (length body)) ++ body) as ->
    by congruence.
  clear He.
  assert (Hbody : length body = (length host + 18)%nat).
  { subst body. rewrite !length_app, append_labels_app, length_app.
    rewrite length_append_labels.
    pose proof (length_split_concat 46 host).
    rewrite !length_wordToStr.
    change (length query_header) with 12%nat.
    change (length (DNS_octetToStr 0)) with 1%nat. lia. }
  split.
  - rewrite length_app, length_wordToStr, Hbody. lia.
  - rewrite substr_0_2.
    rewrite take_app_length' by reflexivity.
    rewrite <- (app_nil_r (DNS_wordToStr _)) at 1.
    rewrite strToWord_wordToStr_word by lia.
    f_equal. rewrite length_app, length_wordToStr. lia.
Qed.

Lemma query_length_prefix_witness :
  exists query,
    encode_query (lit "example.org") "TXT" = Ok query
    /\ length query = (length (lit "example.org") + 20)%nat
    /\ DNS_strToWord (substr query (Num 0) (Num 2))
       = Num (Z.of_nat (length query) - 2).
Proof.
  destruct (encode_query (lit "example.org") "TXT") as [query|m] eqn:He;
    [|vm_compute in He; discriminate].
  exists query. split; [reflexivity|].
  apply (query_length_prefix (lit "example.org") "TXT" query He).
  vm_compute. reflexivity.
Defined.

(** * Further properties of name decoding *)

(** The loop of DNS_readDomain over the labels [parts]: one turn for
    each. *)
Lemma readDomain_loop_over_labels self parts :
  forall ctr dn pre post,
    Forall (fun p => (1 <= length p <= 191)%nat) parts ->
    let s := pre ++ append_labels [] parts ++ post in
    readDomain_loop self (length parts + ctr) dn (Ctx s (Num (Z.of_nat (length pre))))
    = readDomain_loop self ctr (join_labels dn parts)
        (Ctx s (Num (Z.of_nat (length pre + length (append_labels [] parts))))).
Proof.
  induction parts as [|p parts IH]; intros ctr dn pre post HF s.
  - subst s. cbn [length Nat.add]. change (append_labels [] []) with (@nil Z).
    cbn [length app]. rewrite Nat.add_0_r. reflexivity.
  - pose proof (Forall_inv HF) as Hp. pose proof (Forall_inv_tail HF) as HF'.
    cbn beta in Hp.
    subst s. rewrite append_labels_cons by lia.
    cbn [length Nat.add]. cbn [readDomain_loop str idx set_idx].
    change ((Z.of_nat (length p) :: p ++ append_labels [] parts) ++ post)
      with (Z.of_nat (length p) :: (p ++ append_labels [] parts) ++ post).
    rewrite charCodeAt_app. rewrite eqb_Num.
    destruct (Z.eqb_spec (Z.of_nat (length p)) 0); [lia|].
    rewrite shr_label by lia.
    rewrite add_Num.
    set (s := pre ++ Z.of_nat (length p) :: (p ++ append_labels [] parts) ++ post).
    assert (Hs : s = (pre ++ [Z.of_nat (length p)]) ++ p ++ (append_labels [] parts ++ post)).
    { subst s. rewrite <- ?app_assoc. cbn [app]. rewrite <- ?app_assoc. reflexivity. }
    assert (Hsub : substr s (Num (Z.of_nat (length pre) + 1)) (Num (Z.of_nat (length p))) = p).
    { rewrite Hs.
      replace (Z.of_nat (length pre) + 1)
        with (Z.of_nat (length (pre ++ [Z.of_nat (length p)])))
        by (rewrite length_app; cbn [length]; lia).
      apply substr_app. }
    rewrite Hsub. rewrite add_Num.
    assert (Hs' : s = (pre ++ Z.of_nat (length p) :: p) ++ append_labels [] parts ++ post).
    { subst s. rewrite <- ?app_assoc. cbn [app]. rewrite <- ?app_assoc. reflexivity. }
    replace (Z.of_nat (length pre) + 1 + Z.of_nat (length p))
      with (Z.of_nat (length (pre ++ Z.of_nat (length p) :: p)))
      by (rewrite length_app; cbn [length]; lia).
    rewrite Hs'. unfold set_idx. cbn [str idx]. rewrite IH by exact HF'.
    unfold join_labels. cbn [fold_left]. do 4 f_equal.
    rewrite !length_app. cbn [length]. rewrite ?length_app. lia.
Qed.

Lemma shr_pointer hi : 0 <= hi < 64 -> shr (Num (192 + hi)) 6 = Num 3.
Proof.
  intros Hhi. unfold shr. cbn [ToInt32]. rewrite wrap32_small by lia.
  rewrite Z.shiftr_div_pow2 by lia. f_equal.
  change (2 ^ 6) with 64.
  replace (192 + hi) with (hi + 3 * 64) by lia.
  rewrite Z.div_add by lia. rewrite Z.div_small by lia. reflexivity.
Qed.

Lemma pointer_offset hi :
  0 <= hi < 64 -> shl (band (Num (192 + hi)) (Num 63)) 8 = Num (256 * hi).
Proof.
  intros Hhi. unfold shl, band. cbn [ToInt32].
  rewrite (wrap32_small (192 + hi)), (wrap32_small 63) by lia.
  change 63 with (Z.ones 6). rewrite Z.land_ones by lia.
  change (2 ^ 6) with 64.
  replace (192 + hi) with (hi + 3 * 64) by lia.
  rewrite Z.mod_add by lia. rewrite Z.mod_small by lia.
  rewrite (wrap32_small hi) by lia.
  rewrite Z.shiftl_mul_pow2 by lia. change (2 ^ 8) with 256.
  rewrite wrap32_small by lia.
  f_equal. lia.
Qed.

(** One turn of the loop on a compression pointer. *)
Lemma readDomain_loop_pointer self ctr dn pre hi lo post :
  0 <= hi < 64 ->
  let s := pre ++ (192 + hi) :: lo :: post in
  readDomain_loop self (S ctr) dn (Ctx s (Num (Z.of_nat (length pre))))
  = match self (Ctx s (Num (256 * hi + lo))) with
    | None => None
    | Some (d, _) =>
        Some (match dn with [] => [] | _ => dn ++ lit "." end ++ d,
              Ctx s (Num (Z.of_nat (length pre + 2))))
    end.
Proof.
  intros Hhi s. cbn [readDomain_loop str idx set_idx].
  assert (Hl : charCodeAt s (Num (Z.of_nat (length pre))) = Num (192 + hi)).
  { subst s. apply charCodeAt_app. }
  rewrite Hl. rewrite eqb_Num.
  destruct (Z.eqb_spec (192 + hi) 0); [lia|].
  rewrite shr_pointer by lia. rewrite eqb_Num. cbn [Z.eqb Pos.eqb].
  rewrite pointer_offset by lia. rewrite add_Num.
  assert (Hlo : charCodeAt s (Num (Z.of_nat (length pre) + 1)) = Num lo).
  { subst s.
    replace (pre ++ (192 + hi) :: lo :: post)
      with ((pre ++ [192 + hi]) ++ lo :: post)
      by (rewrite <- ?app_assoc; reflexivity).
    replace (Z.of_nat (length pre) + 1)
      with (Z.of_nat (length (pre ++ [192 + hi])))
      by (rewrite !length_app; cbn [length]; lia).
    apply charCodeAt_app. }
  rewrite Hlo. rewrite !add_Num.
  destruct (self _) as [[d c2]|]; [|reflexivity].
  do 4 f_equal. lia.
Qed.

(** A name that is a pointer and nothing else. *)
Lemma readDomain_at_pointer depth pre hi lo post suffix c2 :
  0 <= hi < 64 ->
  let s := pre ++ (192 + hi) :: lo :: post in
  DNS_readDomain depth (Ctx s (Num (256 * hi + lo))) = Some (suffix, c2) ->
  DNS_readDomain (S depth) (Ctx s (Num (Z.of_nat (length pre))))
  = Some (suffix, Ctx s (Num (Z.of_nat (length pre + 2)))).
Proof.
  intros Hhi s Hnested. rewrite DNS_readDomain_S.
  change 20%nat with (S 19). subst s.
  rewrite readDomain_loop_pointer by exact Hhi. by rewrite Hnested.
Qed.

(** X4: A name written as labels and the byte 0 is read wherever it stands
    in the message: up to 19 labels of 1 to 191 units each give the
    labels joined by dots, and the cursor is left behind the 0.  No
    nested call is made. *)
Theorem readDomain_labels depth pre parts post :
  Forall (fun p => (1 <= length p <= 191)%nat) parts ->
  (length parts <= 19)%nat ->
  let s := pre ++ append_labels [] parts ++ 0 :: post in
  DNS_readDomain (S depth) (Ctx s (Num (Z.of_nat (length pre))))
  = Some (join_labels [] parts,
          Ctx s (Num (Z.of_nat (length pre + length (append_labels [] parts) + 1)))).
Proof.
  intros HF Hlen s. rewrite DNS_readDomain_S.
  replace 20%nat with (length parts + S (19 - length parts))%nat by lia.
  subst s. rewrite readDomain_loop_over_labels by exact HF.
  cbn [readDomain_loop str idx set_idx].
  replace (Z.of_nat (length pre + length (append_labels [] parts)))
    with (Z.of_nat (length (pre ++ append_labels [] parts)))
    by (by rewrite length_app).
  rewrite (app_assoc pre). rewrite charCodeAt_app.
  rewrite eqb_Num. cbn [Z.eqb]. rewrite add_Num.
  do 4 f_equal. rewrite length_app. lia.
Qed.

Lemma readDomain_labels_witness :
  DNS_readDomain 1
    (Ctx ([7; 7] ++ append_labels [] [lit "www"; lit "example"; lit "org"] ++ 0 :: [9])
         (Num 2))
  = Some (join_labels [] [lit "www"; lit "example"; lit "org"],
          Ctx ([7; 7] ++ append_labels [] [lit "www"; lit "example"; lit "org"] ++ 0 :: [9])
              (Num (Z.of_nat
                      (2 + length (append_labels [] [lit "www"; lit "example"; lit "org"])
                       + 1)))).
Proof.
  apply (readDomain_labels 0 [7; 7] [lit "www"; lit "example"; lit "org"] [9]).
  - repeat (apply List.Forall_cons; [cbn; lia|]). apply List.Forall_nil.
  - cbn. lia.
Defined.

(** X5: A name written as labels and a compression pointer: the labels are
    joined by dots with the name that the nested call reads at the
    offset the pointer holds, and the cursor is left behind the two
    bytes of the pointer, wherever the nested call stopped. *)
Theorem readDomain_pointer depth pre parts hi lo post suffix c2 :
  Forall (fun p => (1 <= length p <= 191)%nat) parts ->
  (length parts <= 19)%nat ->
  0 <= hi < 64 ->
  let s := pre ++ append_labels [] parts ++ (192 + hi) :: lo :: post in
  DNS_readDomain depth (Ctx s (Num (256 * hi + lo))) = Some (suffix, c2) ->
  DNS_readDomain (S depth) (Ctx s (Num (Z.of_nat (length pre))))
  = Some (match parts with
          | [] => suffix
          | _ => join_labels [] parts ++ lit "." ++ suffix
          end,
          Ctx s (Num (Z.of_nat (length pre + length (append_labels [] parts) + 2)))).
Proof.
  intros HF Hlen Hhi s Hnested. rewrite DNS_readDomain_S.
  replace 20%nat with (length parts + S (19 - length parts))%nat by lia.
  subst s. rewrite readDomain_loop_over_labels by exact HF.
  rewrite (app_assoc pre). rewrite <- length_app.
  rewrite readDomain_loop_pointer by exact Hhi.
  rewrite <- (app_assoc pre). rewrite Hnested.
  rewrite length_app, <- Nat.add_assoc. f_equal. f_equal.
  destruct parts as [|p parts]; [reflexivity|].
  assert (Hne : join_labels [] (p :: parts) <> []).
  { pose proof (Forall_inv HF) as Hp. cbn beta in Hp.
    rewrite join_labels_first by (destruct p; cbn [length] in Hp; [lia|done]).
    destruct p; cbn [length] in Hp; [lia|done]. }
  destruct (join_labels [] (p :: parts)); [done|].
  by rewrite <- app_assoc.
Qed.

Lemma readDomain_pointer_witness :
  DNS_readDomain 2
    (Ctx ([3; 111; 114; 103; 0] ++ append_labels [] [lit "www"; lit "example"]
            ++ (192 + 0) :: 0 :: [])
         (Num 5))
  = Some (lit "www.example.org",
          Ctx ([3; 111; 114; 103; 0] ++ append_labels [] [lit "www"; lit "example"]
                 ++ (192 + 0) :: 0 :: [])
              (Num 19)).
Proof.
  apply (readDomain_pointer 1 [3; 111; 114; 103; 0] [lit "www"; lit "example"]
           0 0 [] (lit "org")
           (Ctx ([3; 111; 114; 103; 0] ++ append_labels [] [lit "www"; lit "example"]
                   ++ (192 + 0) :: 0 :: [])
                (Num 5))).
  - repeat (apply List.Forall_cons; [cbn; lia|]). apply List.Forall_nil.
  - cbn. lia.
  - lia.
  - vm_compute. reflexivity.
Defined.

(** X6: The loop of DNS_readDomain takes 20 turns at most: of a name that
    goes on after 20 labels the first 20 are returned, and the cursor
    is left behind them; what follows is not looked at. *)
Theorem readDomain_stops_after_20_labels depth pre parts post :
  Forall (fun p => (1 <= length p <= 191)%nat) parts ->
  length parts = 20%nat ->
  let s := pre ++ append_labels [] parts ++ post in
  DNS_readDomain (S depth) (Ctx s (Num (Z.of_nat (length pre))))
  = Some (join_labels [] parts,
          Ctx s (Num (Z.of_nat (length pre + length (append_labels [] parts))))).
Proof.
  intros HF Hlen s. rewrite DNS_readDomain_S.
  replace 20%nat with (length parts + 0)%nat by lia.
  subst s. rewrite readDomain_loop_over_labels by exact HF.
  reflexivity.
Qed.

Lemma readDomain_stops_after_20_labels_witness :
  DNS_readDomain 1
    (Ctx ([] ++ append_labels [] (repeat [97] 20) ++ [1; 98; 0]) (Num 0))
  = Some (join_labels [] (repeat [97] 20),
          Ctx ([] ++ append_labels [] (repeat [97] 20) ++ [1; 98; 0]) (Num 40)).
Proof.
  apply (readDomain_stops_after_20_labels 0 [] (repeat [97] 20) [1; 98; 0]).
  - apply List.Forall_forall. intros p Hp. apply repeat_spec in Hp. subst p. cbn. lia.
  - reflexivity.
Defined.

(** * Further properties of record decoding *)

Lemma octetToStr_small n : 0 <= n < 65536 -> DNS_octetToStr n = [n].
Proof.
  intros Hn. unfold DNS_octetToStr, fromCharCode. by rewrite Z.mod_small by lia.
Qed.

Lemma txt_rdata_cons s strings :
  (length s <= 255)%nat ->
  txt_rdata (s :: strings) = Z.of_nat (length s) :: s ++ txt_rdata strings.
Proof.
  intros Hs. unfold txt_rdata. cbn [map concat].
  rewrite octetToStr_small by lia. reflexivity.
Qed.

Lemma strToOctet_one u : DNS_strToOctet [u] = Num u.
Proof. reflexivity. Qed.

Lemma gtb_Num a b : gtb (Num a) (Num b) = (b <? a).
Proof. reflexivity. Qed.

Lemma sub_Num a b : sub (Num a) (Num b) = Num (a - b).
Proof. reflexivity. Qed.

(** The TXT loop over the character strings [strings]: one turn for
    each, [ctr] turns at most. *)
Lemma readRec_txt_strings strings :
  forall ctr data pre post,
    Forall (fun s => (length s <= 255)%nat) strings ->
    let m := pre ++ txt_rdata strings ++ post in
    readRec_txt ctr (Num (Z.of_nat (length (txt_rdata strings)))) data
      (Ctx m (Num (Z.of_nat (length pre))))
    = (Num (Z.of_nat (length (txt_rdata (drop ctr strings)))),
       data ++ concat (take ctr strings),
       Ctx m (Num (Z.of_nat (length pre + length (txt_rdata (take ctr strings)))))).
Proof.
  induction strings as [|s strings IH]; intros ctr data pre post HF m.
  - subst m. rewrite drop_nil, take_nil. cbn [concat].
    change (txt_rdata []) with (@nil Z). cbn [length].
    rewrite app_nil_r, Nat.add_0_r.
    destruct ctr; cbn [readRec_txt]; [reflexivity|].
    rewrite gtb_Num. reflexivity.
  - pose proof (Forall_inv HF) as Hs. pose proof (Forall_inv_tail HF) as HF'.
    cbn beta in Hs.
    destruct ctr as [|ctr].
    { subst m. cbn [readRec_txt take drop concat].
      change (txt_rdata []) with (@nil Z). cbn [length].
      by rewrite app_nil_r, Nat.add_0_r. }
    subst m. cbn [take drop concat]. rewrite !txt_rdata_cons by lia.
    cbn [readRec_txt str idx set_idx]. rewrite gtb_Num.
    destruct (Z.ltb_spec 0 (Z.of_nat (length (Z.of_nat (length s) :: s ++ txt_rdata strings))));
      [|cbn [length] in *; lia].
    set (m := pre ++ (Z.of_nat (length s) :: s ++ txt_rdata strings) ++ post).
    assert (Hlen : substr m (Num (Z.of_nat (length pre))) (Num 1) = [Z.of_nat (length s)]).
    { subst m.
      change ((Z.of_nat (length s) :: s ++ txt_rdata strings) ++ post)
        with ([Z.of_nat (length s)] ++ (s ++ txt_rdata strings) ++ post).
      apply (substr_app pre [Z.of_nat (length s)]). }
    rewrite Hlen. rewrite strToOctet_one. rewrite !add_Num, !sub_Num.
    assert (Hm : m = (pre ++ [Z.of_nat (length s)]) ++ s ++ (txt_rdata strings ++ post)).
    { subst m. rewrite <- ?app_assoc. cbn [app]. rewrite <- ?app_assoc. reflexivity. }
    assert (Hsub : substr m (Num (Z.of_nat (length pre) + 1)) (Num (Z.of_nat (length s))) = s).
    { rewrite Hm.
      replace (Z.of_nat (length pre) + 1)
        with (Z.of_nat (length (pre ++ [Z.of_nat (length s)])))
        by (rewrite length_app; cbn [length]; lia).
      apply substr_app. }
    rewrite Hsub.
    assert (Hm' : m = (pre ++ Z.of_nat (length s) :: s) ++ txt_rdata strings ++ post).
    { subst m. rewrite <- ?app_assoc. cbn [app]. rewrite <- ?app_assoc. reflexivity. }
    replace (Z.of_nat (length pre) + 1 + Z.of_nat (length s))
      with (Z.of_nat (length (pre ++ Z.of_nat (length s) :: s)))
      by (rewrite length_app; cbn [length]; lia).
    replace (Z.of_nat (length (Z.of_nat (length s) :: s ++ txt_rdata strings)) - 1
             - Z.of_nat (length s))
      with (Z.of_nat (length (txt_rdata strings)))
      by (cbn [length]; rewrite length_app; lia).
    rewrite Hm'. unfold set_idx. cbn [str idx]. rewrite IH by exact HF'.
    rewrite <- app_assoc. do 3 f_equal.
    rewrite !length_app. cbn [length]. rewrite ?length_app. lia.
Qed.

(** The four fixed fields of a record. *)
Lemma substr_at pre x post n :
  n = Z.of_nat (length x) ->
  substr (pre ++ x ++ post) (Num (Z.of_nat (length pre))) (Num n) = x.
Proof. intros ->. apply substr_app. Qed.

(** DNS_readRec on a TXT record whose owner name ends where [pre]
    ends. *)
Lemma readRec_txt_record depth c dom pre cls ttl strings post :
  let m := pre ++ DNS_wordToStr 16 ++ cls ++ ttl
             ++ DNS_wordToStr (Z.of_nat (length (txt_rdata strings)))
             ++ txt_rdata strings ++ post in
  DNS_readDomain depth c = Some (dom, Ctx m (Num (Z.of_nat (length pre)))) ->
  length cls = 2%nat ->
  length ttl = 4%nat ->
  Forall (fun s => (length s <= 255)%nat) strings ->
  Z.of_nat (length (txt_rdata strings)) < 65536 ->
  exists cls' ttl' rdlen',
    DNS_readRec depth c
    = Some (RR dom (TName "TXT") cls' ttl' rdlen' true
              (RDString (concat (take 10 strings))),
            Ctx m (Num (Z.of_nat (length pre + 10 + length (txt_rdata strings))))).
Proof.
  intros m Hdom Hcls Httl HF Hlen.
  unfold DNS_readRec. rewrite Hdom. cbv zeta. unfold set_idx. cbn [str idx].
  rewrite !add_Num.
  assert (Htype : substr m (Num (Z.of_nat (length pre))) (Num 2) = DNS_wordToStr 16).
  { subst m. by apply substr_at. }
  rewrite Htype. change (DNS_strToWord (DNS_wordToStr 16)) with (Num 16).
  rewrite eqb_Num. cbn [Z.eqb Pos.eqb].
  set (n := Z.of_nat (length (txt_rdata strings))) in *.
  assert (Hrdlen : substr m (Num (Z.of_nat (length pre) + 2 + 2 + 4)) (Num 2)
                   = DNS_wordToStr n).
  { subst m.
    replace (pre ++ DNS_wordToStr 16 ++ cls ++ ttl ++ DNS_wordToStr n
               ++ txt_rdata strings ++ post)
      with ((pre ++ DNS_wordToStr 16 ++ cls ++ ttl) ++ DNS_wordToStr n
              ++ txt_rdata strings ++ post)
      by (rewrite <- ?app_assoc; reflexivity).
    replace (Z.of_nat (length pre) + 2 + 2 + 4)
      with (Z.of_nat (length (pre ++ DNS_wordToStr 16 ++ cls ++ ttl)))
      by (rewrite !length_app, length_wordToStr; lia).
    by apply substr_at. }
  rewrite Hrdlen.
  rewrite <- (app_nil_r (DNS_wordToStr n)).
  rewrite strToWord_wordToStr_word by (subst n; lia).
  assert (Hm : m = (pre ++ DNS_wordToStr 16 ++ cls ++ ttl ++ DNS_wordToStr n)
                   ++ txt_rdata strings ++ post).
  { subst m. rewrite <- ?app_assoc. reflexivity. }
  replace (Z.of_nat (length pre) + 2 + 2 + 4 + 2)
    with (Z.of_nat (length (pre ++ DNS_wordToStr 16 ++ cls ++ ttl ++ DNS_wordToStr n)))
    by (rewrite !length_app, !length_wordToStr; lia).
  clearbody m. subst m. subst n.
  rewrite (readRec_txt_strings strings 10 [] _ post HF).
  cbn [app]. do 3 eexists. rewrite add_Num. do 4 f_equal.
  rewrite !length_app, !length_wordToStr. lia.
Qed.

(** X7: The data of a TXT record is its character strings joined without
    a separator, and of more than 10 strings only the first 10 are
    read. *)
Theorem txt_strings_are_joined depth c dom pre cls ttl strings post :
  let m := pre ++ DNS_wordToStr 16 ++ cls ++ ttl
             ++ DNS_wordToStr (Z.of_nat (length (txt_rdata strings)))
             ++ txt_rdata strings ++ post in
  DNS_readDomain depth c = Some (dom, Ctx m (Num (Z.of_nat (length pre)))) ->
  length cls = 2%nat ->
  length ttl = 4%nat ->
  Forall (fun s => (length s <= 255)%nat) strings ->
  Z.of_nat (length (txt_rdata strings)) < 65536 ->
  exists rec c',
    DNS_readRec depth c = Some (rec, c')
    /\ rec_dom rec = dom
    /\ rec_type rec = TName "TXT"
    /\ rec_recognized rec = true
    /\ rec_rddata rec = RDString (concat (take 10 strings)).
Proof.
  intros m Hdom Hcls Httl HF Hlen.
  destruct (readRec_txt_record depth c dom pre cls ttl strings post
              Hdom Hcls Httl HF Hlen) as (cls' & ttl' & rdlen' & Hrec).
  do 2 eexists. split; [exact Hrec|]. done.
Qed.

Lemma txt_strings_are_joined_witness :
  exists rec c',
    DNS_readRec 1
      (Ctx ([0] ++ DNS_wordToStr 16 ++ [0; 1] ++ [0; 0; 14; 16]
              ++ DNS_wordToStr
                   (Z.of_nat (length (txt_rdata [lit "v=DKIM1; "; lit "k=rsa"])))
              ++ txt_rdata [lit "v=DKIM1; "; lit "k=rsa"] ++ [])
           (Num 0))
    = Some (rec, c')
    /\ rec_dom rec = []
    /\ rec_type rec = TName "TXT"
    /\ rec_recognized rec = true
    /\ rec_rddata rec
       = RDString (concat (take 10 [lit "v=DKIM1; "; lit "k=rsa"])).
Proof.
  apply (txt_strings_are_joined 1
           (Ctx ([0] ++ DNS_wordToStr 16 ++ [0; 1] ++ [0; 0; 14; 16]
                   ++ DNS_wordToStr
                        (Z.of_nat (length (txt_rdata [lit "v=DKIM1; "; lit "k=rsa"])))
                   ++ txt_rdata [lit "v=DKIM1; "; lit "k=rsa"] ++ [])
                (Num 0))
           [] [0] [0; 1] [0; 0; 14; 16] [lit "v=DKIM1; "; lit "k=rsa"] []).
  - vm_compute. reflexivity.
  - reflexivity.
  - reflexivity.
  - repeat (apply List.Forall_cons; [cbn; lia|]). apply List.Forall_nil.
  - vm_compute. reflexivity.
Defined.

Lemma readRec_txt_S ctr rdlen data c :
  readRec_txt (S ctr) rdlen data c
  = if gtb rdlen (Num 0) then
      let txtlen := DNS_strToOctet (substr (str c) (idx c) (Num 1)) in
      let c := set_idx c (add (idx c) (Num 1)) in
      let rdlen := sub rdlen (Num 1) in
      let data := data ++ substr (str c) (idx c) txtlen in
      let c := set_idx c (add (idx c) txtlen) in
      let rdlen := sub rdlen txtlen in
      readRec_txt ctr rdlen data c
    else (rdlen, data, c).
Proof. reflexivity. Qed.

Lemma readRec_txt_done ctr r data c :
  r <= 0 -> readRec_txt ctr (Num r) data c = (Num r, data, c).
Proof.
  intros Hr. destruct ctr; [reflexivity|]. rewrite readRec_txt_S, gtb_Num.
  destruct (Z.ltb_spec 0 r); [lia|reflexivity].
Qed.

(** X8: A character string of a TXT record is read with the length its
    first byte gives, whatever RDLENGTH says: with an RDLENGTH from 1
    up to that length plus 1 the data is the whole string, also where
    it reaches behind the end of the record, and the cursor is left
    at the end that RDLENGTH gives. *)
Theorem txt_string_is_not_bounded_by_rdlength depth c dom pre cls ttl r s post :
  let m := pre ++ DNS_wordToStr 16 ++ cls ++ ttl ++ DNS_wordToStr r
             ++ [Z.of_nat (length s)] ++ s ++ post in
  DNS_readDomain depth c = Some (dom, Ctx m (Num (Z.of_nat (length pre)))) ->
  length cls = 2%nat ->
  length ttl = 4%nat ->
  (length s <= 255)%nat ->
  1 <= r <= Z.of_nat (length s) + 1 ->
  exists rec,
    DNS_readRec depth c
    = Some (rec, Ctx m (Num (Z.of_nat (length pre) + 10 + r)))
    /\ rec_type rec = TName "TXT"
    /\ rec_rddata rec = RDString s.
Proof.
  intros m Hdom Hcls Httl Hs Hr.
  unfold DNS_readRec. rewrite Hdom. cbv zeta. unfold set_idx. cbn [str idx].
  rewrite !add_Num.
  assert (Htype : substr m (Num (Z.of_nat (length pre))) (Num 2) = DNS_wordToStr 16).
  { subst m. by apply substr_at. }
  rewrite Htype. change (DNS_strToWord (DNS_wordToStr 16)) with (Num 16).
  rewrite eqb_Num. cbn [Z.eqb Pos.eqb].
  assert (Hrdlen : substr m (Num (Z.of_nat (length pre) + 2 + 2 + 4)) (Num 2)
                   = DNS_wordToStr r).
  { subst m.
    replace (pre ++ DNS_wordToStr 16 ++ cls ++ ttl ++ DNS_wordToStr r
               ++ [Z.of_nat (length s)] ++ s ++ post)
      with ((pre ++ DNS_wordToStr 16 ++ cls ++ ttl) ++ DNS_wordToStr r
              ++ [Z.of_nat (length s)] ++ s ++ post)
      by (rewrite <- ?app_assoc; reflexivity).
    replace (Z.of_nat (length pre) + 2 + 2 + 4)
      with (Z.of_nat (length (pre ++ DNS_wordToStr 16 ++ cls ++ ttl)))
      by (rewrite !length_app, length_wordToStr; lia).
    by apply substr_at. }
  rewrite Hrdlen.
  rewrite <- (app_nil_r (DNS_wordToStr r)).
  rewrite strToWord_wordToStr_word by lia.
  set (pre1 := pre ++ DNS_wordToStr 16 ++ cls ++ ttl ++ DNS_wordToStr r).
  assert (Hpre1 : Z.of_nat (length pre) + 2 + 2 + 4 + 2 = Z.of_nat (length pre1)).
  { subst pre1. rewrite !length_app, !length_wordToStr. lia. }
  rewrite Hpre1.
  assert (Hm : m = pre1 ++ [Z.of_nat (length s)] ++ s ++ post).
  { subst m pre1. rewrite <- ?app_assoc. reflexivity. }
  assert (Hlen : substr m (Num (Z.of_nat (length pre1))) (Num 1) = [Z.of_nat (length s)]).
  { rewrite Hm. by apply substr_at. }
  assert (Hsub : substr m (Num (Z.of_nat (length pre1) + 1)) (Num (Z.of_nat (length s))) = s).
  { rewrite Hm.
    replace (pre1 ++ [Z.of_nat (length s)] ++ s ++ post)
      with ((pre1 ++ [Z.of_nat (length s)]) ++ s ++ post)
      by (rewrite <- ?app_assoc; reflexivity).
    replace (Z.of_nat (length pre1) + 1)
      with (Z.of_nat (length (pre1 ++ [Z.of_nat (length s)])))
      by (rewrite length_app; cbn [length]; lia).
    apply substr_app. }
  change 10%nat with (S 9). rewrite readRec_txt_S. rewrite gtb_Num.
  destruct (Z.ltb_spec 0 r); [|lia].
  cbv zeta. unfold set_idx. cbn [str idx].
  rewrite Hlen, strToOctet_one, !add_Num, !sub_Num, Hsub.
  rewrite readRec_txt_done by lia.
  cbn [app].
  replace (Z.of_nat (length pre1) + r) with (Z.of_nat (length pre) + 10 + r) by lia.
  eexists. split; [reflexivity|]. done.
Qed.

Lemma txt_string_is_not_bounded_by_rdlength_witness :
  exists rec,
    DNS_readRec 1
      (Ctx ([0] ++ DNS_wordToStr 16 ++ [0; 1] ++ [0; 0; 14; 16] ++ DNS_wordToStr 2
              ++ [Z.of_nat (length (lit "abcdef"))] ++ lit "abcdef" ++ [])
           (Num 0))
    = Some (rec,
            Ctx ([0] ++ DNS_wordToStr 16 ++ [0; 1] ++ [0; 0; 14; 16] ++ DNS_wordToStr 2
                   ++ [Z.of_nat (length (lit "abcdef"))] ++ lit "abcdef" ++ [])
                (Num (Z.of_nat (length [0]) + 10 + 2)))
    /\ rec_type rec = TName "TXT"
    /\ rec_rddata rec = RDString (lit "abcdef").
Proof.
  apply (txt_string_is_not_bounded_by_rdlength 1
           (Ctx ([0] ++ DNS_wordToStr 16 ++ [0; 1] ++ [0; 0; 14; 16] ++ DNS_wordToStr 2
                   ++ [Z.of_nat (length (lit "abcdef"))] ++ lit "abcdef" ++ [])
                (Num 0))
           [] [0] [0; 1] [0; 0; 14; 16] 2 (lit "abcdef") []).
  - vm_compute. reflexivity.
  - reflexivity.
  - reflexivity.
  - cbn. lia.
  - cbn. lia.
Defined.

(** * Addresses *)

Lemma split_app_sep sep p rest :
  Forall (fun u => u <> sep) p ->
  split sep (p ++ sep :: rest) = p :: split sep rest.
Proof.
  induction p as [|c p IH]; intros HF; cbn [app split].
  - by rewrite Z.eqb_refl.
  - pose proof (Forall_inv HF) as Hc. cbn beta in Hc.
    destruct (Z.eqb_spec c sep); [done|].
    rewrite IH by (by eapply Forall_inv_tail). reflexivity.
Qed.

Lemma split_no_sep sep p :
  Forall (fun u => u <> sep) p -> split sep p = [p].
Proof.
  induction p as [|c p IH]; intros HF; cbn [split]; [reflexivity|].
  pose proof (Forall_inv HF) as Hc. cbn beta in Hc.
  destruct (Z.eqb_spec c sep); [done|].
  rewrite IH by (by eapply Forall_inv_tail). reflexivity.
Qed.

Lemma split_four sep p0 p1 p2 p3 :
  Forall (fun u => u <> sep) p0 -> Forall (fun u => u <> sep) p1 ->
  Forall (fun u => u <> sep) p2 -> Forall (fun u => u <> sep) p3 ->
  split sep (p0 ++ [sep] ++ p1 ++ [sep] ++ p2 ++ [sep] ++ p3) = [p0; p1; p2; p3].
Proof.
  intros H0 H1 H2 H3. cbn [app].
  rewrite !split_app_sep by done. by rewrite split_no_sep.
Qed.

(** The decimal text of a byte: digits only, and at least one. *)
Lemma digits_byte z :
  0 <= z < 256 ->
  exists u rest, digits z = u :: rest /\ is_digit u = true
                 /\ Forall (fun v => v <> 46) (digits z).
Proof.
  intros Hz.
  assert (Hall : forallb
                   (fun n => match digits (Z.of_nat n) with
                             | u :: rest =>
                                 is_digit u && forallb (fun v => negb (v =? 46)) (u :: rest)
                             | [] => false
                             end)
                   (seq 0 256) = true) by (vm_compute; reflexivity).
  rewrite forallb_forall in Hall.
  specialize (Hall (Z.to_nat z)). rewrite Z2Nat.id in Hall by lia.
  assert (Hin : In (Z.to_nat z) (seq 0 256)) by (apply in_seq; lia).
  apply Hall in Hin.
  destruct (digits z) as [|u rest]; [discriminate|].
  apply andb_true_iff in Hin as [Hd Hdots].
  exists u, rest. split; [reflexivity|]. split; [exact Hd|].
  apply List.Forall_forall. intros v Hv.
  rewrite forallb_forall in Hdots. specialize (Hdots v Hv).
  apply negb_true_iff, Z.eqb_neq in Hdots. exact Hdots.
Qed.

Lemma charCodeAt_nth d k :
  charCodeAt d (Num (Z.of_nat k))
  = match nth_error d k with Some c => Num c | None => NaN end.
Proof.
  unfold charCodeAt. cbn [ToIntegerOrInfinity].
  destruct (Z.ltb_spec (Z.of_nat k) 0); [lia|].
  rewrite Nat2Z.id.
  destruct (Z.leb_spec (Z.of_nat (length d)) (Z.of_nat k)); cbn [orb]; [|reflexivity].
  assert (nth_error d k = None) as -> by (apply nth_error_None; lia).
  reflexivity.
Qed.

Section Addresses.
Variable white_space : Z -> bool.
Hypothesis white_space_not_graphic :
  forall u, 33 <= u <= 126 -> white_space u = false.

(** One part of the dotted quad: no dot in it, and a number for
    parseInt exactly when the byte was there. *)
Lemma quad_part d k :
  Forall (fun u => 0 <= u < 256) d ->
  let t := toString (charCodeAt d (Num (Z.of_nat k))) in
  Forall (fun v => v <> 46) t
  /\ isNaN_parseInt white_space t = bool_decide (length d <= k)%nat.
Proof.
  intros Hd t. subst t. rewrite charCodeAt_nth.
  destruct (nth_error d k) as [c|] eqn:Hn.
  - assert (Hc : 0 <= c < 256).
    { rewrite List.Forall_forall in Hd. apply Hd. by eapply nth_error_In. }
    assert (Hk : (k < length d)%nat) by (apply nth_error_Some; congruence).
    destruct (digits_byte c Hc) as (u & rest & Hdig & Hu & Hdots).
    unfold toString. split; [exact Hdots|].
    rewrite bool_decide_eq_false_2 by lia.
    unfold isNaN_parseInt. rewrite Hdig. cbn [trim_start].
    unfold is_digit in Hu. apply andb_true_iff in Hu as [Hu1 Hu2].
    apply Z.leb_le in Hu1, Hu2.
    rewrite white_space_not_graphic by lia.
    destruct (Z.eqb_spec u 43); [lia|]. destruct (Z.eqb_spec u 45); [lia|].
    cbn [orb]. unfold is_digit.
    destruct (Z.leb_spec 48 u); [|lia]. destruct (Z.leb_spec u 57); [|lia].
    reflexivity.
  - apply nth_error_None in Hn. unfold toString.
    change (lit "NaN") with [78; 97; 78]. split.
    + repeat (apply List.Forall_cons; [lia|]). apply List.Forall_nil.
    + rewrite bool_decide_eq_true_2 by lia.
      unfold isNaN_parseInt. cbn [trim_start].
      rewrite white_space_not_graphic by lia. reflexivity.
Qed.

(** X9: The address DNS_readRec makes of the RDATA of an A record passes
    DNS_IsDottedQuad exactly when the RDATA had its four bytes: a
    shorter RDATA gives an address with NaN in it, which is not
    rejected when the record is read. *)
Theorem dotted_quad_recognized d :
  Forall (fun u => 0 <= u < 256) d ->
  DNS_IsDottedQuad white_space (dotted_quad d) = bool_decide (4 <= length d)%nat.
Proof.
  intros Hd.
  destruct (quad_part d 0 Hd) as [H0 N0]. destruct (quad_part d 1 Hd) as [H1 N1].
  destruct (quad_part d 2 Hd) as [H2 N2]. destruct (quad_part d 3 Hd) as [H3 N3].
  cbv zeta in *. change (Z.of_nat 0) with 0 in *. change (Z.of_nat 1) with 1 in *.
  change (Z.of_nat 2) with 2 in *. change (Z.of_nat 3) with 3 in *.
  unfold DNS_IsDottedQuad, dotted_quad. change (lit ".") with [46].
  rewrite split_four by done.
  cbn [length Nat.eqb negb part nth]. rewrite N0, N1, N2, N3.
  repeat case_bool_decide; cbn [orb]; try reflexivity; lia.
Qed.

End Addresses.

Lemma es5_white_space_not_graphic u :
  33 <= u <= 126 -> es5_white_space u = false.
Proof.
  intros Hu. unfold es5_white_space. apply bool_decide_eq_false_2.
  rewrite !elem_of_cons, elem_of_nil. lia.
Qed.

Lemma dotted_quad_recognized_witness :
  DNS_IsDottedQuad es5_white_space (dotted_quad [192; 168; 0; 1])
  = bool_decide (4 <= length [192; 168; 0; 1])%nat.
Proof.
  apply (dotted_quad_recognized es5_white_space es5_white_space_not_graphic
           [192; 168; 0; 1]).
  repeat (apply List.Forall_cons; [lia|]). apply List.Forall_nil.
Defined.

(** X10: DNS_ReverseIPHostname turns the address that DNS_readRec makes of
    four bytes into the name of its PTR records: the bytes in reverse
    order, in decimal, under in-addr.arpa. *)
Theorem reverse_hostname_of_address a b c d :
  0 <= a < 256 -> 0 <= b < 256 -> 0 <= c < 256 -> 0 <= d < 256 ->
  DNS_ReverseIPHostname (dotted_quad [a; b; c; d])
  = digits d ++ lit "." ++ digits c ++ lit "." ++ digits b ++ lit "."
      ++ digits a ++ lit ".in-addr.arpa".
Proof.
  intros Ha Hb Hc Hd.
  destruct (digits_byte a Ha) as (? & ? & _ & _ & H0).
  destruct (digits_byte b Hb) as (? & ? & _ & _ & H1).
  destruct (digits_byte c Hc) as (? & ? & _ & _ & H2).
  destruct (digits_byte d Hd) as (? & ? & _ & _ & H3).
  unfold DNS_ReverseIPHostname, dotted_quad.
  change (charCodeAt [a; b; c; d] (Num 0)) with (Num a).
  change (charCodeAt [a; b; c; d] (Num 1)) with (Num b).
  change (charCodeAt [a; b; c; d] (Num 2)) with (Num c).
  change (charCodeAt [a; b; c; d] (Num 3)) with (Num d).
  unfold toString. change (lit ".") with [46].
  rewrite split_four by done. reflexivity.
Qed.

Lemma reverse_hostname_of_address_witness :
  DNS_ReverseIPHostname (dotted_quad [192; 168; 0; 1])
  = digits 1 ++ lit "." ++ digits 0 ++ lit "." ++ digits 168 ++ lit "."
      ++ digits 192 ++ lit ".in-addr.arpa".
Proof. apply (reverse_hostname_of_address 192 168 0 1); lia. Defined.

(** * Further properties of the receiving side *)

Lemma length_frame r : length (frame r) = (2 + length r)%nat.
Proof. unfold frame. by rewrite length_app, length_wordToStr. Qed.

Lemma frame_received r :
  12 <= Z.of_nat (length r) < 65536 -> response_received (frame r) = true.
Proof.
  intros Hr. unfold response_received, framed_response_complete.
  rewrite length_frame.
  destruct (Nat.leb_spec 14 (2 + length r)); [|lia]. cbn [andb].
  rewrite substr_0_2. unfold frame.
  rewrite take_app_length' by reflexivity.
  rewrite <- (app_nil_r (DNS_wordToStr _)) at 1.
  rewrite strToWord_wordToStr_word by lia.
  unfold add, geb. apply Z.leb_le. lia.
Qed.

Lemma frame_prefix_not_received r p q :
  Z.of_nat (length r) < 65536 ->
  p ++ q = frame r -> q <> [] -> response_received p = false.
Proof.
  intros Hr Hpq Hq. unfold response_received.
  destruct (Nat.leb_spec 14 (length p)) as [Hp|Hp]; [|reflexivity].
  cbn [andb]. unfold framed_response_complete. rewrite substr_0_2.
  assert (Htake : take 2 p = DNS_wordToStr (Z.of_nat (length r))).
  { assert (H2 : take 2 (p ++ q) = take 2 (frame r)) by (by rewrite Hpq).
    rewrite take_app_le in H2 by lia. rewrite H2. unfold frame.
    by rewrite take_app_length' by reflexivity. }
  rewrite Htake. rewrite <- (app_nil_r (DNS_wordToStr _)).
  rewrite strToWord_wordToStr_word by lia.
  assert (Hlen : (length p + length q = 2 + length r)%nat).
  { rewrite <- length_app, Hpq. apply length_frame. }
  assert (0 < length q)%nat by (destruct q; [done|cbn; lia]).
  unfold add, geb. apply Z.leb_gt. lia.
Qed.

(** The piece with which a response is whole. *)
Lemma first_completion chunks :
  forall acc,
    response_received acc = false ->
    response_received (acc ++ concat chunks) = true ->
    exists cs1 last cs2,
      chunks = cs1 ++ last :: cs2
      /\ response_received (acc ++ concat cs1) = false
      /\ response_received ((acc ++ concat cs1) ++ last) = true.
Proof.
  induction chunks as [|ch chunks IH]; intros acc Hacc Hall.
  - cbn [concat] in Hall. rewrite app_nil_r in Hall. congruence.
  - destruct (response_received (acc ++ ch)) eqn:Hch.
    + exists [], ch, chunks. cbn [concat app]. rewrite app_nil_r. done.
    + cbn [concat] in Hall. rewrite app_assoc in Hall.
      destruct (IH (acc ++ ch) Hch Hall) as (cs1 & last & cs2 & -> & Hb & Hw).
      exists (ch :: cs1), last, cs2. cbn [concat app].
      rewrite !app_assoc. done.
Qed.

Section Receiving.
Context `{Components}.

(** A framed response, in whatever pieces it comes, and whatever comes
    after it. *)
Lemma deliver_frame depth i st c chunks more r res :
  st_conns st !! i = Some c ->
  fresh c ->
  12 <= Z.of_nat (length r) < 65536 ->
  concat chunks = frame r ->
  DNS_getRDData depth r (c_server c) (c_hops c) = Some res ->
  let out := match res with Ok a => follow c a | Thrown m => Thrown m end in
  exists st' c',
    deliver_all depth i (map DataAvailable (chunks ++ more)) st = Some st'
    /\ st_pool st' = st_pool st
    /\ st_log st' = st_log st ++ events_of out
    /\ (length (st_conns st') = length (st_conns st) + length (conns_of out))%nat
    /\ st_conns st' !! i = Some c'
    /\ same_query c c' /\ c_stopped c' = false /\ done (c_listener c') = true.
Proof.
  intros Hc Hfresh Hr Hchunks Hrd out. subst out.
  assert (Hwhole : response_received ([] ++ concat chunks) = true).
  { cbn [app]. rewrite Hchunks. by apply frame_received. }
  destruct (first_completion chunks [] eq_refl Hwhole)
    as (cs1 & last & cs2 & -> & Hb & Hw).
  cbn [app] in Hb, Hw.
  assert (Hrest : concat cs2 = []).
  { destruct (concat cs2) as [|u rest] eqn:Hcs2; [reflexivity|exfalso].
    rewrite concat_app in Hchunks. cbn [concat] in Hchunks.
    rewrite Hcs2 in Hchunks.
    assert (Hnot : response_received (concat cs1 ++ last) = false).
    { eapply (frame_prefix_not_received r _ (u :: rest)); [lia| |done].
      by rewrite <- app_assoc. }
    congruence. }
  assert (Hframe : concat cs1 ++ last = frame r).
  { rewrite concat_app in Hchunks. cbn [concat] in Hchunks.
    by rewrite Hrest, app_nil_r in Hchunks. }
  assert (Hrd' : DNS_getRDData depth (drop 2 (concat cs1 ++ last)) (c_server c) (c_hops c)
                 = Some res).
  { rewrite Hframe. unfold frame. by rewrite drop_app_length' by reflexivity. }
  destruct (deliver_response depth i st c cs1 last res Hc Hfresh (conj Hb Hw) Hrd')
    as (st1 & c1 & Hrun1 & Hpool1 & Hlog1 & Hlen1 & Hc1 & Hsame1 & Hstop1 & Hdone1).
  destruct (deliver_done depth i (cs2 ++ more) st1 c1 Hc1 Hstop1 Hdone1)
    as (st2 & c2 & Hrun2 & Hpool2 & Hlog2 & Hlen2 & Hc2 & Hsame2 & Hstop2 & Hdone2).
  exists st2, c2.
  replace ((cs1 ++ last :: cs2) ++ more) with ((cs1 ++ [last]) ++ cs2 ++ more)
    by (rewrite <- !app_assoc; reflexivity).
  rewrite map_app, deliver_all_app, Hrun1.
  split; [exact Hrun2|]. split; [congruence|]. split; [congruence|].
  split; [congruence|]. split; [exact Hc2|]. split; [|done].
  by eapply same_query_trans.
Qed.

(** X11: A response framed by its length is decoded once, whatever the
    pieces it comes in: the log gets what DNS_getRDData makes of the
    bytes behind the length prefix, and what the socket delivers
    afterwards, more data or the end of the stream, adds nothing. *)
Theorem framed_response_is_decoded_once depth i st c chunks more r res :
  st_conns st !! i = Some c ->
  fresh c ->
  12 <= Z.of_nat (length r) < 65536 ->
  concat chunks = frame r ->
  DNS_getRDData depth r (c_server c) (c_hops c) = Some res ->
  let out := match res with Ok a => follow c a | Thrown m => Thrown m end in
  exists st',
    deliver_all depth i
      (map DataAvailable (chunks ++ more) ++ [StopRequest 0]) st = Some st'
    /\ st_pool st' = st_pool st
    /\ st_log st' = st_log st ++ events_of out
    /\ (length (st_conns st') = length (st_conns st) + length (conns_of out))%nat.
Proof.
  intros Hc Hfresh Hr Hchunks Hrd out. subst out.
  destruct (deliver_frame depth i st c chunks more r res Hc Hfresh Hr Hchunks Hrd)
    as (st1 & c1 & Hrun1 & Hpool1 & Hlog1 & Hlen1 & Hc1 & _ & Hstop1 & Hdone1).
  destruct (stop_done depth i st1 c1 Hc1 Hstop1 Hdone1)
    as (st2 & Hrun2 & Hpool2 & Hlog2 & Hlen2).
  exists st2. rewrite deliver_all_app, Hrun1. cbn [deliver_all]. rewrite Hrun2.
  split; [reflexivity|]. split; [congruence|]. split; [congruence|]. congruence.
Qed.

End Receiving.

(** * Further properties of response decoding *)

Lemma header_counts a b c d q1 q2 n1 n2 u1 u2 d1 d2 rest :
  let s := [a; b; c; d; q1; q2; n1; n2; u1; u2; d1; d2] ++ rest in
  substr s (Num 4) (Num 2) = [q1; q2]
  /\ substr s (Num 6) (Num 2) = [n1; n2]
  /\ substr s (Num 8) (Num 2) = [u1; u2]
  /\ substr s (Num 10) (Num 2) = [d1; d2].
Proof.
  intros s. subst s. split; [|split; [|split]].
  - exact (substr_at [a; b; c; d] [q1; q2] _ 2 eq_refl).
  - exact (substr_at [a; b; c; d; q1; q2] [n1; n2] _ 2 eq_refl).
  - exact (substr_at [a; b; c; d; q1; q2; n1; n2] [u1; u2] _ 2 eq_refl).
  - exact (substr_at [a; b; c; d; q1; q2; n1; n2; u1; u2] [d1; d2] rest 2 eq_refl).
Qed.

(** What DNS_getRDData makes of [txt_response]. *)
Lemma getRDData_txt_response depth id flags qname ttl strings server hops :
  length id = 2%nat ->
  length flags = 2%nat ->
  length ttl = 4%nat ->
  Forall (fun label => (1 <= length label <= 63)%nat) (split 46 qname) ->
  (length (split 46 qname) <= 19)%nat ->
  Forall (fun s => (length s <= 255)%nat) strings ->
  Z.of_nat (length (txt_rdata strings)) < 65536 ->
  DNS_getRDData (S (S depth)) (txt_response id flags qname ttl strings) server hops
  = Some (Ok (RdCallback (Some [RDString (concat (take 10 strings))]))).
Proof.
  intros Hid Hflags Httl HF Hparts Hstrings Hlen.
  destruct id as [|i1 [|i2 [|? ?]]]; try discriminate.
  destruct flags as [|f1 [|f2 [|? ?]]]; try discriminate.
  set (parts := split 46 qname) in *.
  set (L := append_labels [] parts).
  set (n := Z.of_nat (length (txt_rdata strings))) in *.
  set (hdr := [i1; i2; f1; f2; 0; 1; 0; 1; 0; 0; 0; 0]).
  set (tail3 := DNS_wordToStr 16 ++ DNS_wordToStr 1 ++ ttl
                  ++ DNS_wordToStr n ++ txt_rdata strings ++ []).
  set (pre2 := hdr ++ L ++ 0 :: DNS_wordToStr 16 ++ DNS_wordToStr 1).
  remember (txt_response [i1; i2] [f1; f2] qname ttl strings) as s eqn:Hs.
  assert (V1 : s = hdr ++ L ++ 0 :: (DNS_wordToStr 16 ++ DNS_wordToStr 1
                                       ++ (192 + 0) :: 12 :: tail3)).
  { rewrite Hs. unfold txt_response, encode_name. subst tail3.
    rewrite app_nil_r. rewrite <- !app_assoc. reflexivity. }
  assert (V2 : s = pre2 ++ (192 + 0) :: 12 :: tail3).
  { rewrite V1. subst pre2. rewrite <- !app_assoc. reflexivity. }
  assert (V3 : s = (pre2 ++ [192; 12]) ++ tail3).
  { rewrite V2. rewrite <- !app_assoc. reflexivity. }
  assert (Hpre2 : length pre2 = (12 + length L + 1 + 2 + 2)%nat).
  { subst pre2. rewrite !length_app. cbn [length]. rewrite !length_app.
    rewrite !length_wordToStr. subst hdr. cbn [length]. lia. }
  (* the name of the question *)
  assert (Hq : forall d,
             DNS_readDomain (S d) (Ctx s (Num 12))
             = Some (join_labels [] parts,
                     Ctx s (Num (Z.of_nat (12 + length L + 1))))).
  { intros d. rewrite DNS_readDomain_S. rewrite V1.
    apply (readDomain_loop_labels (DNS_readDomain d) parts 20 [] hdr _ HF). lia. }
  (* the owner name of the answer *)
  assert (Hown : DNS_readDomain (S (S depth)) (Ctx s (Num (Z.of_nat (length pre2))))
                 = Some (join_labels [] parts,
                         Ctx s (Num (Z.of_nat (length (pre2 ++ [192; 12])))))).
  { rewrite length_app. cbn [length]. rewrite V2.
    apply (readDomain_at_pointer (S depth) pre2 0 12 tail3 (join_labels [] parts)
             (Ctx s (Num (Z.of_nat (12 + length L + 1))))); [lia|].
    rewrite <- V2. apply Hq. }
  assert (Hrec : exists cls' ttl' rdlen',
             DNS_readRec (S (S depth)) (Ctx s (Num (Z.of_nat (length pre2))))
             = Some (RR (join_labels [] parts) (TName "TXT") cls' ttl' rdlen' true
                       (RDString (concat (take 10 strings))),
                     Ctx s (Num (Z.of_nat (length (pre2 ++ [192; 12]) + 10
                                           + length (txt_rdata strings)))))).
  { rewrite V3 in Hown |- *. subst tail3.
    apply (readRec_txt_record (S (S depth)) _ (join_labels [] parts)
             (pre2 ++ [192; 12]) (DNS_wordToStr 1) ttl strings [] Hown);
      [reflexivity|exact Httl|exact Hstrings|exact Hlen]. }
  destruct Hrec as (cls' & ttl' & rdlen' & Hrec).
  (* the counts of the header *)
  assert (Hcounts : substr s (Num 4) (Num 2) = [0; 1]
                    /\ substr s (Num 6) (Num 2) = [0; 1]
                    /\ substr s (Num 8) (Num 2) = [0; 0]
                    /\ substr s (Num 10) (Num 2) = [0; 0]).
  { rewrite V1. apply (header_counts i1 i2 f1 f2 0 1 0 1 0 0 0 0). }
  destruct Hcounts as (Hqd & Han & Hau & Had).
  clear Hs V1 V2 V3.
  unfold DNS_getRDData. cbv zeta. rewrite Hqd, Han, Hau, Had.
  change (DNS_strToWord [0; 1]) with (Num 1).
  change (DNS_strToWord [0; 0]) with (Num 0).
  change (negb (eqb (Num 1) (Num 1))) with false.
  change (gtb (Num 1) (Num 128)) with false.
  change (gtb (Num 0) (Num 128)) with false.
  change (loop_count (Num 1)) with 1%nat.
  change (loop_count (Num 0)) with 0%nat.
  cbv beta iota.
  cbn [read_questions]. unfold read_question. rewrite Hq. cbv zeta.
  unfold set_idx. cbn [str idx]. rewrite !add_Num.
  replace (Z.of_nat (12 + length L + 1) + 2 + 2) with (Z.of_nat (length pre2)) by lia.
  cbn [read_answers]. rewrite Hrec.
  cbn [rec_recognized negb rec_type is_type rec_rddata app read_answers
       read_records read_additional].
  reflexivity.
Qed.

Lemma find_referral_other server authorities ns :
  find_referral server authorities = Some ns ->
  ns <> server
  /\ exists a, In a authorities /\ rec_type a = TName "NS"
               /\ rec_rddata a = RDString ns.
Proof.
  induction authorities as [|a rest IH]; cbn [find_referral]; [discriminate|].
  intros Hf.
  assert (Hrest : find_referral server rest = Some ns ->
                  ns <> server
                  /\ exists a0, In a0 (a :: rest) /\ rec_type a0 = TName "NS"
                                /\ rec_rddata a0 = RDString ns).
  { intros Hr. destruct (IH Hr) as (Hne & a0 & Hin & Ht & Hd).
    split; [exact Hne|]. exists a0. split; [by right|]. done. }
  destruct (rec_rddata a) as [|d|? ? ?] eqn:Hd; [by apply Hrest| |by apply Hrest].
  destruct (is_type "NS" (rec_type a) && negb (bool_decide (d = server))) eqn:Hc;
    [|by apply Hrest].
  injection Hf as <-. apply andb_true_iff in Hc as [Ht Hne].
  apply negb_true_iff, bool_decide_eq_false in Hne.
  split; [exact Hne|]. exists a. split; [by left|]. split; [|exact Hd].
  destruct (rec_type a) as [?|name]; cbn [is_type] in Ht; [discriminate|].
  apply String.eqb_eq in Ht. by subst name.
Qed.

(** X12: When DNS_getRDData follows a referral, the server it names is not
    the one that sent the response, and the hop count is one more: an
    NS record that names the answering server is passed over. *)
Theorem referral_is_to_another_server depth str server hops ns h :
  DNS_getRDData depth str server hops = Some (Ok (RdRecurse ns h)) ->
  ns <> server /\ h = hops + 1.
Proof.
  intros Hr. split; [|by eapply getRDData_recurse].
  revert Hr. unfold DNS_getRDData. cbv zeta. intros Hr.
  repeat match type of Hr with
         | (if ?b then _ else _) = _ => destruct b; [discriminate|]
         end.
  destruct (read_questions _ _ _) as [cq|]; [|discriminate].
  destruct (read_answers _ _ _ _) as [[[answers ca]|]|]; [|discriminate..].
  destruct (DNS_strToWord (substr str (Num 8) (Num 2))) as [aucount|]; [|discriminate].
  destruct (read_records _ _ _ _) as [[authorities cu]|]; [|discriminate].
  destruct (read_additional _ _ _ _) as [[[final cd]|]|]; [|discriminate..].
  destruct final; [|discriminate].
  destruct (find_referral server authorities) as [ns'|] eqn:Hf; [|discriminate].
  injection Hr as <- _. by apply find_referral_other in Hf as [Hne _].
Qed.

Lemma referral_is_to_another_server_witness :
  lit "ns1.example.org" <> lit "8.8.8.8" /\ 1 = 0 + 1.
Proof.
  apply (referral_is_to_another_server 2 (referral_to (lit "ns1")) (lit "8.8.8.8") 0
           (lit "ns1.example.org") 1).
  vm_compute. reflexivity.
Defined.

(** ** The exceptions of the decoder *)

Lemma length_substr s a n :
  0 <= a -> 0 <= n -> a + n <= Z.of_nat (length s) ->
  length (substr s (Num a) (Num n)) = Z.to_nat n.
Proof.
  intros Ha Hn Hlen. unfold substr. cbn [ToIntegerOrInfinity].
  destruct (Z.ltb_spec a 0); [lia|].
  rewrite length_firstn, length_skipn. lia.
Qed.

Lemma strToWord_long s :
  (2 <= length s)%nat -> exists z, DNS_strToWord s = Num z.
Proof.
  intros Hs. destruct (DNS_strToWord s) as [z|] eqn:Hw; [by exists z|].
  destruct s as [|a [|b rest]]; cbn [length] in Hs; [lia..|].
  exfalso. revert Hw. unfold DNS_strToWord, charCodeAt, shl.
  cbn [ToIntegerOrInfinity length].
  destruct (Z.leb_spec (Z.of_nat (S (S (length rest)))) 1); [lia|].
  destruct (Z.leb_spec (Z.of_nat (S (S (length rest)))) 0); [lia|].
  change (Z.to_nat 1) with 1%nat. change (Z.to_nat 0) with 0%nat.
  cbn [Z.ltb Z.compare orb nth_error]. unfold add. discriminate.
Qed.

Lemma readRec_recognized_defined depth c rec c' :
  DNS_readRec depth c = Some (rec, c') ->
  rec_recognized rec = true -> rec_rddata rec <> RDUndefined.
Proof.
  intros H. unfold DNS_readRec in H.
  destruct (DNS_readDomain depth c) as [[dom c1]|]; [|discriminate].
  cbv zeta in H.
  repeat match type of H with
         | (if ?b then _ else _) = _ => destruct b
         | (let '(_, _) := ?x in _) = _ => destruct x as [[? ?] ?]
         | match ?x with Some _ => _ | None => _ end = _ =>
             destruct x as [[? ?]|]; [|discriminate]
         end;
    inversion H; subst; cbn; done.
Qed.

Lemma attach_addresses_thrown rec results m :
  Forall pushed results ->
  attach_addresses rec results = Thrown m ->
  m = "TypeError: results[j].address is undefined"%string.
Proof.
  induction results as [|r rs IH]; intros HF H; cbn [attach_addresses] in H.
  - discriminate.
  - pose proof (Forall_inv HF) as [Hdef Hunset].
    pose proof (Forall_inv_tail HF) as HF'.
    destruct (attach_address rec r) as [r'|m'] eqn:Hr.
    + destruct (attach_addresses rec rs) as [rs'|m'] eqn:Hrs; [discriminate|].
      injection H as <-. by apply IH.
    + injection H as <-.
      destruct r as [|s|preference host address]; cbn in Hr, Hunset; [done|discriminate|].
      subst address.
      destruct (negb (bool_decide (host = [])) && bool_decide (host = rec_dom rec));
        [|discriminate].
      by injection Hr as <-.
Qed.

Lemma read_answers_pushed depth n :
  forall results c results' c',
    Forall pushed results ->
    read_answers depth n results c = Some (Ok (results', c')) ->
    Forall pushed results'.
Proof.
  induction n as [|n IH]; intros results c results' c' HF H; cbn [read_answers] in H.
  - by inversion H; subst.
  - destruct (DNS_readRec depth c) as [[rec c1]|] eqn:Hrec; [|discriminate].
    destruct (rec_recognized rec) eqn:Hrecog; cbn [negb] in H; [|discriminate].
    eapply IH; [|exact H].
    destruct (negb (is_type "CNAME" (rec_type rec))); [|exact HF].
    apply Forall_app. split; [exact HF|].
    constructor; [|constructor]. split.
    + by eapply readRec_recognized_defined.
    + by eapply readRec_address_unset.
Qed.

Lemma read_answers_thrown depth n :
  forall results c m,
    read_answers depth n results c = Some (Thrown m) ->
    m = "Record type is not one that this library can understand."%string.
Proof.
  induction n as [|n IH]; intros results c m H; cbn [read_answers] in H.
  - discriminate.
  - destruct (DNS_readRec depth c) as [[rec c1]|]; [|discriminate].
    destruct (negb (rec_recognized rec)); [by inversion H|].
    by eapply IH.
Qed.

Lemma read_additional_thrown depth n :
  forall results c m,
    Forall pushed results ->
    read_additional depth n results c = Some (Thrown m) ->
    m = "TypeError: results[j].address is undefined"%string.
Proof.
  induction n as [|n IH]; intros results c m HF H; cbn [read_additional] in H.
  - discriminate.
  - destruct (DNS_readRec depth c) as [[rec c1]|] eqn:Hrec; [|discriminate].
    destruct (is_type "A" (rec_type rec)).
    + destruct (attach_addresses rec results) as [results1|m1] eqn:Ha.
      * assert (results1 = results) as ->.
        { eapply attach_addresses_unset; [|exact Ha].
          eapply Forall_impl; [exact HF|]. by intros r [_ Hu]. }
        by eapply IH.
      * injection H as <-. by eapply attach_addresses_thrown.
    + by eapply IH.
Qed.

(** The exceptions of DNS_getRDData on a response that has its
    12-byte header. *)
Lemma getRDData_thrown depth str server hops m :
  (12 <= length str)%nat ->
  DNS_getRDData depth str server hops = Some (Thrown m) ->
  In m lookup_exceptions.
Proof.
  intros Hlen. unfold DNS_getRDData. cbv zeta. intros H.
  repeat match type of H with
         | (if ?b then _ else _) = _ =>
             destruct b; [injection H as <-; cbn; tauto|]
         end.
  destruct (read_questions _ _ _) as [cq|]; [|discriminate].
  destruct (read_answers _ _ _ _) as [[[answers ca]|m1]|] eqn:Hans; [| |discriminate].
  2:{ injection H as <-. apply read_answers_thrown in Hans as ->. cbn. tauto. }
  destruct (strToWord_long (substr str (Num 8) (Num 2))) as [aucount Hau].
  { rewrite length_substr by lia. cbn. lia. }
  rewrite Hau in H.
  destruct (read_records _ _ _ _) as [[authorities cu]|]; [|discriminate].
  destruct (read_additional _ _ _ _) as [[[final cd]|m1]|] eqn:Hadd; [| |discriminate].
  - destruct final; [destruct (find_referral _ _)|]; discriminate.
  - injection H as <-.
    apply read_additional_thrown in Hadd as ->; [cbn; tauto|].
    eapply read_answers_pushed; [|exact Hans]. constructor.
Qed.

Lemma encode_query_thrown host recordtype m :
  encode_query host recordtype = Thrown m -> m = "Invalid record type."%string.
Proof.
  unfold encode_query. destruct (qtype_of recordtype); [discriminate|].
  by intros [= <-].
Qed.

Lemma queryDNSRecursive_thrown pool server host recordtype hops servers m :
  queryDNSRecursive pool server host recordtype hops servers = Thrown m ->
  servers = true \/ server <> None ->
  m = "Invalid record type."%string.
Proof.
  intros Hq Hs.
  destruct (queryDNSRecursive_cases pool server host recordtype hops servers)
    as [(_ & _ & Hr)|[(_ & Hr)|[(_ & m' & Hr & Hc)|(_ & c & Hr & _)]]];
    rewrite Hq in Hr; try discriminate.
  injection Hr as <-. destruct Hc as [He|[-> ->]].
  - by eapply encode_query_thrown.
  - by destruct Hs.
Qed.

Lemma process_thrown depth c l data l' r m :
  process depth c l data = Some (l', r) ->
  In (EvThrow m) (events_of r) -> In m lookup_exceptions.
Proof.
  unfold process. intros Hp Hin.
  destruct (done l); [injection Hp as <- <-; destruct Hin|].
  destruct (fill_header (responseHeader l) data) as [header rest] eqn:Hfill.
  destruct (Nat.eqb_spec (length header) 14) as [H14|_];
    [|injection Hp as <- <-; destruct Hin].
  destruct (geb _ _); [|injection Hp as <- <-; destruct Hin].
  destruct (DNS_getRDData _ _ _ _) as [[a|m1]|] eqn:Hrd; [| |discriminate].
  - injection Hp as <- <-. destruct a as [results|ns h]; cbn [follow] in Hin.
    + cbn in Hin. destruct Hin as [Hin|[]]. discriminate.
    + destruct (queryDNSRecursive [] (Some ns) (c_host c) (c_recordtype c) h false)
        as [acts|m1] eqn:Hq.
      * cbn [events_of] in Hin. apply in_map_iff in Hin as (a & Ha & _).
        destruct a; discriminate.
      * cbn in Hin. destruct Hin as [[= <-]|[]].
        apply queryDNSRecursive_thrown in Hq as ->; [cbn; tauto|].
        by right.
  - injection Hp as <- <-. cbn in Hin. destruct Hin as [[= <-]|[]].
    eapply getRDData_thrown; [|exact Hrd].
    rewrite length_app, length_skipn. lia.
Qed.

Section Exceptions.
Context `{Components}.

Lemma finished_thrown depth pool c l data status pool' l' r m :
  finished depth pool c l data status = Some (pool', l', r) ->
  In (EvThrow m) (events_of r) -> In m lookup_exceptions.
Proof.
  intros Hf Hin.
  destruct (finished_cases _ _ _ _ _ _ _ _ _ Hf)
    as [(_ & _ & _ & ->)|[(_ & k & _ & _ & ->)|(_ & _ & r0 & Hp & Hr)]].
  - cbn in Hin. destruct Hin as [Hin|[]]. discriminate.
  - destruct (queryDNSRecursive pool' None (c_host c) (c_recordtype c) (c_hops c) true)
      as [acts|m1] eqn:Hq.
    + destruct (queryDNSRecursive_cases pool' None (c_host c) (c_recordtype c)
                  (c_hops c) true)
        as [(_ & _ & Hr)|[(_ & Hr)|[(_ & m' & Hr & _)|(_ & c1 & Hr & _)]]];
        rewrite Hq in Hr; try discriminate; injection Hr as ->;
        cbn in Hin; destruct Hin as [Hin|[]]; discriminate.
    + cbn in Hin. destruct Hin as [[= <-]|[]].
      apply queryDNSRecursive_thrown in Hq as ->; [cbn; tauto|by left].
  - destruct Hr as [->|(acts & -> & _ & ->)].
    + by eapply process_thrown.
    + cbn [events_of] in Hin. rewrite map_app in Hin.
      apply in_app_iff in Hin as [Hin|Hin].
      * eapply process_thrown; [exact Hp|exact Hin].
      * cbn in Hin. destruct Hin as [Hin|[]]. discriminate.
Qed.

(** X13: The exceptions that leave a lookup are the one of
    queryDNSRecursive on a record type it does not know, the five of
    DNS_getRDData on a response it rejects, and the TypeError on the
    [address] of an MX value.  The decoder is never given less than
    the 12 bytes of a header.  (A step is a handler that returns or
    throws: a name whose pointers never end makes DNS_readDomain call
    itself without end, and what the engine does of that is not a
    step.) *)
Theorem lookup_throws_only_these pool host recordtype st m :
  reachable pool host recordtype st ->
  In (EvThrow m) (st_log st) ->
  In m lookup_exceptions.
Proof.
  unfold reachable. intros Hsteps.
  remember (queryDNS pool host recordtype) as start eqn:Hstart. revert m.
  induction Hsteps as [st0|st0 st1 st2 Hsteps IH Hstep]; intros m Hin.
  - subst st0. unfold queryDNS in Hin. rewrite perform_spec in Hin. cbn [st_log app] in Hin.
    destruct (queryDNSRecursive pool None host recordtype 0 true) as [acts|m1] eqn:Hq.
    + destruct (queryDNSRecursive_cases pool None host recordtype 0 true)
        as [(_ & _ & Hr)|[(_ & Hr)|[(_ & m' & Hr & _)|(_ & c1 & Hr & _)]]];
        rewrite Hq in Hr; try discriminate; injection Hr as ->;
        cbn in Hin; destruct Hin as [Hin|[]]; discriminate.
    + cbn in Hin. destruct Hin as [[= <-]|[]].
      apply queryDNSRecursive_thrown in Hq as ->; [cbn; tauto|by left].
  - destruct Hstep as [depth i e st1 st2 Hd].
    destruct (deliver_cases _ _ _ _ _ Hd)
      as (c & c' & r & _ & _ & _ & _ & Hlog & He).
    rewrite Hlog in Hin. apply in_app_iff in Hin as [Hin|Hin]; [by apply IH|].
    destruct e as [bytes|status].
    + destruct He as (_ & l' & Hp). by eapply process_thrown.
    + destruct He as (l' & Hf). by eapply finished_thrown.
Qed.

End Exceptions.

Lemma lookup_throws_only_these_witness :
  exists st,
    reachable (H := mozilla) pool_of_one (lit "example.org") "A" st
    /\ In (EvThrow "Invalid response: Question section didn't have exactly one record.")
          (st_log st)
    /\ In "Invalid response: Question section didn't have exactly one record."%string
          lookup_exceptions.
Proof.
  destruct (run (H := mozilla) 1 [(0%nat, DataAvailable (frame two_questions_response))]
              (queryDNS pool_of_one (lit "example.org") "A")) as [st|] eqn:Hrun;
    [|vm_compute in Hrun; discriminate].
  exists st.
  assert (Hreach : reachable (H := mozilla) pool_of_one (lit "example.org") "A" st).
  { unfold reachable. eapply run_steps. exact Hrun. }
  assert (Hin : In (EvThrow "Invalid response: Question section didn't have exactly one record.")
                   (st_log st)).
  { vm_compute in Hrun. injection Hrun as <-. cbn [st_log]. right. left. reflexivity. }
  split; [exact Hreach|]. split; [exact Hin|].
  exact (lookup_throws_only_these (H := mozilla) pool_of_one (lit "example.org") "A" st _
           Hreach Hin).
Defined.

(** * Further properties of the resolver *)

Lemma length_txt_response id flags qname ttl strings :
  (12 + length (txt_rdata strings) <= length (txt_response id flags qname ttl strings)
                                      + (2 - length id) + (2 - length flags))%nat.
Proof.
  unfold txt_response. rewrite !length_app, !length_wordToStr. lia.
Qed.

Section Lookups.
Context `{Components}.

(** queryDNS with a record type it knows and a pool that has an alive
    server: one socket, to the first of them. *)
Lemma queryDNS_connects pool host recordtype t i server :
  qtype_of recordtype = Some t ->
  first_alive pool = Some (i, server) ->
  exists c,
    queryDNS pool host recordtype = State pool [c] [EvConnect server 0 (Some i)]
    /\ fresh c /\ c_server c = server /\ c_hops c = 0 /\ c_servers c = Some i
    /\ c_host c = host /\ c_recordtype c = recordtype.
Proof.
  intros Ht Hf. unfold queryDNS.
  destruct (encode_query_shape host recordtype t Ht) as (query & Hq & _).
  destruct (queryDNSRecursive_cases pool None host recordtype 0 true)
    as [(_ & Hnone & _)|[(Hh & _)|[(_ & m & _ & [He|[Hs _]])|(_ & c & Hr & Hfresh & Hhops
                                                           & Hhost & Hrt & _ & i' & Hf' & Hi')]]];
    try congruence.
  rewrite Hf in Hf'. injection Hf' as <- Hserver.
  exists c. rewrite Hr. cbn [perform fold_left perform_one st_pool st_conns st_log app].
  rewrite <- Hserver, Hhops, Hi'. done.
Qed.

(** X14: A TXT lookup that is answered: the response may come in any
    pieces; the callback is called once, with one string, the
    character strings of the record joined (the first 10 of them), and
    the end of the stream adds nothing.  The name in the response, its
    ID and its flags are not compared with anything: [qname], [id] and
    [flags] are any. *)
Theorem txt_lookup_delivers_joined_strings pool host i server depth
    id flags qname ttl strings chunks :
  first_alive pool = Some (i, server) ->
  length id = 2%nat ->
  length flags = 2%nat ->
  length ttl = 4%nat ->
  Forall (fun label => (1 <= length label <= 63)%nat) (split 46 qname) ->
  (length (split 46 qname) <= 19)%nat ->
  Forall (fun s => (length s <= 255)%nat) strings ->
  Z.of_nat (length (txt_response id flags qname ttl strings)) < 65536 ->
  concat chunks = frame (txt_response id flags qname ttl strings) ->
  exists st',
    deliver_all (S (S depth)) 0 (map DataAvailable chunks ++ [StopRequest 0])
      (queryDNS pool host "TXT") = Some st'
    /\ st_log st'
       = [EvConnect server 0 (Some i);
          EvCallback (Some [RDString (concat (take 10 strings))]) None]
    /\ st_pool st' = pool.
Proof.
  intros Hf Hid Hflags Httl Hlabels Hparts Hstrings Hlen Hchunks.
  destruct (queryDNS_connects pool host "TXT" 16 i server eq_refl Hf)
    as (c & Hstart & Hfresh & Hserver & Hhops & _).
  pose proof (length_txt_response id flags qname ttl strings) as Hl.
  assert (Hrd : DNS_getRDData (S (S depth)) (txt_response id flags qname ttl strings)
                  (c_server c) (c_hops c)
                = Some (Ok (RdCallback (Some [RDString (concat (take 10 strings))])))).
  { apply getRDData_txt_response; try done. lia. }
  assert (Hc : st_conns (queryDNS pool host "TXT") !! 0%nat = Some c)
    by (by rewrite Hstart).
  assert (Hr : 12 <= Z.of_nat (length (txt_response id flags qname ttl strings)) < 65536)
    by lia.
  destruct (deliver_frame (S (S depth)) 0 _ c chunks [] _ _ Hc Hfresh Hr Hchunks Hrd)
    as (st1 & c1 & Hrun1 & Hpool1 & Hlog1 & _ & Hc1 & _ & Hstop1 & Hdone1).
  destruct (stop_done (S (S depth)) 0 st1 c1 Hc1 Hstop1 Hdone1)
    as (st2 & Hrun2 & Hpool2 & Hlog2 & _).
  exists st2. rewrite app_nil_r in Hrun1.
  rewrite deliver_all_app, Hrun1. cbn [deliver_all]. rewrite Hrun2.
  split; [reflexivity|]. rewrite Hlog2, Hlog1, Hpool2, Hpool1, Hstart. done.
Qed.

End Lookups.

Lemma txt_lookup_delivers_joined_strings_witness :
  exists st',
    deliver_all (H := mozilla) 2 0
      (map DataAvailable
         [take 9 (frame (txt_response [171; 205] [129; 128]
                           (lit "sel._domainkey.example.org") [0; 0; 14; 16]
                           [lit "v=DKIM1; k=rsa; "; lit "p=MIGfMA0G"]));
          drop 9 (frame (txt_response [171; 205] [129; 128]
                           (lit "sel._domainkey.example.org") [0; 0; 14; 16]
                           [lit "v=DKIM1; k=rsa; "; lit "p=MIGfMA0G"]))]
       ++ [StopRequest 0])
      (queryDNS pool_of_two (lit "sel._domainkey.example.org") "TXT") = Some st'
    /\ st_log st'
       = [EvConnect (lit "8.8.8.8") 0 (Some 0%nat);
          EvCallback
            (Some [RDString
                     (concat (take 10 [lit "v=DKIM1; k=rsa; "; lit "p=MIGfMA0G"]))])
            None]
    /\ st_pool st' = pool_of_two.
Proof.
  apply (txt_lookup_delivers_joined_strings (H := mozilla) pool_of_two
           (lit "sel._domainkey.example.org") 0 (lit "8.8.8.8") 0
           [171; 205] [129; 128] (lit "sel._domainkey.example.org") [0; 0; 14; 16]
           [lit "v=DKIM1; k=rsa; "; lit "p=MIGfMA0G"]).
  - reflexivity.
  - reflexivity.
  - reflexivity.
  - reflexivity.
  - vm_compute. repeat (apply List.Forall_cons; [lia|]). apply List.Forall_nil.
  - vm_compute. lia.
  - repeat (apply List.Forall_cons; [vm_compute; lia|]). apply List.Forall_nil.
  - vm_compute. reflexivity.
  - vm_compute. reflexivity.
Defined.

(** ** An answer behind a CNAME *)

(** DNS_readRec on a CNAME record whose owner name ends where [pre]
    ends: the RDATA is stepped over. *)
Lemma readRec_cname_record depth c dom pre cls ttl rdata post :
  let m := pre ++ DNS_wordToStr 5 ++ cls ++ ttl
             ++ DNS_wordToStr (Z.of_nat (length rdata)) ++ rdata ++ post in
  DNS_readDomain depth c = Some (dom, Ctx m (Num (Z.of_nat (length pre)))) ->
  length cls = 2%nat ->
  length ttl = 4%nat ->
  Z.of_nat (length rdata) < 65536 ->
  exists cls' ttl' rdlen',
    DNS_readRec depth c
    = Some (RR dom (TName "CNAME") cls' ttl' rdlen' true (RDString []),
            Ctx m (Num (Z.of_nat (length pre + 10 + length rdata)))).
Proof.
  intros m Hdom Hcls Httl Hlen.
  unfold DNS_readRec. rewrite Hdom. cbv zeta. unfold set_idx. cbn [str idx].
  rewrite !add_Num.
  assert (Htype : substr m (Num (Z.of_nat (length pre))) (Num 2) = DNS_wordToStr 5).
  { subst m. by apply substr_at. }
  rewrite Htype. change (DNS_strToWord (DNS_wordToStr 5)) with (Num 5).
  rewrite !eqb_Num. cbn [Z.eqb Pos.eqb].
  set (n := Z.of_nat (length rdata)) in *.
  assert (Hrdlen : substr m (Num (Z.of_nat (length pre) + 2 + 2 + 4)) (Num 2)
                   = DNS_wordToStr n).
  { subst m.
    replace (pre ++ DNS_wordToStr 5 ++ cls ++ ttl ++ DNS_wordToStr n ++ rdata ++ post)
      with ((pre ++ DNS_wordToStr 5 ++ cls ++ ttl) ++ DNS_wordToStr n ++ rdata ++ post)
      by (rewrite <- ?app_assoc; reflexivity).
    replace (Z.of_nat (length pre) + 2 + 2 + 4)
      with (Z.of_nat (length (pre ++ DNS_wordToStr 5 ++ cls ++ ttl)))
      by (rewrite !length_app, length_wordToStr; lia).
    by apply substr_at. }
  rewrite Hrdlen.
  rewrite <- (app_nil_r (DNS_wordToStr n)).
  rewrite strToWord_wordToStr_word by (subst n; lia).
  rewrite add_Num. do 3 eexists. do 4 f_equal. subst n. lia.
Qed.

(** What DNS_getRDData makes of [cname_txt_response]. *)
Lemma getRDData_cname_txt_response depth id flags qname ttl target strings server hops :
  length id = 2%nat ->
  length flags = 2%nat ->
  length ttl = 4%nat ->
  Forall (fun label => (1 <= length label <= 63)%nat) (split 46 qname) ->
  (length (split 46 qname) <= 19)%nat ->
  Z.of_nat (length target) < 65536 ->
  Forall (fun s => (length s <= 255)%nat) strings ->
  Z.of_nat (length (txt_rdata strings)) < 65536 ->
  DNS_getRDData (S (S depth)) (cname_txt_response id flags qname ttl target strings)
    server hops
  = Some (Ok (RdCallback (Some [RDString (concat (take 10 strings))]))).
Proof.
  intros Hid Hflags Httl HF Hparts Htarget Hstrings Hlen.
  destruct id as [|i1 [|i2 [|? ?]]]; try discriminate.
  destruct flags as [|f1 [|f2 [|? ?]]]; try discriminate.
  set (parts := split 46 qname) in *.
  set (L := append_labels [] parts).
  set (n := Z.of_nat (length (txt_rdata strings))) in *.
  set (k := Z.of_nat (length target)) in *.
  set (hdr := [i1; i2; f1; f2; 0; 1; 0; 2; 0; 0; 0; 0]).
  set (tail3 := DNS_wordToStr 16 ++ DNS_wordToStr 1 ++ ttl
                  ++ DNS_wordToStr n ++ txt_rdata strings ++ []).
  set (A2 := (192 + 0) :: 12 :: tail3).
  set (T1 := DNS_wordToStr 5 ++ DNS_wordToStr 1 ++ ttl ++ DNS_wordToStr k ++ target).
  set (pre2 := hdr ++ L ++ 0 :: DNS_wordToStr 16 ++ DNS_wordToStr 1).
  set (pre3 := (pre2 ++ [192; 12]) ++ T1).
  remember (cname_txt_response [i1; i2] [f1; f2] qname ttl target strings) as s eqn:Hs.
  assert (V1 : s = hdr ++ L ++ 0 :: (DNS_wordToStr 16 ++ DNS_wordToStr 1
                                       ++ (192 + 0) :: 12 :: T1 ++ A2)).
  { rewrite Hs. unfold cname_txt_response, encode_name. subst A2 tail3 T1.
    rewrite app_nil_r. rewrite <- !app_assoc. reflexivity. }
  assert (V2 : s = pre2 ++ (192 + 0) :: 12 :: (T1 ++ A2)).
  { rewrite V1. subst pre2. rewrite <- !app_assoc. reflexivity. }
  assert (V3 : s = (pre2 ++ [192; 12]) ++ DNS_wordToStr 5 ++ DNS_wordToStr 1 ++ ttl
                     ++ DNS_wordToStr k ++ target ++ A2).
  { rewrite V2. subst T1. rewrite <- !app_assoc. reflexivity. }
  assert (V4 : s = pre3 ++ (192 + 0) :: 12 :: tail3).
  { rewrite V3. subst pre3 T1 A2. rewrite <- !app_assoc. reflexivity. }
  assert (V5 : s = (pre3 ++ [192; 12]) ++ tail3).
  { rewrite V4. rewrite <- !app_assoc. reflexivity. }
  assert (Hpre2 : length pre2 = (12 + length L + 1 + 2 + 2)%nat).
  { subst pre2. rewrite !length_app. cbn [length]. rewrite !length_app.
    rewrite !length_wordToStr. subst hdr. cbn [length]. lia. }
  assert (Hpre3 : length pre3 = (length (pre2 ++ [192%Z; 12%Z]) + 10 + length target)%nat).
  { subst pre3 T1. rewrite !length_app, !length_wordToStr. lia. }
  assert (Hq : forall d,
             DNS_readDomain (S d) (Ctx s (Num 12))
             = Some (join_labels [] parts,
                     Ctx s (Num (Z.of_nat (12 + length L + 1))))).
  { intros d. rewrite DNS_readDomain_S. rewrite V1.
    apply (readDomain_loop_labels (DNS_readDomain d) parts 20 [] hdr _ HF). lia. }
  assert (Hown1 : DNS_readDomain (S (S depth)) (Ctx s (Num (Z.of_nat (length pre2))))
                  = Some (join_labels [] parts,
                          Ctx s (Num (Z.of_nat (length (pre2 ++ [192; 12])))))).
  { rewrite length_app. cbn [length]. rewrite V2.
    apply (readDomain_at_pointer (S depth) pre2 0 12 (T1 ++ A2) (join_labels [] parts)
             (Ctx s (Num (Z.of_nat (12 + length L + 1))))); [lia|].
    rewrite <- V2. apply Hq. }
  assert (Hrec1 : exists cls' ttl' rdlen',
             DNS_readRec (S (S depth)) (Ctx s (Num (Z.of_nat (length pre2))))
             = Some (RR (join_labels [] parts) (TName "CNAME") cls' ttl' rdlen' true
                       (RDString []),
                     Ctx s (Num (Z.of_nat (length pre3))))).
  { rewrite Hpre3. rewrite V3 in Hown1 |- *.
    apply (readRec_cname_record (S (S depth)) _ (join_labels [] parts)
             (pre2 ++ [192; 12]) (DNS_wordToStr 1) ttl target A2 Hown1);
      [reflexivity|exact Httl|exact Htarget]. }
  assert (Hown2 : DNS_readDomain (S (S depth)) (Ctx s (Num (Z.of_nat (length pre3))))
                  = Some (join_labels [] parts,
                          Ctx s (Num (Z.of_nat (length (pre3 ++ [192; 12])))))).
  { rewrite (length_app pre3). cbn [length]. rewrite V4.
    apply (readDomain_at_pointer (S depth) pre3 0 12 tail3 (join_labels [] parts)
             (Ctx s (Num (Z.of_nat (12 + length L + 1))))); [lia|].
    rewrite <- V4. apply Hq. }
  assert (Hrec2 : exists cls' ttl' rdlen',
             DNS_readRec (S (S depth)) (Ctx s (Num (Z.of_nat (length pre3))))
             = Some (RR (join_labels [] parts) (TName "TXT") cls' ttl' rdlen' true
                       (RDString (concat (take 10 strings))),
                     Ctx s (Num (Z.of_nat (length (pre3 ++ [192; 12]) + 10
                                           + length (txt_rdata strings)))))).
  { rewrite V5 in Hown2 |- *. subst tail3.
    apply (readRec_txt_record (S (S depth)) _ (join_labels [] parts)
             (pre3 ++ [192; 12]) (DNS_wordToStr 1) ttl strings [] Hown2);
      [reflexivity|exact Httl|exact Hstrings|exact Hlen]. }
  destruct Hrec1 as (cls1 & ttl1 & rdlen1 & Hrec1).
  destruct Hrec2 as (cls2 & ttl2 & rdlen2 & Hrec2).
  assert (Hcounts : substr s (Num 4) (Num 2) = [0; 1]
                    /\ substr s (Num 6) (Num 2) = [0; 2]
                    /\ substr s (Num 8) (Num 2) = [0; 0]
                    /\ substr s (Num 10) (Num 2) = [0; 0]).
  { rewrite V1. apply (header_counts i1 i2 f1 f2 0 1 0 2 0 0 0 0). }
  destruct Hcounts as (Hqd & Han & Hau & Had).
  clear Hs V1 V2 V3 V4 V5.
  unfold DNS_getRDData. cbv zeta. rewrite Hqd, Han, Hau, Had.
  change (DNS_strToWord [0; 1]) with (Num 1).
  change (DNS_strToWord [0; 2]) with (Num 2).
  change (DNS_strToWord [0; 0]) with (Num 0).
  change (negb (eqb (Num 1) (Num 1))) with false.
  change (gtb (Num 2) (Num 128)) with false.
  change (gtb (Num 0) (Num 128)) with false.
  change (loop_count (Num 1)) with 1%nat.
  change (loop_count (Num 2)) with 2%nat.
  change (loop_count (Num 0)) with 0%nat.
  cbv beta iota.
  cbn [read_questions]. unfold read_question. rewrite Hq. cbv zeta.
  unfold set_idx. cbn [str idx]. rewrite !add_Num.
  replace (Z.of_nat (12 + length L + 1) + 2 + 2) with (Z.of_nat (length pre2)) by lia.
  cbn [read_answers]. rewrite Hrec1.
  cbn [rec_recognized negb rec_type is_type rec_rddata app read_answers].
  change (String.eqb "CNAME" "CNAME") with true. cbn [negb].
  rewrite Hrec2.
  cbn [rec_recognized negb rec_type is_type rec_rddata app read_answers
       read_records read_additional].
  reflexivity.
Qed.

Lemma length_cname_txt_response id flags qname ttl target strings :
  (12 + length target + length (txt_rdata strings)
   <= length (cname_txt_response id flags qname ttl target strings)
      + (2 - length id) + (2 - length flags))%nat.
Proof.
  unfold cname_txt_response. rewrite !length_app, !length_wordToStr. lia.
Qed.

Section Alias.
Context `{Components}.

(** X15: A TXT lookup whose answer comes behind a CNAME record: the CNAME
    record is stepped over, its data unread, and the callback gets the
    strings of the TXT record as if it had come alone. *)
Theorem txt_behind_a_cname_is_delivered pool host i server depth
    id flags qname ttl target strings chunks :
  first_alive pool = Some (i, server) ->
  length id = 2%nat ->
  length flags = 2%nat ->
  length ttl = 4%nat ->
  Forall (fun label => (1 <= length label <= 63)%nat) (split 46 qname) ->
  (length (split 46 qname) <= 19)%nat ->
  Forall (fun s => (length s <= 255)%nat) strings ->
  Z.of_nat (length (cname_txt_response id flags qname ttl target strings)) < 65536 ->
  concat chunks = frame (cname_txt_response id flags qname ttl target strings) ->
  exists st',
    deliver_all (S (S depth)) 0 (map DataAvailable chunks ++ [StopRequest 0])
      (queryDNS pool host "TXT") = Some st'
    /\ st_log st'
       = [EvConnect server 0 (Some i);
          EvCallback (Some [RDString (concat (take 10 strings))]) None]
    /\ st_pool st' = pool.
Proof.
  intros Hf Hid Hflags Httl Hlabels Hparts Hstrings Hlen Hchunks.
  destruct (queryDNS_connects pool host "TXT" 16 i server eq_refl Hf)
    as (c & Hstart & Hfresh & Hserver & Hhops & _).
  pose proof (length_cname_txt_response id flags qname ttl target strings) as Hl.
  assert (Hrd : DNS_getRDData (S (S depth))
                  (cname_txt_response id flags qname ttl target strings)
                  (c_server c) (c_hops c)
                = Some (Ok (RdCallback (Some [RDString (concat (take 10 strings))])))).
  { apply getRDData_cname_txt_response; try done; lia. }
  assert (Hc : st_conns (queryDNS pool host "TXT") !! 0%nat = Some c)
    by (by rewrite Hstart).
  assert (Hr : 12 <= Z.of_nat (length (cname_txt_response id flags qname ttl target
                                         strings)) < 65536) by lia.
  destruct (deliver_frame (S (S depth)) 0 _ c chunks [] _ _ Hc Hfresh Hr Hchunks Hrd)
    as (st1 & c1 & Hrun1 & Hpool1 & Hlog1 & _ & Hc1 & _ & Hstop1 & Hdone1).
  destruct (stop_done (S (S depth)) 0 st1 c1 Hc1 Hstop1 Hdone1)
    as (st2 & Hrun2 & Hpool2 & Hlog2 & _).
  exists st2. rewrite app_nil_r in Hrun1.
  rewrite deliver_all_app, Hrun1. cbn [deliver_all]. rewrite Hrun2.
  split; [reflexivity|]. rewrite Hlog2, Hlog1, Hpool2, Hpool1, Hstart. done.
Qed.

End Alias.

Lemma txt_behind_a_cname_is_delivered_witness :
  exists st',
    deliver_all (H := mozilla) 2 0
      (map DataAvailable
         [frame (cname_txt_response [48; 48] [129; 128]
                   (lit "sel._domainkey.example.org") [0; 0; 14; 16]
                   ([3] ++ lit "key" ++ [8] ++ lit "provider" ++ [3] ++ lit "net" ++ [0])
                   [lit "v=DKIM1; p=MIGfMA0G"])]
       ++ [StopRequest 0])
      (queryDNS pool_of_one (lit "sel._domainkey.example.org") "TXT") = Some st'
    /\ st_log st'
       = [EvConnect (lit "8.8.8.8") 0 (Some 0%nat);
          EvCallback
            (Some [RDString (concat (take 10 [lit "v=DKIM1; p=MIGfMA0G"]))]) None]
    /\ st_pool st' = pool_of_one.
Proof.
  apply (txt_behind_a_cname_is_delivered (H := mozilla) pool_of_one
           (lit "sel._domainkey.example.org") 0 (lit "8.8.8.8") 0
           [48; 48] [129; 128] (lit "sel._domainkey.example.org") [0; 0; 14; 16]
           ([3] ++ lit "key" ++ [8] ++ lit "provider" ++ [3] ++ lit "net" ++ [0])
           [lit "v=DKIM1; p=MIGfMA0G"]).
  - reflexivity.
  - reflexivity.
  - reflexivity.
  - reflexivity.
  - vm_compute. repeat (apply List.Forall_cons; [lia|]). apply List.Forall_nil.
  - vm_compute. lia.
  - repeat (apply List.Forall_cons; [vm_compute; lia|]). apply List.Forall_nil.
  - vm_compute. reflexivity.
  - vm_compute. reflexivity.
Defined.

(** ** Responses without records, and record types the module does not know *)

Lemma getRDData_empty_response depth id flags qname tail server hops :
  length id = 2%nat ->
  length flags = 2%nat ->
  Forall (fun label => (1 <= length label <= 63)%nat) (split 46 qname) ->
  (length (split 46 qname) <= 19)%nat ->
  DNS_getRDData (S depth) (empty_response id flags qname tail) server hops
  = Some (Ok (RdCallback None)).
Proof.
  intros Hid Hflags HF Hparts.
  destruct id as [|i1 [|i2 [|? ?]]]; try discriminate.
  destruct flags as [|f1 [|f2 [|? ?]]]; try discriminate.
  set (parts := split 46 qname) in *.
  set (L := append_labels [] parts).
  set (hdr := [i1; i2; f1; f2; 0; 1; 0; 0; 0; 0; 0; 0]).
  remember (empty_response [i1; i2] [f1; f2] qname tail) as s eqn:Hs.
  assert (V1 : s = hdr ++ L ++ 0 :: tail).
  { rewrite Hs. unfold empty_response, encode_name.
    rewrite <- !app_assoc. reflexivity. }
  assert (Hq : DNS_readDomain (S depth) (Ctx s (Num 12))
               = Some (join_labels [] parts,
                       Ctx s (Num (Z.of_nat (12 + length L + 1))))).
  { rewrite DNS_readDomain_S. rewrite V1.
    apply (readDomain_loop_labels (DNS_readDomain depth) parts 20 [] hdr _ HF). lia. }
  assert (Hcounts : substr s (Num 4) (Num 2) = [0; 1]
                    /\ substr s (Num 6) (Num 2) = [0; 0]
                    /\ substr s (Num 8) (Num 2) = [0; 0]
                    /\ substr s (Num 10) (Num 2) = [0; 0]).
  { rewrite V1. apply (header_counts i1 i2 f1 f2 0 1 0 0 0 0 0 0). }
  destruct Hcounts as (Hqd & Han & Hau & Had).
  clear Hs V1.
  unfold DNS_getRDData. cbv zeta. rewrite Hqd, Han, Hau, Had.
  change (DNS_strToWord [0; 1]) with (Num 1).
  change (DNS_strToWord [0; 0]) with (Num 0).
  change (negb (eqb (Num 1) (Num 1))) with false.
  change (gtb (Num 0) (Num 128)) with false.
  change (loop_count (Num 1)) with 1%nat.
  change (loop_count (Num 0)) with 0%nat.
  cbv beta iota.
  cbn [read_questions]. unfold read_question. rewrite Hq. cbv zeta.
  cbn [read_answers read_records read_additional find_referral]. reflexivity.
Qed.

Lemma length_empty_response id flags qname tail :
  (12 <= length (empty_response id flags qname tail)
         + (2 - length id) + (2 - length flags))%nat.
Proof.
  unfold empty_response. rewrite !length_app, !length_wordToStr. lia.
Qed.

Section NoData.
Context `{Components}.

(** X16: A response that holds no record gives the callback null and no
    error, whatever its flags: the response code of the header
    (a server failure, a name that does not exist, a refusal) is not
    looked at, and nor are the ID, the name of the question or the
    four bytes behind it. *)
Theorem response_without_records_gives_null pool host recordtype t i server depth
    id flags qname tail chunks :
  qtype_of recordtype = Some t ->
  first_alive pool = Some (i, server) ->
  length id = 2%nat ->
  length flags = 2%nat ->
  Forall (fun label => (1 <= length label <= 63)%nat) (split 46 qname) ->
  (length (split 46 qname) <= 19)%nat ->
  Z.of_nat (length (empty_response id flags qname tail)) < 65536 ->
  concat chunks = frame (empty_response id flags qname tail) ->
  exists st',
    deliver_all (S depth) 0 (map DataAvailable chunks ++ [StopRequest 0])
      (queryDNS pool host recordtype) = Some st'
    /\ st_log st' = [EvConnect server 0 (Some i); EvCallback None None]
    /\ st_pool st' = pool.
Proof.
  intros Ht Hf Hid Hflags Hlabels Hparts Hlen Hchunks.
  destruct (queryDNS_connects pool host recordtype t i server Ht Hf)
    as (c & Hstart & Hfresh & Hserver & Hhops & _).
  pose proof (length_empty_response id flags qname tail) as Hl.
  assert (Hrd : DNS_getRDData (S depth) (empty_response id flags qname tail)
                  (c_server c) (c_hops c)
                = Some (Ok (RdCallback None)))
    by (by apply getRDData_empty_response).
  assert (Hc : st_conns (queryDNS pool host recordtype) !! 0%nat = Some c)
    by (by rewrite Hstart).
  assert (Hr : 12 <= Z.of_nat (length (empty_response id flags qname tail)) < 65536)
    by lia.
  destruct (deliver_frame (S depth) 0 _ c chunks [] _ _ Hc Hfresh Hr Hchunks Hrd)
    as (st1 & c1 & Hrun1 & Hpool1 & Hlog1 & _ & Hc1 & _ & Hstop1 & Hdone1).
  destruct (stop_done (S depth) 0 st1 c1 Hc1 Hstop1 Hdone1)
    as (st2 & Hrun2 & Hpool2 & Hlog2 & _).
  exists st2. rewrite app_nil_r in Hrun1.
  rewrite deliver_all_app, Hrun1. cbn [deliver_all]. rewrite Hrun2.
  split; [reflexivity|]. rewrite Hlog2, Hlog1, Hpool2, Hpool1, Hstart. done.
Qed.

(** X17: queryDNS with a record type other than A, NS, CNAME, PTR, MX and
    TXT throws, and calls nothing; but the pool is looked at first:
    when no server is alive the callback gets NO_SERVER_ALIVE and
    nothing is thrown. *)
Theorem unknown_record_type_throws pool host recordtype :
  qtype_of recordtype = None ->
  queryDNS pool host recordtype
  = State pool [] [match first_alive pool with
                   | Some _ => EvThrow "Invalid record type."
                   | None => EvCallback None (Some NO_SERVER_ALIVE)
                   end].
Proof.
  intros Ht. unfold queryDNS, queryDNSRecursive, encode_query. rewrite Ht.
  destruct (first_alive pool) as [[i name]|]; reflexivity.
Qed.

End NoData.

Lemma response_without_records_gives_null_witness :
  exists st',
    deliver_all (H := mozilla) 1 0
      (map DataAvailable
         [take 20 (frame (empty_response [48; 48] [129; 130] (lit "example.org")
                            [0; 16; 0; 1]));
          drop 20 (frame (empty_response [48; 48] [129; 130] (lit "example.org")
                            [0; 16; 0; 1]))]
       ++ [StopRequest 0])
      (queryDNS pool_of_one (lit "example.org") "TXT") = Some st'
    /\ st_log st' = [EvConnect (lit "8.8.8.8") 0 (Some 0%nat); EvCallback None None]
    /\ st_pool st' = pool_of_one.
Proof.
  apply (response_without_records_gives_null (H := mozilla) pool_of_one
           (lit "example.org") "TXT" 16 0 (lit "8.8.8.8") 0
           [48; 48] [129; 130] (lit "example.org") [0; 16; 0; 1]).
  - reflexivity.
  - reflexivity.
  - reflexivity.
  - reflexivity.
  - vm_compute. repeat (apply List.Forall_cons; [lia|]). apply List.Forall_nil.
  - vm_compute. lia.
  - vm_compute. reflexivity.
  - vm_compute. reflexivity.
Defined.

Lemma unknown_record_type_throws_witness :
  queryDNS pool_of_one (lit "example.org") "AAAA"
  = State pool_of_one [] [match first_alive pool_of_one with
                          | Some _ => EvThrow "Invalid record type."
                          | None => EvCallback None (Some NO_SERVER_ALIVE)
                          end].
Proof. apply (unknown_record_type_throws pool_of_one (lit "example.org") "AAAA"). reflexivity. Defined.

(** ** The server a socket is opened to *)

Lemma indexOf_None u s : indexOf u s = None -> ~ In u s.
Proof.
  induction s as [|c s IH]; cbn [indexOf]; [by intros _ []|].
  destruct (Z.eqb_spec c u); [discriminate|].
  destruct (indexOf u s); [discriminate|].
  intros _ [Hc|Hin]; [done|by apply IH].
Qed.

Lemma indexOf_Some u s k :
  indexOf u s = Some k ->
  s = firstn k s ++ u :: skipn (S k) s /\ ~ In u (firstn k s).
Proof.
  revert k. induction s as [|c s IH]; intros k; cbn [indexOf]; [discriminate|].
  destruct (Z.eqb_spec c u) as [->|Hc].
  - intros [= <-]. split; [reflexivity|]. by intros [].
  - destruct (indexOf u s) as [k'|]; [|discriminate].
    intros [= <-]. destruct (IH k' eq_refl) as [Hs Hnot].
    cbn [firstn skipn app]. split.
    + f_equal. exact Hs.
    + intros [Hin|Hin]; [done|by apply Hnot].
Qed.

(** X18: The name of the server is cut at its first colon: what is before
    is the host the socket is opened to, and has no colon in it; what
    is behind is the port, as the text it is; without a colon the port
    is 53.  A server given as an IPv6 address is cut in the same way. *)
Theorem server_is_cut_at_the_first_colon pool server host recordtype hops servers c :
  queryDNSRecursive pool server host recordtype hops servers = Ok [AConnect c] ->
  ~ In 58 (c_hostname c)
  /\ match c_port c with
     | inl port => port = 53 /\ c_hostname c = c_server c
     | inr port => c_server c = c_hostname c ++ [58] ++ port
     end.
Proof.
  unfold queryDNSRecursive. intros Hq.
  set (sel := if servers
              then match first_alive pool with
                   | Some (i, name) => (Some name, Some i)
                   | None => (None, None)
                   end
              else (server, None)) in *.
  assert (Hmain : forall name serverObj query,
             (let '(server_hostname, port) :=
                match indexOf 58 name with
                | None => (name, inl 53)
                | Some k => (firstn k name, inr (skipn (S k) name))
                end in
              Ok [AConnect (Conn name serverObj host recordtype hops
                              server_hostname port query new_listener [] false)])
             = Ok [AConnect c] ->
             ~ In 58 (c_hostname c)
             /\ match c_port c with
                | inl port => port = 53 /\ c_hostname c = c_server c
                | inr port => c_server c = c_hostname c ++ [58] ++ port
                end).
  { intros name serverObj query Hc.
    destruct (indexOf 58 name) as [k|] eqn:Hi; injection Hc as <-;
      cbn [c_hostname c_port c_server].
    - apply indexOf_Some in Hi as [Hs Hnot]. split; [exact Hnot|exact Hs].
    - apply indexOf_None in Hi. done. }
  destruct servers, (fst sel) as [name|] eqn:Hname; try discriminate;
    (destruct (hops =? 10); [discriminate|]);
    (destruct (encode_query host recordtype) as [query|]; [|discriminate]);
    try discriminate; by eapply Hmain.
Qed.

Lemma server_is_cut_at_the_first_colon_witness :
  exists c,
    queryDNSRecursive [] (Some (lit "127.0.0.1:5353")) (lit "example.org") "TXT" 1 false
    = Ok [AConnect c]
    /\ ~ In 58 (c_hostname c)
    /\ match c_port c with
       | inl port => port = 53 /\ c_hostname c = c_server c
       | inr port => c_server c = c_hostname c ++ [58] ++ port
       end.
Proof.
  destruct (queryDNSRecursive [] (Some (lit "127.0.0.1:5353")) (lit "example.org")
              "TXT" 1 false) as [[|[|c] []]|] eqn:Hq;
    try (vm_compute in Hq; discriminate).
  exists c. split; [reflexivity|].
  exact (server_is_cut_at_the_first_colon [] (Some (lit "127.0.0.1:5353"))
           (lit "example.org") "TXT" 1 false c Hq).
Defined.

(** ** The pool during a lookup *)

Lemma mark_dead_names k pool : map ns_server (mark_dead k pool) = map ns_server pool.
Proof.
  unfold mark_dead. revert k. induction pool as [|s pool IH]; intros [|k]; cbn;
    [reflexivity..|]. f_equal. apply IH.
Qed.

Lemma mark_dead_alive k pool j s :
  mark_dead k pool !! j = Some s -> ns_alive s = true -> pool !! j = Some s.
Proof.
  unfold mark_dead. intros Hl Ha.
  destruct (decide (j = k)) as [->|Hne].
  - rewrite list_lookup_alter_eq in Hl.
    destruct (pool !! k); cbn in Hl; [|discriminate].
    injection Hl as <-. discriminate.
  - by rewrite list_lookup_alter_ne in Hl.
Qed.

Section Pool.
Context `{Components}.

Lemma step_pool st st' :
  step st st' ->
  map ns_server (st_pool st') = map ns_server (st_pool st)
  /\ forall j s, st_pool st' !! j = Some s -> ns_alive s = true ->
                 st_pool st !! j = Some s.
Proof.
  intros [depth i e st0 st1 Hd].
  destruct (deliver_cases _ _ _ _ _ Hd) as (c & c' & r & _ & _ & _ & _ & _ & He).
  destruct e as [bytes|status].
  - destruct He as (-> & _). done.
  - destruct He as (l' & Hf).
    destruct (finished_cases _ _ _ _ _ _ _ _ _ Hf)
      as [(_ & _ & -> & _)|[(_ & k & _ & -> & _)|(_ & -> & _)]]; [done| |done].
    split; [apply mark_dead_names|]. intros j s. apply mark_dead_alive.
Qed.

(** X19: A lookup does not touch the names of the pool, nor its length,
    and never sets [alive] back to true: an entry that is alive at
    some point of the lookup was alive, the same, when it began. *)
Theorem lookup_only_marks_servers_dead pool host recordtype st :
  reachable pool host recordtype st ->
  map ns_server (st_pool st) = map ns_server pool
  /\ forall j s, st_pool st !! j = Some s -> ns_alive s = true -> pool !! j = Some s.
Proof.
  unfold reachable. intros Hsteps.
  remember (queryDNS pool host recordtype) as start eqn:Hstart.
  induction Hsteps as [st0|st0 st1 st2 Hsteps IH Hstep].
  - subst st0. unfold queryDNS. rewrite perform_spec. cbn [st_pool]. done.
  - destruct (IH Hstart) as [Hnames Halive].
    destruct (step_pool _ _ Hstep) as [Hnames' Halive'].
    split; [congruence|]. intros j s Hl Ha. apply Halive; [|exact Ha].
    by apply Halive'.
Qed.

End Pool.

Lemma lookup_only_marks_servers_dead_witness :
  exists st,
    reachable (H := mozilla) pool_of_two (lit "example.org") "TXT" st
    /\ st_pool st = [Nameserver (lit "8.8.8.8") false; Nameserver (lit "8.8.4.4") true]
    /\ map ns_server (st_pool st) = map ns_server pool_of_two
    /\ forall j s, st_pool st !! j = Some s -> ns_alive s = true ->
                   pool_of_two !! j = Some s.
Proof.
  destruct (run (H := mozilla) 1 [(0%nat, StopRequest 2152398861)]
              (queryDNS pool_of_two (lit "example.org") "TXT")) as [st|] eqn:Hrun;
    [|vm_compute in Hrun; discriminate].
  exists st.
  assert (Hreach : reachable (H := mozilla) pool_of_two (lit "example.org") "TXT" st).
  { unfold reachable. eapply run_steps. exact Hrun. }
  split; [exact Hreach|].
  split; [vm_compute in Hrun; by injection Hrun as <-|].
  exact (lookup_only_marks_servers_dead (H := mozilla) pool_of_two
           (lit "example.org") "TXT" st Hreach).
Defined.

(** ** Failover through the whole pool *)

Lemma alive_from_head pool :
  forall j i server rest,
    alive_from j pool = (i, server) :: rest ->
    (j <= i)%nat
    /\ first_alive pool = Some ((i - j)%nat, server)
    /\ alive_from j (mark_dead (i - j) pool) = rest.
Proof.
  induction pool as [|s pool IH]; intros j i server rest Ha; cbn [alive_from] in Ha.
  - discriminate.
  - cbn [first_alive]. destruct (ns_alive s) eqn:Hs.
    + injection Ha as <- <- <-. rewrite Nat.sub_diag.
      split; [lia|]. split; [reflexivity|].
      unfold mark_dead. cbn. reflexivity.
    + destruct (IH _ _ _ _ Ha) as (Hle & Hf & Hrest).
      rewrite Hf. split; [lia|].
      replace (i - j)%nat with (S (i - S j)) by lia.
      split; [reflexivity|].
      unfold mark_dead in *. cbn. rewrite Hs. exact Hrest.
Qed.

Lemma alive_from_nil pool :
  forall j, alive_from j pool = [] ->
            first_alive pool = None /\ Forall (fun s => ns_alive s = false) pool.
Proof.
  induction pool as [|s pool IH]; intros j Ha; cbn [alive_from] in Ha.
  - split; [reflexivity|constructor].
  - cbn [first_alive]. destruct (ns_alive s) eqn:Hs; [discriminate|].
    destruct (IH _ Ha) as [Hf HF]. rewrite Hf. split; [reflexivity|].
    by constructor.
Qed.

Lemma all_dead_first_alive pool :
  Forall (fun s => ns_alive s = false) pool -> first_alive pool = None.
Proof.
  induction pool as [|s pool IH]; intros HF; cbn [first_alive]; [reflexivity|].
  rewrite (Forall_inv HF). by rewrite IH by (by eapply Forall_inv_tail).
Qed.

Section Failover.
Context `{Components}.

Lemma queryDNS_no_server pool host recordtype :
  first_alive pool = None ->
  queryDNS pool host recordtype
  = State pool [] [EvCallback None (Some NO_SERVER_ALIVE)].
Proof.
  intros Hf. unfold queryDNS, queryDNSRecursive. rewrite Hf. reflexivity.
Qed.

Lemma queryDNSRecursive_connects pool host recordtype t i server :
  qtype_of recordtype = Some t ->
  first_alive pool = Some (i, server) ->
  exists c,
    queryDNSRecursive pool None host recordtype 0 true = Ok [AConnect c]
    /\ fresh c /\ c_server c = server /\ c_hops c = 0 /\ c_servers c = Some i
    /\ c_host c = host /\ c_recordtype c = recordtype.
Proof.
  intros Ht Hf.
  destruct (encode_query_shape host recordtype t Ht) as (query & Hq & _).
  destruct (queryDNSRecursive_cases pool None host recordtype 0 true)
    as [(_ & Hnone & _)|[(Hh & _)|[(_ & m & _ & [He|[Hs _]])|(_ & c & Hr & Hfresh & Hhops
                                                           & Hhost & Hrt & _ & i' & Hf' & Hi')]]];
    try congruence.
  rewrite Hf in Hf'. injection Hf' as <- Hserver.
  exists c. done.
Qed.

(** The sockets of a failover stopped one after the other, from the
    socket [k] on, which is the last one opened. *)
Lemma failover_run depth host recordtype t :
  qtype_of recordtype = Some t ->
  forall statuses st k c i server rest,
    Forall (fun status => status <> 0) statuses ->
    length (st_conns st) = S k ->
    st_conns st !! k = Some c ->
    fresh c -> c_servers c = Some i ->
    c_hops c = 0 -> c_host c = host -> c_recordtype c = recordtype ->
    alive_entries (st_pool st) = (i, server) :: rest ->
    length statuses = S (length rest) ->
    exists st',
      run depth (imap (fun j status => ((k + j)%nat, StopRequest status)) statuses) st
      = Some st'
      /\ st_log st'
         = st_log st
           ++ map (fun e => EvConnect (snd e) 0 (Some (fst e))) rest
           ++ [EvCallback None (Some NO_SERVER_ALIVE)]
      /\ Forall (fun s => ns_alive s = false) (st_pool st')
      /\ map ns_server (st_pool st') = map ns_server (st_pool st).
Proof.
  intros Ht. induction statuses as [|status statuses IH];
    intros st k c i server rest HF Hlen Hc Hfresh Hi Hhops Hhost Hrt Halive Hn;
    [discriminate|].
  pose proof (Forall_inv HF) as Hstatus. pose proof (Forall_inv_tail HF) as HF'.
  cbn beta in Hstatus.
  destruct Hfresh as (Hl & Hdata & Hstop).
  destruct (alive_from_head _ _ _ _ _ Halive) as (_ & _ & Hrest).
  rewrite Nat.sub_0_r in Hrest.
  rewrite imap_cons. cbn [run]. rewrite Nat.add_0_r.
  unfold deliver. rewrite Hc, Hstop. unfold onStopRequest, finished.
  destruct (Z.eqb_spec status 0) as [|_]; [done|]. cbn [negb].
  rewrite Hi, Hhops, Hhost, Hrt.
  set (pool' := mark_dead i (st_pool st)) in *.
  set (c0 := set_listener c (c_listener c) (c_data c) true).
  destruct rest as [|[i' server'] rest'].
  - destruct (alive_from_nil _ _ Hrest) as [Hnone Hdead].
    unfold queryDNSRecursive. rewrite Hnone. cbv beta iota zeta.
    cbn [fst snd perform fold_left perform_one st_pool st_conns st_log].
    destruct statuses; [|discriminate]. cbn [imap run].
    eexists. split; [reflexivity|]. cbn [st_pool st_log map app].
    split; [reflexivity|]. split; [exact Hdead|]. apply mark_dead_names.
  - destruct (alive_from_head _ _ _ _ _ Hrest) as (_ & Hfirst & _).
    rewrite Nat.sub_0_r in Hfirst.
    destruct (queryDNSRecursive_connects pool' host recordtype t i' server' Ht Hfirst)
      as (c' & Hq & Hfresh' & Hserver' & Hhops' & Hi' & Hhost' & Hrt').
    rewrite Hq. cbn [perform fold_left perform_one st_pool st_conns st_log].
    rewrite Hserver', Hhops', Hi'.
    set (st1 := State pool' (<[k:=c0]> (st_conns st) ++ [c'])
                  (st_log st ++ [EvConnect server' 0 (Some i')])).
    assert (Hlen1 : length (st_conns st1) = S (S k)).
    { subst st1. cbn [st_conns]. rewrite length_app, length_insert, Hlen. cbn. lia. }
    assert (Hc1 : st_conns st1 !! S k = Some c').
    { subst st1. cbn [st_conns].
      rewrite lookup_app_r by (rewrite length_insert; lia).
      rewrite length_insert, Hlen, Nat.sub_diag. reflexivity. }
    destruct (IH st1 (S k) c' i' server' rest' HF' Hlen1 Hc1 Hfresh' Hi' Hhops'
                Hhost' Hrt' Hrest ltac:(cbn [length] in Hn; lia))
      as (st' & Hrun & Hlog & Hdead & Hnames).
    exists st'. split.
    + rewrite <- Hrun. f_equal. apply imap_ext. intros j x _. cbn. f_equal. lia.
    + rewrite Hlog. subst st1. cbn [st_log st_pool map fst snd].
      rewrite <- app_assoc. split; [reflexivity|]. split; [exact Hdead|].
      rewrite Hnames. apply mark_dead_names.
Qed.

(** X20: When every socket of a lookup is stopped with an error, the
    lookup goes through the alive servers of the pool in their order,
    one socket for each at hop count 0, and then calls back with
    NO_SERVER_ALIVE; it leaves no entry alive, and a lookup started on
    the pool afterwards, whatever it asks for, calls back with
    NO_SERVER_ALIVE at once. *)
Theorem failover_goes_through_the_pool depth pool host recordtype t statuses :
  qtype_of recordtype = Some t ->
  Forall (fun status => status <> 0) statuses ->
  length statuses = length (alive_entries pool) ->
  exists st',
    run depth (all_stopped statuses) (queryDNS pool host recordtype) = Some st'
    /\ st_log st'
       = map (fun e => EvConnect (snd e) 0 (Some (fst e))) (alive_entries pool)
         ++ [EvCallback None (Some NO_SERVER_ALIVE)]
    /\ Forall (fun s => ns_alive s = false) (st_pool st')
    /\ map ns_server (st_pool st') = map ns_server pool
    /\ forall host' recordtype',
         queryDNS (st_pool st') host' recordtype'
         = State (st_pool st') [] [EvCallback None (Some NO_SERVER_ALIVE)].
Proof.
  intros Ht HF Hn.
  assert (Hmain : exists st',
             run depth (all_stopped statuses) (queryDNS pool host recordtype) = Some st'
             /\ st_log st'
                = map (fun e => EvConnect (snd e) 0 (Some (fst e))) (alive_entries pool)
                  ++ [EvCallback None (Some NO_SERVER_ALIVE)]
             /\ Forall (fun s => ns_alive s = false) (st_pool st')
             /\ map ns_server (st_pool st') = map ns_server pool).
  { destruct (alive_entries pool) as [|[i server] rest] eqn:Halive.
    - destruct statuses; [|discriminate].
      destruct (alive_from_nil _ _ Halive) as [Hnone Hdead].
      rewrite (queryDNS_no_server _ _ _ Hnone). cbn [all_stopped imap run].
      eexists. split; [reflexivity|]. done.
    - destruct (alive_from_head _ _ _ _ _ Halive) as (_ & Hfirst & _).
      rewrite Nat.sub_0_r in Hfirst.
      destruct (queryDNSRecursive_connects pool host recordtype t i server Ht Hfirst)
        as (c & Hq & Hfresh & Hserver & Hhops & Hi & Hhost & Hrt).
      assert (Hstart : queryDNS pool host recordtype
                       = State pool [c] [EvConnect server 0 (Some i)]).
      { unfold queryDNS. rewrite Hq.
        cbn [perform fold_left perform_one st_pool st_conns st_log app].
        by rewrite Hserver, Hhops, Hi. }
      rewrite Hstart.
      destruct (failover_run depth host recordtype t Ht statuses
                  (State pool [c] [EvConnect server 0 (Some i)]) 0 c i server rest
                  HF eq_refl eq_refl Hfresh Hi Hhops Hhost Hrt Halive Hn)
        as (st' & Hrun & Hlog & Hdead & Hnames).
      exists st'. split; [exact Hrun|]. split; [|done].
      rewrite Hlog. reflexivity. }
  destruct Hmain as (st' & Hrun & Hlog & Hdead & Hnames).
  exists st'. split; [exact Hrun|]. split; [exact Hlog|]. split; [exact Hdead|].
  split; [exact Hnames|]. intros host' recordtype'.
  apply queryDNS_no_server. by apply all_dead_first_alive.
Qed.

End Failover.

Lemma failover_goes_through_the_pool_witness :
  exists st',
    run (H := mozilla) 1 (all_stopped [2152398861; 2152398868])
      (queryDNS pool_of_two (lit "example.org") "TXT") = Some st'
    /\ st_log st'
       = map (fun e => EvConnect (snd e) 0 (Some (fst e))) (alive_entries pool_of_two)
         ++ [EvCallback None (Some NO_SERVER_ALIVE)]
    /\ Forall (fun s => ns_alive s = false) (st_pool st')
    /\ map ns_server (st_pool st') = map ns_server pool_of_two
    /\ forall host' recordtype',
         queryDNS (st_pool st') host' recordtype'
         = State (st_pool st') [] [EvCallback None (Some NO_SERVER_ALIVE)].
Proof.
  apply (failover_goes_through_the_pool (H := mozilla) 1 pool_of_two
           (lit "example.org") "TXT" 16 [2152398861; 2152398868]).
  - reflexivity.
  - repeat (apply List.Forall_cons; [lia|]). apply List.Forall_nil.
  - reflexivity.
Defined.

(** * Properties of the name server preferences *)

(** X21: DNS_StartsWith holds exactly when [b] is a prefix of [a]. *)
Theorem startsWith_iff_prefix a b :
  DNS_StartsWith a b = true <-> exists rest, a = b ++ rest.
Proof.
  unfold DNS_StartsWith. destruct (Nat.ltb_spec (length a) (length b)) as [Hlt|Hle].
  - split; [discriminate|]. intros [rest ->]. rewrite length_app in Hlt. lia.
  - rewrite bool_decide_eq_true. split.
    + intros Ht. exists (drop (length b) a).
      rewrite <- (take_drop (length b) a) at 1. by rewrite Ht.
    + intros [rest ->]. by rewrite take_app_length.
Qed.

(** ** arrayUniqBy *)

Section UniqBy.
Context {A : Type} (key : A -> jsstring).

Lemma uniq_filter_elem ary :
  forall seen,
    Forall (fun e => key e <> proto_key) ary ->
    forall e,
      e ∈ uniq_filter key seen ary
      <-> exists pre post,
            ary = pre ++ e :: post /\ (key e ∉ seen) /\ (key e ∉ map key pre).
Proof.
  induction ary as [|a ary IH]; intros seen HF e; cbn [uniq_filter].
  - split; [intros Hnil; by apply elem_of_nil in Hnil|]. intros (pre & post & Hp & _).
    by destruct pre.
  - pose proof (Forall_inv HF) as Ha. pose proof (Forall_inv_tail HF) as HF'.
    cbn beta in Ha. cbv zeta.
    destruct (bool_decide (key a ∈ seen)) eqn:Hseen.
    + apply bool_decide_eq_true in Hseen. rewrite IH by exact HF'. split.
      * intros (pre & post & -> & Hs & Hpre). exists (a :: pre), post.
        split; [reflexivity|]. split; [exact Hs|]. cbn [map].
        rewrite elem_of_cons. intros [Heq|Hin]; [|done]. by rewrite Heq in Hs.
      * intros (pre & post & Hp & Hs & Hpre). destruct pre as [|a' pre].
        { injection Hp as -> ->. done. }
        injection Hp as -> ->. exists pre, post. split; [reflexivity|].
        split; [exact Hs|]. intros Hin. apply Hpre. cbn [map]. by right.
    + apply bool_decide_eq_false in Hseen.
      rewrite bool_decide_eq_false_2 by exact Ha.
      rewrite elem_of_cons, IH by exact HF'. split.
      * intros [->|(pre & post & -> & Hs & Hpre)].
        { exists [], ary. split; [reflexivity|]. split; [exact Hseen|].
          cbn. by intros ?%elem_of_nil. }
        exists (a :: pre), post. split; [reflexivity|].
        rewrite not_elem_of_cons in Hs. destruct Hs as [Hne Hs].
        split; [exact Hs|]. cbn [map]. rewrite elem_of_cons. by intros [?|?].
      * intros (pre & post & Hp & Hs & Hpre). destruct pre as [|a' pre].
        { injection Hp as -> ->. by left. }
        injection Hp as -> ->. right. exists pre, post. split; [reflexivity|].
        cbn [map] in Hpre. rewrite not_elem_of_cons in Hpre.
        destruct Hpre as [Hne Hpre].
        split; [|exact Hpre]. rewrite not_elem_of_cons. done.
Qed.

Lemma uniq_filter_NoDup ary :
  forall seen,
    Forall (fun e => key e <> proto_key) ary ->
    NoDup (map key (uniq_filter key seen ary))
    /\ forall k, (k ∈ map key (uniq_filter key seen ary)) -> (k ∉ seen).
Proof.
  induction ary as [|a ary IH]; intros seen HF; cbn [uniq_filter].
  - split; [constructor|]. by intros k ?%elem_of_nil.
  - pose proof (Forall_inv HF) as Ha. pose proof (Forall_inv_tail HF) as HF'.
    cbn beta in Ha. cbv zeta.
    destruct (bool_decide (key a ∈ seen)) eqn:Hseen; [by apply IH|].
    apply bool_decide_eq_false in Hseen.
    rewrite bool_decide_eq_false_2 by exact Ha.
    destruct (IH (key a :: seen) HF') as [Hnd Hnot]. cbn [map]. split.
    + constructor; [|exact Hnd]. intros Hin. apply Hnot in Hin.
      apply Hin. by left.
    + intros k [->|Hin]%elem_of_cons; [exact Hseen|].
      apply Hnot in Hin. rewrite not_elem_of_cons in Hin. by destruct Hin.
Qed.

Lemma uniq_filter_sublist ary :
  forall seen, sublist (uniq_filter key seen ary) ary.
Proof.
  induction ary as [|a ary IH]; intros seen; cbn [uniq_filter]; [constructor|].
  cbv zeta. destruct (bool_decide (key a ∈ seen)).
  - by apply sublist_cons.
  - by apply sublist_skip.
Qed.

(** X22: arrayUniqBy keeps, in their order, the elements whose key no
    earlier element has, so that the keys of the result are all
    different.  (A key [__proto__] is not recorded by [seen[k] = 1],
    so this is said of arrays without such a key.) *)
Theorem arrayUniqBy_keeps_the_first_of_each_key ary :
  Forall (fun e => key e <> proto_key) ary ->
  NoDup (map key (arrayUniqBy ary key))
  /\ sublist (arrayUniqBy ary key) ary
  /\ forall e,
       e ∈ arrayUniqBy ary key
       <-> exists pre post, ary = pre ++ e :: post /\ (key e ∉ map key pre).
Proof.
  intros HF. unfold arrayUniqBy.
  split; [by apply uniq_filter_NoDup|]. split; [apply uniq_filter_sublist|].
  intros e. rewrite uniq_filter_elem by exact HF. split.
  - intros (pre & post & Hp & _ & Hpre). by exists pre, post.
  - intros (pre & post & Hp & Hpre). exists pre, post.
    split; [exact Hp|]. split; [|exact Hpre].
    intros Hnil. by apply elem_of_nil in Hnil.
Qed.

End UniqBy.

Lemma arrayUniqBy_keeps_the_first_of_each_key_witness :
  NoDup (map (fun name : jsstring => name)
           (arrayUniqBy [lit "8.8.8.8"; lit "1.1.1.1"; lit "8.8.8.8"]
              (fun name => name)))
  /\ sublist (arrayUniqBy [lit "8.8.8.8"; lit "1.1.1.1"; lit "8.8.8.8"]
                (fun name => name))
       [lit "8.8.8.8"; lit "1.1.1.1"; lit "8.8.8.8"]
  /\ forall e,
       e ∈ arrayUniqBy [lit "8.8.8.8"; lit "1.1.1.1"; lit "8.8.8.8"] (fun name => name)
       <-> exists pre post,
             [lit "8.8.8.8"; lit "1.1.1.1"; lit "8.8.8.8"] = pre ++ e :: post
             /\ (e ∉ map (fun name : jsstring => name) pre).
Proof.
  apply (arrayUniqBy_keeps_the_first_of_each_key (fun name : jsstring => name)
           [lit "8.8.8.8"; lit "1.1.1.1"; lit "8.8.8.8"]).
  repeat (apply List.Forall_cons; [vm_compute; discriminate|]). apply List.Forall_nil.
Defined.

(** ** The pool after a change of the preferences *)

Lemma pool_of_new objs :
  forall st post,
    pool_of (st ++ objs ++ post) (seq (length st) (length objs)) = objs.
Proof.
  unfold pool_of.
  induction objs as [|o objs IH]; intros st post; cbn [length seq omap list_omap];
    [reflexivity|].
  cbn [app]. rewrite list_lookup_middle by reflexivity.
  f_equal.
  replace (st ++ o :: objs ++ post) with ((st ++ [o]) ++ objs ++ post)
    by (by rewrite <- app_assoc).
  replace (S (length st)) with (length (st ++ [o]))
    by (rewrite length_app; cbn; lia).
  apply IH.
Qed.

Lemma refs_of_new (objs : list nameserver) :
  forall st post,
    Forall2 (fun (ref : nat) (o : nameserver) => (st ++ objs ++ post) !! ref = Some o)
      (seq (length st) (length objs)) objs.
Proof.
  induction objs as [|o objs IH]; intros st post; cbn [length seq]; constructor.
  - cbn [app]. by apply list_lookup_middle.
  - replace (st ++ (o :: objs) ++ post) with ((st ++ [o]) ++ objs ++ post)
      by (by rewrite <- app_assoc).
    replace (S (length st)) with (length (st ++ [o]))
      by (rewrite length_app; cbn; lia).
    apply IH.
Qed.

Lemma uniq_filter_refs (st : list nameserver) refs objs :
  Forall2 (fun (ref : nat) (o : nameserver) => st !! ref = Some o) refs objs ->
  forall seen,
    pool_of st (uniq_filter (server_of st) seen refs)
    = uniq_filter ns_server seen objs.
Proof.
  unfold pool_of.
  induction 1 as [|ref o refs objs Ho HF IH]; intros seen;
    cbn [uniq_filter omap list_omap]; [reflexivity|].
  cbv zeta.
  assert (Hk : server_of st ref = ns_server o) by (unfold server_of; by rewrite Ho).
  rewrite Hk.
  destruct (bool_decide (ns_server o ∈ seen)); [apply IH|].
  cbn [omap list_omap]. rewrite Ho. f_equal. apply IH.
Qed.

Lemma uniq_filter_new names :
  forall seen,
    uniq_filter ns_server seen (map (fun name => Nameserver name true) names)
    = map (fun name => Nameserver name true)
        (uniq_filter (fun name : jsstring => name) seen names).
Proof.
  induction names as [|n names IH]; intros seen; cbn [map uniq_filter]; [reflexivity|].
  cbv zeta. cbn [ns_server].
  destruct (bool_decide (n ∈ seen)); [apply IH|].
  cbn [map]. f_equal. apply IH.
Qed.

Lemma split_join_with sep n names :
  Forall (fun name => Forall (fun u => u <> sep) name) (n :: names) ->
  split sep (join_with sep (n :: names)) = n :: names.
Proof.
  revert n. induction names as [|m names IH]; intros n HF.
  - cbn [join_with map concat]. rewrite app_nil_r.
    apply split_no_sep. exact (Forall_inv HF).
  - cbn [join_with map concat].
    change (n ++ (sep :: m) ++ concat (map (cons sep) names))
      with (n ++ sep :: join_with sep (m :: names)).
    rewrite split_app_sep by exact (Forall_inv HF).
    by rewrite IH by exact (Forall_inv_tail HF).
Qed.

Section Preferences.
Variable white_space : Z -> bool.

Lemma pool_of_new_pref (st : list nameserver) names :
  pool_of (st ++ map (fun name => Nameserver name true) names)
    (seq (length st) (length names))
  = map (fun name => Nameserver name true) names.
Proof.
  set (objs := map (fun name => Nameserver name true) names).
  replace (length names) with (length objs) by (subst objs; by rewrite length_map).
  replace (st ++ objs) with (st ++ objs ++ []) by (by rewrite app_nil_r).
  apply pool_of_new.
Qed.

(** Without getNameserversFromOS the pool is the array of the
    preference. *)
Lemma root_pool_without_os nameserver p g :
  getNameserversFromOS g <> Some true ->
  root_pool (dnsChangeNameserver white_space nameserver p g)
  = map (fun name => Nameserver name true)
      (pref_servers white_space (split 59 nameserver)).
Proof.
  intros Hos.
  unfold dnsChangeNameserver, new_servers, update_servers, root_pool. cbv zeta.
  cbn [getNameserversFromOS].
  destruct (getNameserversFromOS g) as [[|]|]; [done| |];
    cbn [store DNS_ROOT_NAME_SERVERS]; apply pool_of_new_pref.
Qed.

(** X23: dnsChangeNameserver builds the pool anew: every entry is a new
    object, alive.  Without getNameserversFromOS the pool holds the
    pieces of the preference between semicolons, trimmed, the blank
    ones left out; with it, the servers of the operating system come
    first, and of the servers that have the same name the first is
    kept. *)
Theorem dnsChangeNameserver_builds_the_pool nameserver p g :
  root_pool (dnsChangeNameserver white_space nameserver p g)
  = map (fun name => Nameserver name true)
      (match getNameserversFromOS g with
       | Some true =>
           arrayUniqBy
             (os_servers white_space p
                ++ pref_servers white_space (split 59 nameserver))
             (fun name => name)
       | _ => pref_servers white_space (split 59 nameserver)
       end).
Proof.
  unfold dnsChangeNameserver, new_servers, update_servers, root_pool. cbv zeta.
  cbn [getNameserversFromOS].
  set (pref := pref_servers white_space (split 59 nameserver)).
  set (prefobjs := map (fun name => Nameserver name true) pref).
  assert (Hpl : length pref = length prefobjs) by (subst prefobjs; by rewrite length_map).
  assert (Hpref : pool_of (store g ++ prefobjs) (seq (length (store g)) (length pref))
                  = prefobjs).
  { rewrite Hpl.
    replace (store g ++ prefobjs) with (store g ++ prefobjs ++ [])
      by (by rewrite app_nil_r).
    apply pool_of_new. }
  destruct (getNameserversFromOS g) as [[|]|];
    cbn [store DNS_ROOT_NAME_SERVERS]; try exact Hpref.
  unfold DNS_get_OS_DNSServers, new_servers.
  cbn [store DNS_ROOT_NAME_SERVERS PREF_DNS_ROOT_NAME_SERVERS OS_DNS_ROOT_NAME_SERVERS].
  set (os := os_servers white_space p).
  set (osobjs := map (fun name => Nameserver name true) os).
  assert (Hol : length os = length osobjs) by (subst osobjs; by rewrite length_map).
  unfold arrayUniqBy.
  rewrite (uniq_filter_refs _ _ (osobjs ++ prefobjs)).
  - rewrite <- uniq_filter_new. subst osobjs prefobjs. by rewrite map_app.
  - apply Forall2_app.
    + rewrite Hol.
      replace ((store g ++ prefobjs) ++ osobjs)
        with ((store g ++ prefobjs) ++ osobjs ++ []) by (by rewrite app_nil_r).
      apply refs_of_new.
    + rewrite Hpl. rewrite <- app_assoc. apply refs_of_new.
Qed.


Lemma pref_servers_clean names :
  Forall (fun name => name <> [] /\ trim white_space name = name) names ->
  pref_servers white_space names = names.
Proof.
  induction names as [|n names IH]; intros HF; cbn [pref_servers]; [reflexivity|].
  destruct (Forall_inv HF) as [Hne Htrim]. rewrite Htrim.
  rewrite bool_decide_eq_false_2 by exact Hne. cbn [negb].
  by rewrite IH by (by eapply Forall_inv_tail).
Qed.

(** X24: A preference written as names with semicolons between them gives
    the pool of these names, in their order, when the names are not
    empty, have no white space around them and no semicolon in
    them. *)
Theorem nameserver_preference_roundtrip names p g :
  getNameserversFromOS g <> Some true ->
  Forall (fun name => name <> [] /\ trim white_space name = name
                      /\ Forall (fun u => u <> 59) name) names ->
  root_pool (dnsChangeNameserver white_space (join_with 59 names) p g)
  = map (fun name => Nameserver name true) names.
Proof.
  intros Hos HF. rewrite root_pool_without_os by exact Hos.
  assert (Hpref : pref_servers white_space (split 59 (join_with 59 names)) = names).
  { destruct names as [|n names]; [reflexivity|].
    rewrite split_join_with.
    - apply pref_servers_clean. eapply Forall_impl; [exact HF|].
      intros name (? & ? & ?). done.
    - eapply Forall_impl; [exact HF|]. intros name (? & ? & ?). done. }
  by rewrite Hpref.
Qed.

(** X25: dnsChangeGetNameserversFromOS makes no new object for a server of
    the preference: one that a lookup has marked not alive stays so,
    whichever way the option is switched, and with the option off the
    pool is the array of the preference itself. *)
Theorem os_switch_does_not_revive b p g ref :
  (ref < length (store g))%nat ->
  let g' := dnsChangeGetNameserversFromOS white_space b p (set_not_alive ref g) in
  PREF_DNS_ROOT_NAME_SERVERS g' = PREF_DNS_ROOT_NAME_SERVERS g
  /\ (b = false -> DNS_ROOT_NAME_SERVERS g' = PREF_DNS_ROOT_NAME_SERVERS g)
  /\ exists s, store g' !! ref = Some s /\ ns_alive s = false.
Proof.
  intros Href g'. subst g'.
  destruct (lookup_lt_is_Some_2 (store g) ref Href) as [s Hs].
  assert (Hdead : mark_dead ref (store g) !! ref
                  = Some (Nameserver (ns_server s) false)).
  { unfold mark_dead. rewrite list_lookup_alter_eq, Hs. reflexivity. }
  unfold dnsChangeGetNameserversFromOS, update_servers, set_not_alive.
  cbn [getNameserversFromOS store PREF_DNS_ROOT_NAME_SERVERS].
  destruct b.
  - unfold DNS_get_OS_DNSServers, new_servers.
    cbn [store PREF_DNS_ROOT_NAME_SERVERS DNS_ROOT_NAME_SERVERS].
    split; [reflexivity|]. split; [discriminate|].
    exists (Nameserver (ns_server s) false). split; [|reflexivity].
    rewrite lookup_app_l; [exact Hdead|].
    unfold mark_dead. by rewrite length_alter.
  - cbn [store PREF_DNS_ROOT_NAME_SERVERS DNS_ROOT_NAME_SERVERS].
    split; [reflexivity|]. split; [reflexivity|].
    exists (Nameserver (ns_server s) false). split; [exact Hdead|reflexivity].
Qed.





End Preferences.

(** ** The servers of the Windows registry *)

Lemma split_where_app_sep sep p c rest :
  Forall (fun u => sep u = false) p -> sep c = true ->
  split_where sep (p ++ c :: rest) = p :: split_where sep rest.
Proof.
  intros HF Hc. induction p as [|u p IH]; cbn [app split_where].
  - by rewrite Hc.
  - rewrite (Forall_inv HF). rewrite IH by exact (Forall_inv_tail HF). reflexivity.
Qed.

Lemma split_where_no_sep sep p :
  Forall (fun u => sep u = false) p -> split_where sep p = [p].
Proof.
  intros HF. induction p as [|u p IH]; cbn [split_where]; [reflexivity|].
  rewrite (Forall_inv HF). rewrite IH by exact (Forall_inv_tail HF). reflexivity.
Qed.

Lemma interfaces_of_zeros k : interfaces_of (split 0 (repeat 0 k)) = [].
Proof.
  induction k as [|k IH]; [reflexivity|].
  cbn [repeat split]. change (0 =? 0) with true. cbv beta iota.
  cbn [interfaces_of]. by rewrite bool_decide_eq_true_2 by reflexivity.
Qed.

Section Registry.
Variable white_space : Z -> bool.

(** The pieces of a value that lists [names], and of what follows a
    separator behind it. *)
Lemma registry_servers_value c names :
  forall rest,
    Forall (fun name => name <> [] /\ trim white_space name = name
                        /\ Forall (fun u => ((u =? 32) || (u =? 44)) = false) name)
      names ->
    ((c =? 32) || (c =? 44)) = true ->
    registry_servers white_space
      (split_where (fun u => (u =? 32) || (u =? 44)) (join_with c names ++ rest))
    = match rest with
      | [] => names
      | u :: rest' =>
          if (u =? 32) || (u =? 44)
          then names
                 ++ registry_servers white_space
                      (split_where (fun u => (u =? 32) || (u =? 44)) rest')
          else registry_servers white_space
                 (split_where (fun u => (u =? 32) || (u =? 44)) (join_with c names ++ rest))
      end.
Proof.
  intros rest HF Hc. destruct rest as [|u rest'].
  - rewrite app_nil_r. clear -HF Hc.
    destruct names as [|n names]; [reflexivity|].
    revert n HF. induction names as [|m names IH]; intros n HF.
    + cbn [join_with map concat]. rewrite app_nil_r.
      destruct (Forall_inv HF) as (Hne & Htrim & Hsep).
      rewrite split_where_no_sep by exact Hsep. cbn [registry_servers].
      rewrite bool_decide_eq_false_2 by exact Hne. cbn [negb]. by rewrite Htrim.
    + cbn [join_with map concat].
      change (n ++ (c :: m) ++ concat (map (cons c) names))
        with (n ++ c :: join_with c (m :: names)).
      destruct (Forall_inv HF) as (Hne & Htrim & Hsep).
      rewrite split_where_app_sep by done. cbn [registry_servers].
      rewrite bool_decide_eq_false_2 by exact Hne. cbn [negb]. rewrite Htrim.
      f_equal. apply IH. exact (Forall_inv_tail HF).
  - destruct ((u =? 32) || (u =? 44)) eqn:Hu; [|reflexivity].
    clear -HF Hc Hu.
    destruct names as [|n names].
    { cbn [join_with app split_where]. rewrite Hu. reflexivity. }
    revert n HF. induction names as [|m names IH]; intros n HF.
    + cbn [join_with map concat]. rewrite app_nil_r.
      destruct (Forall_inv HF) as (Hne & Htrim & Hsep).
      rewrite split_where_app_sep by done. cbn [registry_servers].
      rewrite bool_decide_eq_false_2 by exact Hne. cbn [negb]. by rewrite Htrim.
    + cbn [join_with map concat].
      change ((n ++ (c :: m) ++ concat (map (cons c) names)) ++ u :: rest')
        with ((n ++ c :: join_with c (m :: names)) ++ u :: rest').
      rewrite <- app_assoc. cbn [app].
      destruct (Forall_inv HF) as (Hne & Htrim & Hsep).
      rewrite split_where_app_sep by done. cbn [registry_servers].
      rewrite bool_decide_eq_false_2 by exact Hne. cbn [negb]. rewrite Htrim.
      cbn [app]. f_equal. apply IH. exact (Forall_inv_tail HF).
Qed.

(** X27: On Windows, for one adapter in the Route value (its name between
    quotes, and any number of zero units behind it), the servers are
    those of its NameServer value followed by those of its
    DhcpNameServer value, each value listing several servers with
    commas or with spaces between them, or none. *)
Theorem registry_values_list_the_servers r iface k static dhcp :
  Forall (fun u => u <> 0) iface ->
  reg_route r = [34] ++ iface ++ [34] ++ repeat 0 k ->
  reg_interface r iface = Some (Some (join_with 44 static), Some (join_with 32 dhcp)) ->
  Forall (fun name => name <> [] /\ trim white_space name = name
                      /\ Forall (fun u => ((u =? 32) || (u =? 44)) = false) name)
    (static ++ dhcp) ->
  os_servers white_space (Windows (Some r)) = static ++ dhcp.
Proof.
  intros Hzero Hroute Hvalues HF.
  apply Forall_app in HF as [Hstatic Hdhcp].
  unfold os_servers. rewrite Hroute.
  assert (Hquoted : Forall (fun u => u <> 0) ([34] ++ iface ++ [34])).
  { cbn [app]. constructor; [lia|].
    apply Forall_app. split; [exact Hzero|]. constructor; [lia|constructor]. }
  assert (Hifs : interfaces_of (split 0 ([34] ++ iface ++ [34] ++ repeat 0 k))
                 = [slice_1_m1 ([34] ++ iface ++ [34])]).
  { replace ([34] ++ iface ++ [34] ++ repeat 0 k)
      with (([34] ++ iface ++ [34]) ++ repeat 0 k)
      by (rewrite <- !app_assoc; reflexivity).
    destruct k as [|k].
    - cbn [repeat]. rewrite app_nil_r. rewrite split_no_sep by exact Hquoted.
      cbn [interfaces_of]. by rewrite bool_decide_eq_false_2 by discriminate.
    - cbn [repeat]. rewrite split_app_sep by exact Hquoted.
      cbn [interfaces_of]. rewrite bool_decide_eq_false_2 by discriminate.
      by rewrite interfaces_of_zeros. }
  rewrite Hifs.
  assert (Hslice : slice_1_m1 ([34] ++ iface ++ [34]) = iface).
  { unfold slice_1_m1. cbn [app length drop]. rewrite length_app. cbn [length].
    replace (S (length iface + 1) - 2)%nat with (length iface) by lia.
    rewrite drop_0. by rewrite take_app_length. }
  rewrite Hslice. cbn [registry_ns]. rewrite Hvalues. cbv beta iota zeta.
  change (lit " ") with [32]. cbn [app].
  rewrite bool_decide_eq_false_2 by discriminate. cbn [negb].
  cbn [split_where]. change ((32 =? 32) || (32 =? 44)) with true. cbv beta iota.
  cbn [registry_servers]. rewrite bool_decide_eq_true_2 by reflexivity. cbn [negb].
  rewrite (registry_servers_value 44 static (32 :: join_with 32 dhcp) Hstatic eq_refl).
  change ((32 =? 32) || (32 =? 44)) with true. cbv beta iota.
  f_equal.
  rewrite <- (app_nil_r (join_with 32 dhcp)).
  by rewrite (registry_servers_value 32 dhcp [] Hdhcp eq_refl).
Qed.

End Registry.

Lemma registry_values_list_the_servers_witness :
  os_servers es5_white_space
    (Windows
       (Some (Registry ([34] ++ lit "{4D36E972}" ++ [34] ++ repeat 0 2)
                (fun _ => Some (Some (join_with 44 [lit "8.8.8.8"; lit "8.8.4.4"]),
                                Some (join_with 32 [lit "192.168.1.1"]))))))
  = [lit "8.8.8.8"; lit "8.8.4.4"] ++ [lit "192.168.1.1"].
Proof.
  apply (registry_values_list_the_servers es5_white_space
           (Registry ([34] ++ lit "{4D36E972}" ++ [34] ++ repeat 0 2)
              (fun _ => Some (Some (join_with 44 [lit "8.8.8.8"; lit "8.8.4.4"]),
                              Some (join_with 32 [lit "192.168.1.1"]))))
           (lit "{4D36E972}") 2 [lit "8.8.8.8"; lit "8.8.4.4"] [lit "192.168.1.1"]).
  - vm_compute. repeat (apply List.Forall_cons; [lia|]). apply List.Forall_nil.
  - reflexivity.
  - reflexivity.
  - repeat (apply List.Forall_cons;
            [split; [discriminate|];
             split; [vm_compute; reflexivity|];
             vm_compute; repeat (apply List.Forall_cons; [reflexivity|]);
             apply List.Forall_nil|]).
    apply List.Forall_nil.
Defined.

Lemma framed_response_is_decoded_once_witness :
  exists c st',
    st_conns (queryDNS pool_of_one (lit "example.org") "A") !! 0%nat = Some c
    /\ deliver_all (H := mozilla) 2 0
         (map DataAvailable
            ([take 5 (frame (referral_to (lit "ns1")));
              drop 5 (frame (referral_to (lit "ns1")))] ++ [lit "more"])
          ++ [StopRequest 0])
         (queryDNS pool_of_one (lit "example.org") "A") = Some st'
    /\ st_pool st' = st_pool (queryDNS pool_of_one (lit "example.org") "A")
    /\ st_log st'
       = st_log (queryDNS pool_of_one (lit "example.org") "A")
         ++ events_of (follow c (RdRecurse (lit "ns1.example.org") 1))
    /\ (length (st_conns st')
        = length (st_conns (queryDNS pool_of_one (lit "example.org") "A"))
          + length (conns_of (follow c (RdRecurse (lit "ns1.example.org") 1))))%nat.
Proof.
  destruct (st_conns (queryDNS pool_of_one (lit "example.org") "A") !! 0%nat)
    as [c|] eqn:Hc; [|vm_compute in Hc; discriminate].
  exists c. 
  assert (Hfresh : fresh c).
  { vm_compute in Hc. injection Hc as <-. repeat split. }
  assert (Hrd : DNS_getRDData 2 (referral_to (lit "ns1")) (c_server c) (c_hops c)
                = Some (Ok (RdRecurse (lit "ns1.example.org") 1))).
  { vm_compute in Hc. injection Hc as <-. vm_compute. reflexivity. }
  destruct (framed_response_is_decoded_once (H := mozilla) 2 0
              (queryDNS pool_of_one (lit "example.org") "A") c
              [take 5 (frame (referral_to (lit "ns1")));
               drop 5 (frame (referral_to (lit "ns1")))]
              [lit "more"] (referral_to (lit "ns1"))
              (Ok (RdRecurse (lit "ns1.example.org") 1)) Hc Hfresh)
    as (st' & Hrun & Hpool & Hlog & Hlen).
  - split; [vm_compute; discriminate|vm_compute; reflexivity].
  - vm_compute. reflexivity.
  - exact Hrd.
  - exists st'. split; [reflexivity|]. split; [exact Hrun|]. split; [exact Hpool|].
    split; [exact Hlog|exact Hlen].
Defined.

Lemma nameserver_preference_roundtrip_witness :
  root_pool (dnsChangeNameserver es5_white_space
               (join_with 59 [lit "8.8.8.8"; lit "8.8.4.4"]) (Unix []) initial_globals)
  = map (fun name => Nameserver name true) [lit "8.8.8.8"; lit "8.8.4.4"].
Proof.
  apply (nameserver_preference_roundtrip es5_white_space
           [lit "8.8.8.8"; lit "8.8.4.4"] (Unix []) initial_globals).
  - discriminate.
  - repeat (apply List.Forall_cons;
            [split; [discriminate|];
             split; [vm_compute; reflexivity|];
             vm_compute; repeat (apply List.Forall_cons; [lia|]); apply List.Forall_nil|]).
    apply List.Forall_nil.
Defined.

Lemma os_switch_does_not_revive_witness :
  PREF_DNS_ROOT_NAME_SERVERS
    (dnsChangeGetNameserversFromOS es5_white_space false (Unix [])
       (set_not_alive 0 two_servers_set))
  = PREF_DNS_ROOT_NAME_SERVERS two_servers_set
  /\ (false = false ->
      DNS_ROOT_NAME_SERVERS
        (dnsChangeGetNameserversFromOS es5_white_space false (Unix [])
           (set_not_alive 0 two_servers_set))
      = PREF_DNS_ROOT_NAME_SERVERS two_servers_set)
  /\ exists s,
       store (dnsChangeGetNameserversFromOS es5_white_space false (Unix [])
                (set_not_alive 0 two_servers_set)) !! 0%nat = Some s
       /\ ns_alive s = false.
Proof.
  apply (os_switch_does_not_revive es5_white_space false (Unix []) two_servers_set 0).
  vm_compute. lia.
Defined.
